(** * PSD extraction engine of Thesis_Workflow: a shallow embedding

    The development follows three scripts of the repository:

    - [Scripts/Pch_TO_CSV2.py] (module [Csv]): the block parser
      [process_data_blocks], the frequency scan [extract_frequency], the peak
      finder [find_top_three_local_maxima], the table assembly of
      [create_combined_data] and the baseline difference [create_delta_files];
    - [heeds/database/Pch_TO_Database.py] (module [Db]): [parse_pch_file],
      [nastran_float], [find_peaks] and [calculate_area];
    - [Scripts/compute_delta.py] (module [Delta]): [compute_delta].

    Three neighbours of these scripts are embedded as well:
    [Scripts/verify_delta_zero.py] (module [Verify]), which checks the delta
    file; the row that [insert_peaks] of [Pch_TO_Database.py] stores (module
    [DbPeaks]); and [find_peaks] and [parse_bush_file] of
    [heeds/database/batch_import_to_database.py] (module [Batch]).

    Numbers.  A Python [float] that holds a finite value is a rational [Q];
    arithmetic is exact, comparison is [Qeq]/[Qlt].  Rounding, signed zeros
    and the tokens [inf]/[nan] of [float()] are outside the model: a series
    sample is always finite.  Table cells, which pandas fills with NaN for a
    missing value, are [cell]s: a number or [NaN].

    Text.  A [str] is a [string] of code points below 256.  [str.split],
    [str.strip], [str.startswith], [str.isdigit], [int()] and [float()] are
    written out in module [PyStr]. *)

From Stdlib Require Import QArith Qabs ZArith String Ascii List Lia Permutation Sorted.
From Stdlib Require Import DecimalString DecimalZ DecimalPos.
From Stdlib Require Import SetoidList SetoidPermutation.
From stdpp Require Import gmap strings.
Import ListNotations.

Open Scope string_scope.

(* ================================================================== *)
(** * Python strings and number literals *)
(* ================================================================== *)

Module PyStr.

(** [str.isspace] on one code point below 256. *)
Definition isspace (c : ascii) : bool :=
  let n := nat_of_ascii c in
  (((9 <=? n) && (n <=? 13)) || ((28 <=? n) && (n <=? 32))
   || (n =? 133) || (n =? 160))%nat.

(** A decimal digit in the sense of [int()], [float()] and the regular
    expression class [\d]. *)
Definition is_digit (c : ascii) : bool :=
  let n := nat_of_ascii c in ((48 <=? n) && (n <=? 57))%nat.

Definition digit_val (c : ascii) : Z := Z.of_nat (nat_of_ascii c - 48).

Definition is_sign (c : ascii) : bool := Ascii.eqb c "+" || Ascii.eqb c "-".

Definition is_exp (c : ascii) : bool := Ascii.eqb c "e" || Ascii.eqb c "E".

(** [s.split()]: the maximal runs of non-whitespace characters. *)
Fixpoint split_aux (cur : list ascii) (l : list ascii) : list string :=
  match l with
  | [] => match cur with
          | [] => []
          | _ => [string_of_list_ascii (rev cur)]
          end
  | c :: l' =>
      if isspace c
      then match cur with
           | [] => split_aux [] l'
           | _ => string_of_list_ascii (rev cur) :: split_aux [] l'
           end
      else split_aux (c :: cur) l'
  end.

Definition split (s : string) : list string :=
  split_aux [] (list_ascii_of_string s).

Fixpoint lstrip (l : list ascii) : list ascii :=
  match l with
  | [] => []
  | c :: l' => if isspace c then lstrip l' else l
  end.

Definition strip_chars (l : list ascii) : list ascii :=
  rev (lstrip (rev (lstrip l))).

(** [s.strip()]. *)
Definition strip (s : string) : string :=
  string_of_list_ascii (strip_chars (list_ascii_of_string s)).

(** Truth value of [line.strip()]: the stripped line is not empty. *)
Definition nonblank (line : string) : bool :=
  negb (String.eqb (strip line) "").

(** [line.startswith(p)]. *)
Definition startswith (line p : string) : bool := String.prefix p line.

(** [s.isdigit()]: not empty, every character a digit; below 256 the
    superscripts 178, 179 and 185 count as digits too. *)
Definition isdigit_char (c : ascii) : bool :=
  let n := nat_of_ascii c in
  is_digit c || ((n =? 178) || (n =? 179) || (n =? 185))%nat.

Definition isdigit (s : string) : bool :=
  match list_ascii_of_string s with
  | [] => false
  | l => forallb isdigit_char l
  end.

(** ** [int(s)]: optional sign, digits, single underscores between digits *)

Inductive iphase := I_start | I_sign | I_digit | I_us | I_fail.

Record istate := { i_phase : iphase; i_neg : bool; i_val : Z }.

Definition int_fail (st : istate) : istate :=
  {| i_phase := I_fail; i_neg := i_neg st; i_val := i_val st |}.

Definition int_digit (st : istate) (c : ascii) : istate :=
  {| i_phase := I_digit; i_neg := i_neg st; i_val := (10 * i_val st + digit_val c)%Z |}.

Definition int_step (st : istate) (c : ascii) : istate :=
  match i_phase st with
  | I_fail => st
  | I_start =>
      if is_sign c
      then {| i_phase := I_sign; i_neg := Ascii.eqb c "-"; i_val := 0%Z |}
      else if is_digit c then int_digit st c else int_fail st
  | I_sign | I_us => if is_digit c then int_digit st c else int_fail st
  | I_digit =>
      if is_digit c then int_digit st c
      else if Ascii.eqb c "_"
           then {| i_phase := I_us; i_neg := i_neg st; i_val := i_val st |}
           else int_fail st
  end.

(** [None] stands for [ValueError]. *)
Definition py_int (s : string) : option Z :=
  let st := fold_left int_step (strip_chars (list_ascii_of_string s))
                      {| i_phase := I_start; i_neg := false; i_val := 0%Z |} in
  match i_phase st with
  | I_digit => Some (if i_neg st then (- i_val st)%Z else i_val st)
  | _ => None
  end.

(** [str(n)] for an integer. *)
Definition str_of_int (n : Z) : string := NilZero.string_of_int (Z.to_int n).

(** ** [float(s)] on decimal literals

    [sign] (digits [. [digits]] | . digits) [(e|E) [sign] digits], with a
    single underscore allowed between two digits. *)

Inductive fphase :=
| F_start | F_sign | F_int | F_int_us | F_dot | F_dot0
| F_frac | F_frac_us | F_e | F_esign | F_exp | F_exp_us | F_fail.

Record fstate := {
  f_phase : fphase;
  f_neg : bool;      (* sign of the mantissa *)
  f_mant : Z;        (* integer and fraction digits read as one integer *)
  f_fdig : Z;        (* number of fraction digits *)
  f_eneg : bool;     (* sign of the exponent *)
  f_exp : Z          (* exponent digits *)
}.

Definition f_set (p : fphase) (st : fstate) : fstate :=
  {| f_phase := p; f_neg := f_neg st; f_mant := f_mant st; f_fdig := f_fdig st;
     f_eneg := f_eneg st; f_exp := f_exp st |}.

Definition f_int_digit (st : fstate) (c : ascii) : fstate :=
  {| f_phase := F_int; f_neg := f_neg st; f_mant := (10 * f_mant st + digit_val c)%Z;
     f_fdig := f_fdig st; f_eneg := f_eneg st; f_exp := f_exp st |}.

Definition f_frac_digit (st : fstate) (c : ascii) : fstate :=
  {| f_phase := F_frac; f_neg := f_neg st; f_mant := (10 * f_mant st + digit_val c)%Z;
     f_fdig := (f_fdig st + 1)%Z; f_eneg := f_eneg st; f_exp := f_exp st |}.

Definition f_exp_digit (st : fstate) (c : ascii) : fstate :=
  {| f_phase := F_exp; f_neg := f_neg st; f_mant := f_mant st; f_fdig := f_fdig st;
     f_eneg := f_eneg st; f_exp := (10 * f_exp st + digit_val c)%Z |}.

Definition float_step (st : fstate) (c : ascii) : fstate :=
  match f_phase st with
  | F_fail => st
  | F_start =>
      if is_sign c
      then {| f_phase := F_sign; f_neg := Ascii.eqb c "-"; f_mant := f_mant st;
              f_fdig := f_fdig st; f_eneg := f_eneg st; f_exp := f_exp st |}
      else if is_digit c then f_int_digit st c
      else if Ascii.eqb c "." then f_set F_dot0 st
      else f_set F_fail st
  | F_sign =>
      if is_digit c then f_int_digit st c
      else if Ascii.eqb c "." then f_set F_dot0 st
      else f_set F_fail st
  | F_int =>
      if is_digit c then f_int_digit st c
      else if Ascii.eqb c "_" then f_set F_int_us st
      else if Ascii.eqb c "." then f_set F_dot st
      else if is_exp c then f_set F_e st
      else f_set F_fail st
  | F_int_us => if is_digit c then f_int_digit st c else f_set F_fail st
  | F_dot =>
      if is_digit c then f_frac_digit st c
      else if is_exp c then f_set F_e st
      else f_set F_fail st
  | F_dot0 => if is_digit c then f_frac_digit st c else f_set F_fail st
  | F_frac =>
      if is_digit c then f_frac_digit st c
      else if Ascii.eqb c "_" then f_set F_frac_us st
      else if is_exp c then f_set F_e st
      else f_set F_fail st
  | F_frac_us => if is_digit c then f_frac_digit st c else f_set F_fail st
  | F_e =>
      if is_sign c
      then {| f_phase := F_esign; f_neg := f_neg st; f_mant := f_mant st;
              f_fdig := f_fdig st; f_eneg := Ascii.eqb c "-"; f_exp := f_exp st |}
      else if is_digit c then f_exp_digit st c
      else f_set F_fail st
  | F_esign => if is_digit c then f_exp_digit st c else f_set F_fail st
  | F_exp =>
      if is_digit c then f_exp_digit st c
      else if Ascii.eqb c "_" then f_set F_exp_us st
      else f_set F_fail st
  | F_exp_us => if is_digit c then f_exp_digit st c else f_set F_fail st
  end.

Definition f_init : fstate :=
  {| f_phase := F_start; f_neg := false; f_mant := 0%Z; f_fdig := 0%Z;
     f_eneg := false; f_exp := 0%Z |}.

Definition f_accepting (p : fphase) : bool :=
  match p with
  | F_int | F_dot | F_frac | F_exp => true
  | _ => false
  end.

Definition pow10 (n : Z) : Q :=
  if (0 <=? n)%Z then inject_Z (10 ^ n) else 1 # Z.to_pos (10 ^ (- n)).

Definition float_value (st : fstate) : Q :=
  Qred (inject_Z (if f_neg st then (- f_mant st)%Z else f_mant st)
        * pow10 ((if f_eneg st then (- f_exp st)%Z else f_exp st) - f_fdig st)).

Definition float_chars (l : list ascii) : option Q :=
  let st := fold_left float_step l f_init in
  if f_accepting (f_phase st) then Some (float_value st) else None.

(** [None] stands for [ValueError]. *)
Definition py_float (s : string) : option Q :=
  float_chars (strip_chars (list_ascii_of_string s)).

End PyStr.

(* ================================================================== *)
(** * Helpers shared by the scripts *)
(* ================================================================== *)

Module Py.

(** Strict comparison of two finite floats. *)
Definition Qltb (x y : Q) : bool := negb (Qle_bool y x).

(** [sorted(l, key=...)]: a stable sort; [lt a b] says that the key of [a] is
    strictly smaller than the key of [b] ([reverse=True] swaps the keys and
    keeps the order of equal elements). *)
Fixpoint insert_by {A : Type} (lt : A -> A -> bool) (x : A) (l : list A) : list A :=
  match l with
  | [] => [x]
  | y :: l' => if lt y x then y :: insert_by lt x l' else x :: l
  end.

Definition sort_by {A : Type} (lt : A -> A -> bool) (l : list A) : list A :=
  fold_right (insert_by lt) [] l.

(** [np.argsort(values)]: the indices in ascending order of value.  Indices of
    equal values keep their order, as numpy's default sort does on the short
    runs it sorts by insertion; the results below use no more of the tie
    order than that the outcome is a permutation of the indices. *)
Definition argsort (values : list Q) : list nat :=
  map fst (sort_by (fun a b => Qltb (snd a) (snd b))
                   (combine (seq 0 (length values)) values)).

Definition Qsum (l : list Q) : Q := fold_right Qplus 0%Q l.

(** [np.trapz(y, x)]: the sum of [(x[i+1] - x[i]) * (y[i+1] + y[i]) / 2]. *)
Fixpoint trapz_from (y0 x0 : Q) (y x : list Q) : Q :=
  match y, x with
  | y1 :: y', x1 :: x' => ((x1 - x0) * (y1 + y0) / 2 + trapz_from y1 x1 y' x')%Q
  | _, _ => 0%Q
  end.

Definition trapz (y x : list Q) : Q :=
  match y, x with
  | y0 :: y', x0 :: x' => trapz_from y0 x0 y' x'
  | _, _ => 0%Q
  end.

(** A table cell: a number, or pandas' NaN for a missing value. *)
Inductive cell := Num (q : Q) | NaN.

(** Equality of cells up to the representation of the rational. *)
Definition cell_equiv (a b : cell) : Prop :=
  match a, b with
  | Num x, Num y => (x == y)%Q
  | NaN, NaN => True
  | _, _ => False
  end.

(** A data frame with a [Measurement] column and named value columns. *)
Record table := {
  Measurement : list string;
  columns : list (string * list cell)
}.

Definition column (t : table) (name : string) : option (list cell) :=
  option_map snd (find (fun c => String.eqb (fst c) name) (columns t)).

(** The cell of column [col] in the row whose measurement is [meas]. *)
Fixpoint row_index (names : list string) (meas : string) : option nat :=
  match names with
  | [] => None
  | n :: names' =>
      if String.eqb n meas then Some 0%nat
      else option_map S (row_index names' meas)
  end.

Definition cell_at (t : table) (meas col : string) : option cell :=
  match row_index (Measurement t) meas, column t col with
  | Some i, Some values => nth_error values i
  | _, _ => None
  end.

(** [lambda x: 0 if abs(x) < 1e-6 else x]; the test is false on NaN. *)
Definition deadband (x : cell) : cell :=
  match x with
  | Num q => if Qltb (Qabs q) (1 # 1000000) then Num 0 else Num q
  | NaN => NaN
  end.

End Py.

(* ================================================================== *)
(** * Scripts/Pch_TO_CSV2.py *)
(* ================================================================== *)

Module Csv.
Import PyStr Py.

Definition ACCE_MEASUREMENTS : list string := [
  "ACCE_T1_Area"; "ACCE_T1_Frequency_1"; "ACCE_T1_PSD_1"; "ACCE_T1_Frequency_2"; "ACCE_T1_PSD_2";
  "ACCE_T1_Frequency_3"; "ACCE_T1_PSD_3";
  "ACCE_T2_Area"; "ACCE_T2_Frequency_1"; "ACCE_T2_PSD_1"; "ACCE_T2_Frequency_2"; "ACCE_T2_PSD_2";
  "ACCE_T2_Frequency_3"; "ACCE_T2_PSD_3";
  "ACCE_T3_Area"; "ACCE_T3_Frequency_1"; "ACCE_T3_PSD_1"; "ACCE_T3_Frequency_2"; "ACCE_T3_PSD_2";
  "ACCE_T3_Frequency_3"; "ACCE_T3_PSD_3";
  "ACCE_R1_Area"; "ACCE_R1_Frequency_1"; "ACCE_R1_PSD_1"; "ACCE_R1_Frequency_2"; "ACCE_R1_PSD_2";
  "ACCE_R1_Frequency_3"; "ACCE_R1_PSD_3";
  "ACCE_R2_Area"; "ACCE_R2_Frequency_1"; "ACCE_R2_PSD_1"; "ACCE_R2_Frequency_2"; "ACCE_R2_PSD_2";
  "ACCE_R2_Frequency_3"; "ACCE_R2_PSD_3";
  "ACCE_R3_Area"; "ACCE_R3_Frequency_1"; "ACCE_R3_PSD_1"; "ACCE_R3_Frequency_2"; "ACCE_R3_PSD_2";
  "ACCE_R3_Frequency_3"; "ACCE_R3_PSD_3"
].

Definition DISP_MEASUREMENTS : list string := [
  "DISP_T1_Area"; "DISP_T1_Frequency_1"; "DISP_T1_DISP_1"; "DISP_T1_Frequency_2"; "DISP_T1_DISP_2";
  "DISP_T1_Frequency_3"; "DISP_T1_DISP_3";
  "DISP_T2_Area"; "DISP_T2_Frequency_1"; "DISP_T2_DISP_1"; "DISP_T2_Frequency_2"; "DISP_T2_DISP_2";
  "DISP_T2_Frequency_3"; "DISP_T2_DISP_3";
  "DISP_T3_Area"; "DISP_T3_Frequency_1"; "DISP_T3_DISP_1"; "DISP_T3_Frequency_2"; "DISP_T3_DISP_2";
  "DISP_T3_Frequency_3"; "DISP_T3_DISP_3";
  "DISP_R1_Area"; "DISP_R1_Frequency_1"; "DISP_R1_DISP_1"; "DISP_R1_Frequency_2"; "DISP_R1_DISP_2";
  "DISP_R1_Frequency_3"; "DISP_R1_DISP_3";
  "DISP_R2_Area"; "DISP_R2_Frequency_1"; "DISP_R2_DISP_1"; "DISP_R2_Frequency_2"; "DISP_R2_DISP_2";
  "DISP_R2_Frequency_3"; "DISP_R2_DISP_3";
  "DISP_R3_Area"; "DISP_R3_Frequency_1"; "DISP_R3_DISP_1"; "DISP_R3_Frequency_2"; "DISP_R3_DISP_2";
  "DISP_R3_Frequency_3"; "DISP_R3_DISP_3"
].

(** [translation_mapping.get(translation_id, f"UNKNOWN-{translation_id}")]. *)
Definition determine_translation_id (translation_id : Z) : string :=
  if (translation_id =? 3)%Z then "T1"
  else if (translation_id =? 4)%Z then "T2"
  else if (translation_id =? 5)%Z then "T3"
  else if (translation_id =? 6)%Z then "R1"
  else if (translation_id =? 7)%Z then "R2"
  else if (translation_id =? 8)%Z then "R3"
  else "UNKNOWN-" ++ str_of_int translation_id.

(** The module-level globals together with the three locals of
    [process_data_blocks]. *)
Record pstate := {
  data_dict : gmap string (list Q);
  node_ids : gset string;
  acce_count : nat;
  disp_count : nat;
  total_frequencies : nat;
  total_psd_columns : nat;
  current_header : option string;
  current_node : option string;
  current_dof : option string
}.

(** The state after the reset at the start of [create_combined_data]. *)
Definition initial : pstate :=
  {| data_dict := ∅; node_ids := ∅; acce_count := 0; disp_count := 0;
     total_frequencies := 0; total_psd_columns := 0;
     current_header := None; current_node := None; current_dof := None |}.

Definition set_dict (d : gmap string (list Q)) (st : pstate) : pstate :=
  {| data_dict := d; node_ids := node_ids st; acce_count := acce_count st;
     disp_count := disp_count st; total_frequencies := total_frequencies st;
     total_psd_columns := total_psd_columns st;
     current_header := current_header st; current_node := current_node st;
     current_dof := current_dof st |}.

Definition count_header (kind : string) (st : pstate) : pstate :=
  {| data_dict := data_dict st; node_ids := node_ids st;
     acce_count := if String.eqb kind "ACCE" then S (acce_count st) else acce_count st;
     disp_count := if String.eqb kind "ACCE" then disp_count st else S (disp_count st);
     total_frequencies := total_frequencies st;
     total_psd_columns := total_psd_columns st;
     current_header := current_header st; current_node := current_node st;
     current_dof := current_dof st |}.

Definition nth_str (n : nat) (parts : list string) : string := nth n parts "".

(** The body of the [$ACCE] branch (lines 73-86) and of the [$DISP] branch
    (lines 89-102), which differ in the counter and in the prefix [kind] of
    the header only.  [None]: [int(parts[3])] raised [ValueError]. *)
Definition open_block (kind : string) (st0 : pstate) (line : string) : option pstate :=
  let st := count_header kind st0 in
  let parts := split line in
  if (5 <=? length parts)%nat then
    let node_id := nth_str 2 parts in
    match py_int (nth_str 3 parts) with
    | None => None
    | Some translation_id =>
        let translation_id_name := determine_translation_id translation_id in
        let header := kind ++ "-" ++ node_id ++ "-" ++ translation_id_name in
        let fresh := match data_dict st !! header with Some _ => false | None => true end in
        Some {| data_dict := if fresh then <[header := []]> (data_dict st) else data_dict st;
                node_ids := {[node_id]} ∪ node_ids st;
                acce_count := acce_count st;
                disp_count := disp_count st;
                total_frequencies := total_frequencies st;
                total_psd_columns :=
                  if fresh then S (total_psd_columns st) else total_psd_columns st;
                current_header := Some header;
                current_node := Some node_id;
                current_dof := Some translation_id_name |}
    end
  else Some st.

(** Lines 105-111: a row of an open block.  [None]: [KeyError]. *)
Definition data_row (st : pstate) (header line : string) : option pstate :=
  let psd_parts := split line in
  if (4 <=? length psd_parts)%nat then
    match py_float (nth_str 2 psd_parts) with
    | Some psd =>
        match data_dict st !! header with
        | Some series => Some (set_dict (<[header := (series ++ [psd])%list]> (data_dict st)) st)
        | None => None
        end
    | None => Some st
    end
  else Some st.

(** Lines 114-116. *)
Definition close_block (st : pstate) : pstate :=
  {| data_dict := data_dict st; node_ids := node_ids st; acce_count := acce_count st;
     disp_count := disp_count st; total_frequencies := total_frequencies st;
     total_psd_columns := total_psd_columns st;
     current_header := None; current_node := None; current_dof := None |}.

(** One turn of the [while] loop. *)
Definition process_line (st : pstate) (line : string) : option pstate :=
  if startswith line "$ACCE" then open_block "ACCE" st line
  else if startswith line "$DISP" then open_block "DISP" st line
  else if nonblank line then
    match current_header st with
    | Some header => data_row st header line
    | None => Some st
    end
  else Some (close_block st).

(** [process_data_blocks(lines)], run from the state [st] of the globals.
    [None]: an exception left the function. *)
Fixpoint process_data_blocks (st : pstate) (lines : list string) : option pstate :=
  match lines with
  | [] => Some st
  | line :: lines' =>
      match process_line st line with
      | Some st' => process_data_blocks st' lines'
      | None => None
      end
  end.

(** ** [extract_frequency] *)

Definition Frequency (d : gmap string (list Q)) : list Q :=
  default [] (d !! "Frequency").

(** The globals and the locals [within_data_block], [current_block]. *)
Definition xstate : Type := pstate * bool * option string.

Definition set_frequencies (fs : list Q) (st : pstate) : pstate :=
  {| data_dict := <["Frequency" := fs]> (data_dict st);
     node_ids := node_ids st; acce_count := acce_count st;
     disp_count := disp_count st; total_frequencies := S (total_frequencies st);
     total_psd_columns := total_psd_columns st;
     current_header := current_header st; current_node := current_node st;
     current_dof := current_dof st |}.

(** One turn of the [for] loop (lines 130-146). *)
Definition frequency_line (x : xstate) (line : string) : xstate :=
  let '(st, within_data_block, current_block) := x in
  if startswith line "$ACCE" || startswith line "$DISP"
  then (st, true, Some (String.substring 0 5 line))
  else if within_data_block then
    if String.eqb (strip line) ""
    then (st, false, None)
    else
      let frequency_parts := split line in
      if (4 <=? length frequency_parts)%nat then
        match py_float (nth_str 1 frequency_parts) with
        | Some frequency =>
            let seen := Frequency (data_dict st) in
            if existsb (Qeq_bool frequency) seen then x
            else (set_frequencies (seen ++ [frequency])%list st, within_data_block, current_block)
        | None => x
        end
      else x
  else x.

Definition extract_frequency (st : pstate) (lines : list string) : pstate :=
  let st1 :=
    match data_dict st !! "Frequency" with
    | Some _ => st
    | None => set_dict (<["Frequency" := []]> (data_dict st)) st
    end in
  fst (fst (fold_left frequency_line lines (st1, false, None))).

(** ** [find_top_three_local_maxima], for the one value column of [temp_df] *)

Definition window_size (n : nat) : nat := Nat.min 5 (n / 10 + 1).

(** [np.convolve(a, np.ones(w) / w, mode='same')] for [w <= len(a)]: entry [k]
    adds [a[j] / w] over the [j] of [k + off - (w - 1) .. k + off] that index
    [a], where [off = (w - 1) // 2]. *)
Definition convolve_same (a : list Q) (w : nat) : list Q :=
  let n := length a in
  let off := ((w - 1) / 2)%nat in
  map (fun k =>
         let lo := (k + off - (w - 1))%nat in
         let hi := Nat.min (k + off) (n - 1) in
         Qsum (map (fun j => nth j a 0 * (1 # Pos.of_nat w))%Q
                   (seq lo (hi + 1 - lo))))
      (seq 0 n).

Definition smooth_psd (psd_values : list Q) : list Q :=
  let w := window_size (length psd_values) in
  if ((1 <? w) && (w <? length psd_values))%nat
  then convolve_same psd_values w
  else psd_values.

(** Lines 166-169. *)
Definition local_maxima_mask (psd_values smooth : list Q) : list bool :=
  map (fun i =>
         ((1 <=? i) && (i + 1 <? length smooth))%nat
         && Qltb (nth (i - 1) smooth 0%Q) (nth i smooth 0%Q)
         && Qltb (nth (i + 1) smooth 0%Q) (nth i smooth 0%Q))
      (seq 0 (length psd_values)).

(** [l[-3:]]. *)
Definition last_three {A : Type} (l : list A) : list A := skipn (length l - 3) l.

(** [is_local_maxima[top_indices] = True]. *)
Definition mark (mask : list bool) (indices : list nat) : list bool :=
  fold_left (fun m i => <[i := true]> m) indices mask.

(** [np.where(mask)[0]]. *)
Definition np_where (mask : list bool) : list nat :=
  List.filter (fun i => nth i mask false) (seq 0 (length mask)).

(** Lines 172-175: the mask after the fall-back to the three largest values. *)
Definition maxima_mask (psd_values : list Q) : list bool :=
  let mask := local_maxima_mask psd_values (smooth_psd psd_values) in
  if existsb (fun b => b) mask then mask
  else mark mask (last_three (argsort psd_values)).

(** Lines 187-190. *)
Fixpoint fill (frequencies psd_values : list Q) (local_maximas : list (Q * Q))
  (indices : list nat) : list (Q * Q) :=
  match indices with
  | [] => local_maximas
  | idx :: rest =>
      if (3 <=? length local_maximas)%nat then local_maximas
      else fill frequencies psd_values
                (local_maximas ++ [(nth idx frequencies 0%Q, nth idx psd_values 0%Q)])%list
                rest
  end.

(** Lines 178-190: the candidate points. *)
Definition candidates (frequencies psd_values : list Q) : list (Q * Q) :=
  let is_local_maxima := maxima_mask psd_values in
  let local_maximas :=
    map (fun i => (nth i frequencies 0%Q, nth i psd_values 0%Q)) (np_where is_local_maxima) in
  if (length local_maximas <? 3)%nat then
    let non_maxima_indices := np_where (map negb is_local_maxima) in
    let sorted_indices :=
      map (fun k => nth k non_maxima_indices 0%nat)
          (argsort (map (fun i => nth i psd_values 0%Q) non_maxima_indices)) in
    fill frequencies psd_values local_maximas (rev sorted_indices)
  else local_maximas.

(** [local_maximas_sorted] after line 196: at most three (frequency, value)
    pairs, in ascending order of frequency. *)
Definition find_top_three_local_maxima (frequencies psd_values : list Q) : list (Q * Q) :=
  let top := firstn 3 (sort_by (fun a b => Qltb (snd b) (snd a))
                               (candidates frequencies psd_values)) in
  sort_by (fun a b => Qltb (fst a) (fst b)) top.

(** [maxima_data.get(f'Frequency_{rank}', np.nan)] and
    [maxima_data.get(f'PSD_{rank}', np.nan)]: lines 202-209 store NaN for a
    rank beyond the peaks found. *)
Definition maxima_frequency (peaks : list (Q * Q)) (rank : nat) : cell :=
  match nth_error peaks (rank - 1) with
  | Some p => Num (fst p)
  | None => NaN
  end.

Definition maxima_psd (peaks : list (Q * Q)) (rank : nat) : cell :=
  match nth_error peaks (rank - 1) with
  | Some p => Num (snd p)
  | None => NaN
  end.

(** ** [create_combined_data] *)

(** [pd.DataFrame(data_dict)]: every column has the length of the first one,
    otherwise pandas raises [ValueError] ([None]). *)
Definition DataFrame (d : gmap string (list Q)) : option (gmap string (list Q)) :=
  match map_to_list d with
  | [] => Some d
  | (_, values) :: rest =>
      if forallb (fun kv => (length (snd kv) =? length values)%nat) rest
      then Some d else None
  end.

(** [original_df.empty]: no column or no row. *)
Definition df_empty (df : gmap string (list Q)) : bool :=
  match map_to_list df with
  | [] => true
  | (_, values) :: _ => (length values =? 0)%nat
  end.

Definition dof_types : list string := ["T1"; "T2"; "T3"; "R1"; "R2"; "R3"].

Definition str_of_nat (i : nat) : string := str_of_int (Z.of_nat i).

(** The key [int(x) if x.isdigit() else float('inf')] of the node sort:
    [Some (Some n)] an integer, [Some None] infinity, [None] a [ValueError]
    of [int]. *)
Definition node_key (x : string) : option (option Z) :=
  if isdigit x then option_map Some (py_int x) else Some None.

Definition key_lt (a b : option Z) : bool :=
  match a, b with
  | Some m, Some n => (m <? n)%Z
  | Some _, None => true
  | None, _ => false
  end.

Fixpoint keyed (nodes : list string) : option (list (option Z * string)) :=
  match nodes with
  | [] => Some []
  | x :: nodes' =>
      match node_key x, keyed nodes' with
      | Some k, Some r => Some ((k, x) :: r)
      | _, _ => None
      end
  end.

(** [sorted(node_ids, key=...)]; the set is iterated in the order of
    [elements]. *)
Definition sorted_nodes (ids : gset string) : option (list string) :=
  option_map (fun l => map snd (sort_by (fun a b => key_lt (fst a) (fst b)) l))
             (keyed (elements ids)).

(** The seven entries one degree of freedom adds to [acce_node_data] or to
    [disp_node_data], from the area and the peaks (lines 466-471, 499-504). *)
Definition present_entries (dof : string) (area : Q) (peaks : list (Q * Q))
  : list (string * cell) :=
  (dof ++ "_Area", Num area)
  :: flat_map (fun i => [(dof ++ "_Frequency_" ++ str_of_nat i, maxima_frequency peaks i);
                         (dof ++ "_PSD_" ++ str_of_nat i, maxima_psd peaks i)])
              [1; 2; 3]%nat.

(** The seven entries of a channel that is not in the data frame, all equal
    to [v] (lines 476-485, 507-510). *)
Definition absent_entries (dof : string) (v : cell) : list (string * cell) :=
  (dof ++ "_Area", v)
  :: flat_map (fun i => [(dof ++ "_Frequency_" ++ str_of_nat i, v);
                         (dof ++ "_PSD_" ++ str_of_nat i, v)])
              [1; 2; 3]%nat.

Definition channel_entries (df : gmap string (list Q)) (dof key : string)
  (absent : cell) : list (string * cell) :=
  match df !! key with
  | Some values =>
      let frequencies := Frequency df in
      let area := trapz values frequencies in
      present_entries dof area (find_top_three_local_maxima frequencies values)
  | None => absent_entries dof absent
  end.

Definition is_rotational (dof : string) : bool :=
  existsb (String.eqb dof) ["R1"; "R2"; "R3"].

(** [acce_node_data] after the loop over [dof_types] (lines 450-485). *)
Definition acce_node_data (df : gmap string (list Q)) (node_id : string)
  : list (string * cell) :=
  flat_map (fun dof =>
              channel_entries df dof ("ACCE-" ++ node_id ++ "-" ++ dof)
                              (if is_rotational dof then Num 0 else NaN))
           dof_types.

(** [disp_node_data] after the loop over [dof_types] (lines 487-510). *)
Definition disp_node_data (df : gmap string (list Q)) (node_id : string)
  : list (string * cell) :=
  flat_map (fun dof => channel_entries df dof ("DISP-" ++ node_id ++ "-" ++ dof) NaN)
           dof_types.

(** [acce_name_mapping] (lines 534-539) and [disp_name_mapping] (lines
    542-547), in insertion order; [metric] is ["PSD"] or ["DISP"]. *)
Definition name_mapping (kind metric : string) : list (string * string) :=
  flat_map (fun dof =>
              (dof ++ "_Area", kind ++ "_" ++ dof ++ "_Area")
              :: flat_map (fun i =>
                             [(dof ++ "_Frequency_" ++ str_of_nat i,
                               kind ++ "_" ++ dof ++ "_Frequency_" ++ str_of_nat i);
                              (dof ++ "_PSD_" ++ str_of_nat i,
                               kind ++ "_" ++ dof ++ "_" ++ metric ++ "_" ++ str_of_nat i)])
                          [1; 2; 3]%nat)
           dof_types.

(** Lines 558-570: the value of one measurement row for one node.  [rows] is
    the list behind [acce_df] (or [disp_df]): one dictionary per node.  The
    keys ['Node'] and ['Measurement'] of a row hold text and are no standard
    name, so they are left out of the dictionary. *)
Definition node_value (rows : list (string * list (string * cell)))
  (mapping : list (string * string)) (node_id meas_name : string) : cell :=
  let node_data := option_map snd (find (fun r => String.eqb (fst r) node_id) rows) in
  let std_name := option_map fst (find (fun m => String.eqb (snd m) meas_name) mapping) in
  match node_data, std_name with
  | Some data, Some name =>
      match find (fun e => String.eqb (fst e) name) data with
      | Some e => snd e
      | None => NaN
      end
  | _, _ => NaN
  end.

(** Lines 525-594 for one response kind. *)
Definition transposed (measurements : list string)
  (rows : list (string * list (string * cell))) (mapping : list (string * string))
  (nodes : list string) : table :=
  {| Measurement := measurements;
     columns := map (fun node_id =>
                       ("Node_" ++ node_id,
                        map (node_value rows mapping node_id) measurements))
                    nodes |}.

(** Lines 416-418: [data_dict['Frequency'] = sorted(data_dict['Frequency'])]. *)
Definition sort_frequencies (d : gmap string (list Q)) : gmap string (list Q) :=
  match d !! "Frequency" with
  | Some fs => <["Frequency" := sort_by Qltb fs]> d
  | None => d
  end.

(** The frequency axis of the data frame: the column ['Frequency'] after the
    two passes over the lines and the sort. *)
Definition frequency_axis (st1 : pstate) (lines : list string) : list Q :=
  Frequency (sort_frequencies (data_dict (extract_frequency st1 lines))).

(** Lines 437-594: the two transposed frames. *)
Definition assemble (original_df : gmap string (list Q)) (nodes : list string)
  : table * table :=
  let acce_data := map (fun n => (n, acce_node_data original_df n)) nodes in
  let disp_data := map (fun n => (n, disp_node_data original_df n)) nodes in
  (transposed ACCE_MEASUREMENTS acce_data (name_mapping "ACCE" "PSD") nodes,
   transposed DISP_MEASUREMENTS disp_data (name_mapping "DISP" "DISP") nodes).

(** [create_combined_data] on the lines of the input file, without the plots
    ([plot_node=None], [plot_all=False]): the acceleration and the
    displacement table handed to [to_csv], or [None] when the function
    returns [False]. *)
Definition create_combined_data (lines : list string) : option (table * table) :=
  match process_data_blocks initial lines with
  | None => None
  | Some st1 =>
      let st2 := extract_frequency st1 lines in
      match DataFrame (sort_frequencies (data_dict st2)) with
      | None => None
      | Some original_df =>
          if df_empty original_df then None
          else option_map (assemble original_df) (sorted_nodes (node_ids st2))
      end
  end.

(** [to_csv(..., na_rep='', float_format='%.10g')] on one cell; the
    formatting of a number is a parameter. *)
Definition to_csv_field (float_format : Q -> string) (c : cell) : string :=
  match c with
  | Num q => float_format q
  | NaN => ""
  end.

(** ** [create_delta_files] *)

(** [b.subtract(c, fill_value=0)] on one index label: a side that is missing
    counts as 0 unless both are missing. *)
Definition sub_fill (b c : cell) : cell :=
  match b, c with
  | Num x, Num y => Num (x - y)
  | Num x, NaN => Num (x - 0)
  | NaN, Num y => Num (0 - y)
  | NaN, NaN => NaN
  end.

(** The result of [baseline[col].subtract(current[col], fill_value=0)] on the
    rows of [current], where it is stored: a row beyond the end of the
    baseline has no baseline value. *)
Fixpoint subtract_fill (baseline current : list cell) : list cell :=
  match current with
  | [] => []
  | c :: current' =>
      match baseline with
      | [] => sub_fill NaN c :: subtract_fill [] current'
      | b :: baseline' => sub_fill b c :: subtract_fill baseline' current'
      end
  end.

(** Lines 666-678 (and 681-693): the columns of the delta frame. *)
Definition delta_column (baseline : table) (col : string * list cell)
  : string * list cell :=
  match column baseline (fst col) with
  | Some b => (fst col, map deadband (subtract_fill b (snd col)))
  | None => col
  end.

Definition delta_table (current baseline : table) : table :=
  {| Measurement := Measurement current;
     columns := map (delta_column baseline) (columns current) |}.


End Csv.

(* ================================================================== *)
(** * heeds/database/Pch_TO_Database.py *)
(* ================================================================== *)

Module Db.
Import PyStr Py.

Inductive data_type := acceleration | displacement.

(** [parse_pch_file] keeps [current_data] and the dictionary entries as
    references to Python lists: [store] maps an address to the list it holds,
    and an entry of [acce] or [disp] is the address assigned to the key. *)
Record dstate := {
  store : gmap nat (list (Q * Q));
  next : nat;
  acce : gmap (Z * string) nat;
  disp : gmap (Z * string) nat;
  current_type : option data_type;
  current_node : option Z;
  current_dof : option string;
  current_data : nat
}.

Definition initial : dstate :=
  {| store := {[ 0%nat := [] ]}; next := 1; acce := ∅; disp := ∅;
     current_type := None; current_node := None; current_dof := None;
     current_data := 0 |}.

Definition deref (st : dstate) (a : nat) : list (Q * Q) := default [] (store st !! a).

(** [dof_mapping.get(dof_num, f'DOF{dof_num}')]. *)
Definition dof_name (dof_num : Z) : string :=
  if (dof_num =? 3)%Z then "T1"
  else if (dof_num =? 4)%Z then "T2"
  else if (dof_num =? 5)%Z then "T3"
  else if (dof_num =? 6)%Z then "R1"
  else if (dof_num =? 7)%Z then "R2"
  else if (dof_num =? 8)%Z then "R3"
  else "DOF" ++ str_of_int dof_num.

(** [if current_type and current_node and current_dof and current_data:
    data[current_type][(current_node, current_dof)] = current_data].  The
    test is by truth value: a node id 0, like an empty list, fails it. *)
Definition save_block (st : dstate) : dstate :=
  match current_type st, current_node st, current_dof st with
  | Some ty, Some node, Some dof =>
      if negb (node =? 0)%Z && negb (String.eqb dof "")
         && negb (length (deref st (current_data st)) =? 0)%nat
      then
        {| store := store st; next := next st;
           acce := match ty with
                   | acceleration => <[(node, dof) := current_data st]> (acce st)
                   | displacement => acce st
                   end;
           disp := match ty with
                   | acceleration => disp st
                   | displacement => <[(node, dof) := current_data st]> (disp st)
                   end;
           current_type := current_type st; current_node := current_node st;
           current_dof := current_dof st; current_data := current_data st |}
      else st
  | _, _, _ => st
  end.

(** Lines 71-77 and 86-92: the header of a block.  [None]: [int] raised. *)
Definition open_block (ty : data_type) (st : dstate) (line : string) : option dstate :=
  let parts := split line in
  if (5 <=? length parts)%nat then
    match py_int (nth 2 parts ""), py_int (nth 3 parts "") with
    | Some node, Some dof_num =>
        Some {| store := <[next st := []]> (store st); next := S (next st);
                acce := acce st; disp := disp st;
                current_type := Some ty; current_node := Some node;
                current_dof := Some (dof_name dof_num);
                current_data := next st |}
    | _, _ => None
    end
  else Some st.

(** Lines 99-102. *)
Definition close_block (st : dstate) : dstate :=
  {| store := <[next st := []]> (store st); next := S (next st);
     acce := acce st; disp := disp st;
     current_type := None; current_node := None; current_dof := None;
     current_data := next st |}.

(** Lines 106-113: [current_data.append((frequency, psd_value))]. *)
Definition data_line (st : dstate) (line : string) : dstate :=
  let parts := split line in
  if (3 <=? length parts)%nat then
    match py_float (nth 1 parts ""), py_float (nth 2 parts "") with
    | Some frequency, Some psd_value =>
        {| store := <[current_data st :=
                        (deref st (current_data st) ++ [(frequency, psd_value)])%list]>
                      (store st);
           next := next st; acce := acce st; disp := disp st;
           current_type := current_type st; current_node := current_node st;
           current_dof := current_dof st; current_data := current_data st |}
    | _, _ => st
    end
  else st.

(** One turn of the [for] loop (lines 62-113). *)
Definition parse_line (st : dstate) (line : string) : option dstate :=
  if startswith line "$ACCE" then open_block acceleration (save_block st) line
  else if startswith line "$DISP" then open_block displacement (save_block st) line
  else if startswith line "$" then Some (close_block (save_block st))
  else
    match current_type st with
    | Some _ => if nonblank line then Some (data_line st line) else Some st
    | None => Some st
    end.

Fixpoint parse_lines (st : dstate) (lines : list string) : option dstate :=
  match lines with
  | [] => Some st
  | line :: lines' =>
      match parse_line st line with
      | Some st' => parse_lines st' lines'
      | None => None
      end
  end.

(** The dictionary [data] that [parse_pch_file] returns, with the lists read
    through their addresses. *)
Record pch_data := {
  data_acceleration : gmap (Z * string) (list (Q * Q));
  data_displacement : gmap (Z * string) (list (Q * Q))
}.

Definition parse_pch_file (lines : list string) : option pch_data :=
  match parse_lines initial lines with
  | Some st =>
      let st' := save_block st in
      Some {| data_acceleration := deref st' <$> acce st';
              data_displacement := deref st' <$> disp st' |}
  | None => None
  end.

(** ** [nastran_float] *)

(** [re.sub(r'(\d)\.([+-])(\d)', r'\1.E\2\3', s)]. *)
Fixpoint sub_dot (l : list ascii) : list ascii :=
  match l with
  | [] => []
  | a :: tl =>
      match tl with
      | b :: c :: d :: rest =>
          if is_digit a && Ascii.eqb b "." && is_sign c && is_digit d
          then a :: b :: "E"%char :: c :: d :: sub_dot rest
          else a :: sub_dot tl
      | _ => a :: sub_dot tl
      end
  end.

(** A match of [(\d\.\d+)([+-])(\d)] at the head of [l]: the first group,
    the sign, the digit and the rest of the string. *)
Fixpoint span_digits (l : list ascii) : list ascii * list ascii :=
  match l with
  | c :: l' =>
      if is_digit c then let (ds, r) := span_digits l' in (c :: ds, r) else ([], l)
  | [] => ([], [])
  end.

Definition match_frac (l : list ascii)
  : option (list ascii * ascii * ascii * list ascii) :=
  match l with
  | a :: b :: l2 =>
      if is_digit a && Ascii.eqb b "." then
        match span_digits l2 with
        | (d0 :: ds, s :: d :: rest) =>
            if is_sign s && is_digit d
            then Some ((a :: b :: d0 :: ds)%list, s, d, rest) else None
        | _ => None
        end
      else None
  | _ => None
  end.

(** [re.sub(r'(\d\.\d+)([+-])(\d)', r'\1E\2\3', s)]; each turn consumes
    at least one character, so [fuel = len(s)] is enough. *)
Fixpoint sub_frac_fuel (fuel : nat) (l : list ascii) : list ascii :=
  match fuel with
  | O => l
  | S fuel' =>
      match match_frac l with
      | Some (grp, s, d, rest) => (grp ++ "E"%char :: s :: d :: sub_frac_fuel fuel' rest)%list
      | None =>
          match l with
          | [] => []
          | a :: tl => a :: sub_frac_fuel fuel' tl
          end
      end
  end.

Definition sub_frac (l : list ascii) : list ascii := sub_frac_fuel (length l) l.

(** [re.sub(r'(\d)([+-])(\d)', r'\1E\2\3', s)]. *)
Fixpoint sub_int (l : list ascii) : list ascii :=
  match l with
  | [] => []
  | a :: tl =>
      match tl with
      | c :: d :: rest =>
          if is_digit a && is_sign c && is_digit d
          then a :: "E"%char :: c :: d :: sub_int rest
          else a :: sub_int tl
      | _ => a :: sub_int tl
      end
  end.

(** The string handed to [float] by [nastran_float]. *)
Definition nastran_rewrite (s : string) : string :=
  string_of_list_ascii
    (sub_int (sub_frac (sub_dot (strip_chars (list_ascii_of_string s))))).

Definition nastran_float (s : string) : option Q := py_float (nastran_rewrite s).

(** ** [find_peaks] and [calculate_area] *)

(** Lines 187-190. *)
Definition local_maxima (freq_psd_list : list (Q * Q)) : list (Q * Q) :=
  let psd i := snd (nth i freq_psd_list (0%Q, 0%Q)) in
  flat_map (fun i =>
              if Qltb (psd (i - 1)%nat) (psd i) && Qltb (psd (i + 1)%nat) (psd i)
              then [nth i freq_psd_list (0%Q, 0%Q)] else [])
           (seq 1 (length freq_psd_list - 2)).

Definition find_peaks (freq_psd_list : list (Q * Q)) (n_peaks : nat) : list (Q * Q) :=
  match freq_psd_list with
  | [] => []
  | _ => firstn n_peaks (sort_by (fun a b => Qltb (snd b) (snd a))
                                 (local_maxima freq_psd_list))
  end.

Definition calculate_area (freq_psd_list : list (Q * Q)) : Q :=
  if (length freq_psd_list <? 2)%nat then 0%Q
  else trapz (map snd freq_psd_list) (map fst freq_psd_list).

End Db.

(* ================================================================== *)
(** * Scripts/compute_delta.py *)
(* ================================================================== *)

Module Delta.
Import Py.

(** [b - c] on floats: NaN on either side gives NaN. *)
Definition sub (b c : cell) : cell :=
  match b, c with
  | Num x, Num y => Num (x - y)
  | _, _ => NaN
  end.

(** [baseline[col] - current[col]] stored in a frame with the rows of the
    baseline: a row beyond the end of [current] has no current value. *)
Fixpoint subtract (baseline current : list cell) : list cell :=
  match baseline with
  | [] => []
  | b :: baseline' =>
      match current with
      | [] => sub b NaN :: subtract baseline' []
      | c :: current' => sub b c :: subtract baseline' current'
      end
  end.

(** [delta[col] = ...] on a copy of the baseline: the column is replaced
    where it stands. *)
Fixpoint assign (cols : list (string * list cell)) (name : string) (values : list cell)
  : list (string * list cell) :=
  match cols with
  | [] => [(name, values)]
  | c :: cols' =>
      if String.eqb (fst c) name then (name, values) :: cols'
      else c :: assign cols' name values
  end.

(** Lines 25-29; [None] is the [KeyError] of [baseline[col]]. *)
Fixpoint delta_loop (baseline : table) (current_cols : list (string * list cell))
  (delta : list (string * list cell)) : option (list (string * list cell)) :=
  match current_cols with
  | [] => Some delta
  | col :: rest =>
      match column baseline (fst col) with
      | Some b =>
          delta_loop baseline rest
                     (assign delta (fst col) (map deadband (subtract b (snd col))))
      | None => None
      end
  end.

Definition compute_delta (current baseline : table) : option table :=
  option_map (fun cols => {| Measurement := Measurement baseline; columns := cols |})
             (delta_loop baseline (columns current) (columns baseline)).

End Delta.

(* ================================================================== *)
(** * Notions used to state the properties *)
(* ================================================================== *)

Module Spec.
Import PyStr Py.

(** The claim's reading of the area: the trapezoidal rule on the series
    sorted into ascending order of frequency. *)
Definition sorted_trapezoid (series : list (Q * Q)) : Q :=
  let s := sort_by (fun a b => Qltb (fst a) (fst b)) series in
  trapz (map snd s) (map fst s).


End Spec.

Module Rows.
Import PyStr.

(** A data row of [process_data_blocks]: not a channel header, not blank, at
    least four tokens, token 2 a number [v]. *)
Definition csv_row (line : string) (v : Q) : Prop :=
  startswith line "$ACCE" = false /\ startswith line "$DISP" = false /\
  nonblank line = true /\
  (4 <=? length (split line))%nat = true /\
  py_float (nth 2 (split line) "") = Some v.

(** A data row of [parse_pch_file]: not a [$] line, not blank, at least three
    tokens, tokens 1 and 2 the numbers of the pair [p]. *)
Definition db_row (line : string) (p : Q * Q) : Prop :=
  startswith line "$ACCE" = false /\ startswith line "$DISP" = false /\
  startswith line "$" = false /\
  nonblank line = true /\
  (3 <=? length (split line))%nat = true /\
  py_float (nth 1 (split line) "") = Some (fst p) /\
  py_float (nth 2 (split line) "") = Some (snd p).

(** The series stored for a key by [parse_pch_file] in state [st]. *)
Definition db_entry (st : Db.dstate) (ty : Db.data_type) (key : Z * string)
  : option (list (Q * Q)) :=
  match ty with
  | Db.acceleration => Db.deref st <$> (Db.acce st !! key)
  | Db.displacement => Db.deref st <$> (Db.disp st !! key)
  end.

End Rows.

Module Lex.
Import PyStr.

(** A sign that directly follows a digit or a point: the place where one of
    the three patterns of [nastran_float] can match. *)
Fixpoint bare_sign (l : list ascii) : bool :=
  match l with
  | [] => false
  | a :: tl =>
      match tl with
      | [] => false
      | b :: _ => ((is_digit a || Ascii.eqb a ".") && is_sign b) || bare_sign tl
      end
  end.

(** The number of exponent markers in a token. *)
Fixpoint count_exp (l : list ascii) : nat :=
  match l with
  | [] => 0
  | c :: tl => (if is_exp c then 1 else 0) + count_exp tl
  end.


(** What a rewrite does to a token: nothing, or it found a sign after a digit
    or a point and added an exponent marker. *)
Definition rewrites (sub : list ascii -> list ascii) (l : list ascii) : Prop :=
  sub l = l \/ (bare_sign l = true /\ (count_exp l < count_exp (sub l))%nat).

End Lex.

(* ================================================================== *)
(** * Sample inputs *)
(* ================================================================== *)

Module Inputs.

Definition nl : string := String (ascii_of_nat 10) EmptyString.

(** One [$ACCE] block for node 222, DOF code 3, rows (1.0, 0.5), (2.0, 1.5),
    (3.0, 0.2); a data row is: index, frequency, value, line number. *)
Definition one_block : list string := [
  "$ACCE      0      222        3        0" ++ nl;
  "         1  1.0  0.5  2" ++ nl;
  "         2  2.0  1.5  3" ++ nl;
  "         3  3.0  0.2  4" ++ nl
].

(** One block whose rows are not in ascending order of frequency. *)
Definition unordered_block : list string := [
  "$ACCE      0      222        3        0" ++ nl;
  "         1  2.0  10.0  2" ++ nl;
  "         2  1.0  0.0  3" ++ nl;
  "         3  4.0  0.0  4" ++ nl
].

(** Two channels that report the frequencies 1, 2, 2, 3 and 2, 3, 4. *)
Definition two_channels : list string := [
  "$ACCE      0      222        3        0" ++ nl;
  "         1  1.0  0.5  2" ++ nl;
  "         2  2.0  1.5  3" ++ nl;
  "         3  2.0  1.0  4" ++ nl;
  "         4  3.0  0.2  5" ++ nl;
  nl;
  "$DISP      0      222        3        0" ++ nl;
  "         1  2.0  0.5  7" ++ nl;
  "         2  3.0  1.5  8" ++ nl;
  "         3  4.0  0.2  9" ++ nl
].

(** A block interrupted by a [$] line that is no channel header. *)
Definition dollar_line_inside : list string := [
  "$ACCE      0      222        3        0" ++ nl;
  "         1  1.0  0.5  2" ++ nl;
  "$SUBCASE ID =           1" ++ nl;
  "         2  2.0  1.5  3" ++ nl
].

(** The state of [process_data_blocks] inside the block of channel
    ACCE-222-T1, before any row. *)
Definition open_state : Csv.pstate :=
  {| Csv.data_dict := {[ "ACCE-222-T1" := [] ]}; Csv.node_ids := {[ "222" ]};
     Csv.acce_count := 1; Csv.disp_count := 0; Csv.total_frequencies := 0;
     Csv.total_psd_columns := 1; Csv.current_header := Some "ACCE-222-T1";
     Csv.current_node := Some "222"; Csv.current_dof := Some "T1" |}.

(** The state of [process_data_blocks] after a first block of channel
    ACCE-222-T1 with the values 0.5 and 1.5 was closed. *)
Definition seen_state : Csv.pstate :=
  {| Csv.data_dict := {[ "ACCE-222-T1" := [1 # 2; 3 # 2]%Q ]};
     Csv.node_ids := {[ "222" ]};
     Csv.acce_count := 1; Csv.disp_count := 0; Csv.total_frequencies := 0;
     Csv.total_psd_columns := 1; Csv.current_header := None;
     Csv.current_node := None; Csv.current_dof := None |}.

(** A block interrupted by a blank line. *)
Definition blank_line_inside : list string := [
  "$ACCE      0      222        3        0" ++ nl;
  "         1  1.0  0.5  2" ++ nl;
  nl;
  "         2  2.0  1.5  3" ++ nl
].

(** Two blocks for the same channel. *)
Definition repeated_channel : list string := [
  "$ACCE      0      222        3        0" ++ nl;
  "         1  1.0  0.5  2" ++ nl;
  "         2  2.0  1.5  3" ++ nl;
  "$ACCE      0      222        3        0" ++ nl;
  "         3  3.0  0.2  4" ++ nl
].

(** Two frames with the same rows: the areas differ by 5e-7, and the first
    peak frequency is missing in the current frame only. *)
Definition current_frame : Py.table :=
  {| Py.Measurement := ["ACCE_T1_Area"; "ACCE_T1_Frequency_1"];
     Py.columns := [("Node_222", [Py.Num (185 # 100); Py.NaN])] |}.

Definition baseline_frame : Py.table :=
  {| Py.Measurement := ["ACCE_T1_Area"; "ACCE_T1_Frequency_1"];
     Py.columns := [("Node_222", [Py.Num (18500005 # 10000000); Py.Num 2])] |}.

(** A data frame with the channel ACCE-222-T1 only. *)
Definition one_channel_frame : gmap string (list Q) :=
  {[ "ACCE-222-T1" := [1 # 2; 3 # 2; 1 # 5]%Q; "Frequency" := [1; 2; 3]%Q ]}.

End Inputs.

(* ================================================================== *)
(** * Scripts/verify_delta_zero.py *)
(* ================================================================== *)

Module Verify.
Import Py.

(** [Series.abs()]. *)
Definition abs_cell (c : cell) : cell :=
  match c with
  | Num q => Num (Qabs q)
  | NaN => NaN
  end.

(** [Series.max()]: NaN entries are skipped; the result is NaN when no
    number is left. *)
Definition max_cell (a b : cell) : cell :=
  match a, b with
  | NaN, _ => b
  | _, NaN => a
  | Num x, Num y => if Qltb x y then Num y else Num x
  end.

Definition series_max (values : list cell) : cell := fold_left max_cell values NaN.

(** [max_delta > tolerance] for one column; the comparison is false on NaN. *)
Definition column_fails (tolerance : Q) (values : list cell) : bool :=
  match series_max (map abs_cell values) with
  | Num max_delta => Qltb tolerance max_delta
  | NaN => false
  end.

(** [verify_zero] on the frame read from the delta file: [true] when the
    script exits with status 0, [false] when [failed] was set. *)
Definition verify_zero (delta : table) (tolerance : Q) : bool :=
  negb (existsb (fun col => column_fails tolerance (snd col)) (columns delta)).

End Verify.

(* ================================================================== *)
(** * Pch_TO_Database.py: the row of [insert_peaks] *)
(* ================================================================== *)

Module DbPeaks.
Import Py.

(** Lines 307-309: [while len(peaks) < 3: peaks.append((None, None))]. *)
Definition pad (peaks : list (Q * Q)) : list (option Q * option Q) :=
  (map (fun p => (Some (fst p), Some (snd p))) peaks
   ++ repeat (None, None) (3 - length peaks))%list.

(** The values [insert_peaks] hands to the INSERT statement for one channel:
    the area and [peaks[0]], [peaks[1]], [peaks[2]]. *)
Definition peaks_row (freq_psd_list : list (Q * Q)) : Q * list (option Q * option Q) :=
  (Db.calculate_area freq_psd_list,
   firstn 3 (pad (Db.find_peaks freq_psd_list 3))).

End DbPeaks.

(* ================================================================== *)
(** * heeds/database/batch_import_to_database.py *)
(* ================================================================== *)

Module Batch.
Import PyStr Py.

(** [np.argmax(values)]: the first index of the largest value. *)
Fixpoint argmax_from (best_i : nat) (best : Q) (i : nat) (values : list Q) : nat :=
  match values with
  | [] => best_i
  | v :: values' =>
      if Qltb best v then argmax_from i v (S i) values'
      else argmax_from best_i best (S i) values'
  end.

Definition argmax (values : list Q) : nat :=
  match values with
  | [] => 0%nat
  | v :: values' => argmax_from 0 v 1 values'
  end.

(** [find_peaks(freq_psd_list, n_peaks)]: a slot is a (frequency, value) pair
    or [(None, None)]. *)
Definition find_peaks (freq_psd_list : list (Q * Q)) (n_peaks : nat)
  : list (option Q * option Q) :=
  if (length freq_psd_list <? 3)%nat then repeat (None, None) n_peaks
  else
    let local := Db.local_maxima freq_psd_list in
    let peaks :=
      match local with
      | [] => [nth (argmax (map snd freq_psd_list)) freq_psd_list (0%Q, 0%Q)]
      | _ => local
      end in
    let top := firstn n_peaks (sort_by (fun a b => Qltb (snd b) (snd a)) peaks) in
    (map (fun p => (Some (fst p), Some (snd p))) top
     ++ repeat (None, None) (n_peaks - length top))%list.

(** [parts[-k]]. *)
Definition nth_last (k : nat) (parts : list string) : string :=
  nth (length parts - k) parts "".

(** One turn of the loop of [parse_bush_file] (lines 62-76): the stiffnesses
    K4, K5, K6 of a PBUSH card, stored under its element id.  Any exception
    inside the [try] leaves the dictionary as it is. *)
Definition bush_line (parameters : gmap Z (Q * Q * Q)) (line : string)
  : gmap Z (Q * Q * Q) :=
  if startswith line "$" then parameters
  else if startswith line "PBUSH" then
    let parts := split line in
    if (5 <=? length parts)%nat then
      match py_int (nth 1 parts ""),
            Db.nastran_float (nth_last 3 parts),
            Db.nastran_float (nth_last 2 parts),
            Db.nastran_float (nth_last 1 parts) with
      | Some elem_id, Some k4, Some k5, Some k6 =>
          <[elem_id := (k4, k5, k6)]> parameters
      | _, _, _, _ => parameters
      end
    else parameters
  else parameters.

(** [parse_bush_file] on the lines of an existing file. *)
Definition parse_bush_file (lines : list string) : gmap Z (Q * Q * Q) :=
  fold_left bush_line lines ∅.

End Batch.

(* ================================================================== *)
(** * Notions used to state further properties *)
(* ================================================================== *)

Module Props.
Import PyStr Py.

(** A channel header on which [int(parts[3])] raises. *)
Definition bad_header (line : string) : bool :=
  (startswith line "$ACCE" || startswith line "$DISP")
  && (5 <=? length (split line))%nat
  && match py_int (nth 3 (split line) "") with Some _ => false | None => true end.

(** A channel header with fewer than five tokens. *)
Definition short_header (line : string) : Prop :=
  (startswith line "$ACCE" = true \/ startswith line "$DISP" = true) /\
  (5 <=? length (split line))%nat = false.

(** A channel header on which [parse_pch_file] raises: one of the two
    [int] conversions fails. *)
Definition bad_db_header (line : string) : bool :=
  (startswith line "$ACCE" || startswith line "$DISP")
  && (5 <=? length (split line))%nat
  && match py_int (nth 2 (split line) ""), py_int (nth 3 (split line) "") with
     | Some _, Some _ => false
     | _, _ => true
     end.

(** A well-formed PBUSH card of [parse_bush_file]. *)
Definition bush_card (line : string) (elem_id : Z) (k : Q * Q * Q) : Prop :=
  startswith line "$" = false /\ startswith line "PBUSH" = true /\
  (5 <=? length (split line))%nat = true /\
  py_int (nth 1 (split line) "") = Some elem_id /\
  Db.nastran_float (Batch.nth_last 3 (split line)) = Some (fst (fst k)) /\
  Db.nastran_float (Batch.nth_last 2 (split line)) = Some (snd (fst k)) /\
  Db.nastran_float (Batch.nth_last 1 (split line)) = Some (snd k).

(** Index [i] is a strict interior local maximum of the values. *)
Definition strict_peak (series : list (Q * Q)) (i : nat) : Prop :=
  (1 <= i)%nat /\ (i + 1 < length series)%nat /\
  (snd (nth (i - 1) series (0, 0)) < snd (nth i series (0, 0)))%Q /\
  (snd (nth (i + 1) series (0, 0)) < snd (nth i series (0, 0)))%Q.

End Props.

(* ================================================================== *)
(** * Invariants and auxiliary notions of the proofs *)
(* ================================================================== *)

Module Inv.
Import PyStr Py.

(** A cell that is a number above the tolerance. *)
Definition exceeds (tolerance : Q) (c : cell) : bool :=
  match c with
  | Num q => Qltb tolerance q
  | NaN => false
  end.

(** The open header of [process_data_blocks] is a key of the dictionary. *)
Definition header_known (st : Csv.pstate) : Prop :=
  forall h, Csv.current_header st = Some h -> Csv.data_dict st !! h <> None.

(** The number of lines that start with [p]. *)
Definition count_lines (p : string) (lines : list string) : nat :=
  length (List.filter (fun line => startswith line p) lines).

(** What the scan of [extract_frequency] changes: the list under
    ['Frequency'], which it extends, and the counter, which it keeps in step
    with the list. *)
Definition scan_grows (st st' : Csv.pstate) : Prop :=
  (forall key, key <> "Frequency" -> Csv.data_dict st' !! key = Csv.data_dict st !! key) /\
  (Csv.data_dict st !! "Frequency" <> None -> Csv.data_dict st' !! "Frequency" <> None) /\
  Csv.node_ids st' = Csv.node_ids st /\
  (Csv.total_frequencies st' + length (Csv.Frequency (Csv.data_dict st))
   = Csv.total_frequencies st + length (Csv.Frequency (Csv.data_dict st')))%nat.

(** The indices behind the candidate points of
    [find_top_three_local_maxima]: the marked positions, then as many of the
    other positions as are needed to reach three. *)
Definition candidate_indices (psd_values : list Q) : list nat :=
  let mask := Csv.maxima_mask psd_values in
  let non_maxima_indices := Csv.np_where (map negb mask) in
  let sorted_indices :=
    map (fun k => nth k non_maxima_indices 0%nat)
        (argsort (map (fun i => nth i psd_values 0%Q) non_maxima_indices)) in
  (Csv.np_where mask
   ++ firstn (3 - length (Csv.np_where mask)) (rev sorted_indices))%list.

(** The addresses of the store of [parse_pch_file] are allocated below
    [next]; the lists that a dictionary refers to hold at least one row, and
    their keys passed the truth test of [save_block]. *)
Definition stored (st : Db.dstate) (m : gmap (Z * string) nat) : Prop :=
  forall key a, m !! key = Some a ->
                (a < Db.next st)%nat /\ Db.deref st a <> [] /\
                fst key <> 0%Z /\ snd key <> "".

Definition db_inv (st : Db.dstate) : Prop :=
  (Db.current_data st < Db.next st)%nat /\
  stored st (Db.acce st) /\ stored st (Db.disp st).

(** The trapezoidal rule on a list of (frequency, value) pairs. *)
Definition pairs_area (l : list (Q * Q)) : Q := trapz (map snd l) (map fst l).

End Inv.

(* ================================================================== *)
(** * Properties *)
(* ================================================================== *)

Import PyStr Py Lex.

(* ================================================================== *)
(** * Comparison and sorting lemmas *)
(* ================================================================== *)

Lemma Qltb_lt (x y : Q) : Qltb x y = true <-> (x < y)%Q.
Proof.
  unfold Qltb. rewrite negb_true_iff. split; intros H.
  - apply Qnot_le_lt. intros Hle. apply Qle_bool_iff in Hle. congruence.
  - destruct (Qle_bool y x) eqn:E; [|reflexivity].
    apply Qle_bool_iff in E. exfalso. exact (Qlt_not_le _ _ H E).
Qed.

Lemma Qltb_ge (x y : Q) : Qltb x y = false <-> (y <= x)%Q.
Proof.
  unfold Qltb. rewrite negb_false_iff. apply Qle_bool_iff.
Qed.

Lemma Qltb_irrefl (x : Q) : Qltb x x = false.
Proof. apply Qltb_ge. apply Qle_refl. Qed.

(* ================================================================== *)
(** * Tables and their differences *)
(* ================================================================== *)


Lemma delta_column_fst (baseline : table) (col : string * list cell) :
  fst (Csv.delta_column baseline col) = fst col.
Proof.
  unfold Csv.delta_column. destruct (column baseline (fst col)); reflexivity.
Qed.




(** ** [compute_delta] *)

Lemma find_assign (cols : list (string * list cell)) (name name' : string)
  (values : list cell) :
  option_map snd (find (fun c => String.eqb (fst c) name') (Delta.assign cols name values))
  = if String.eqb name name' then Some values
    else option_map snd (find (fun c => String.eqb (fst c) name') cols).
Proof.
  induction cols as [|c cols IH]; simpl.
  - destruct (String.eqb name name'); reflexivity.
  - destruct (String.eqb (fst c) name) eqn:E; simpl.
    + apply String.eqb_eq in E. rewrite E.
      destruct (String.eqb name name'); reflexivity.
    + destruct (String.eqb (fst c) name') eqn:E'; simpl.
      * apply String.eqb_eq in E'. subst name'. rewrite String.eqb_sym, E. reflexivity.
      * exact IH.
Qed.





(** ** The dead band on a difference of two numbers *)

Lemma deadband_small (d : Q) :
  (Qabs d < 1 # 1000000)%Q -> deadband (Num d) = Num 0.
Proof.
  intros H. simpl. apply Qltb_lt in H. rewrite H. reflexivity.
Qed.


Lemma deadband_self (x : Q) : deadband (Num (x - x)) = Num 0.
Proof.
  apply deadband_small.
  assert (E : (x - x == 0)%Q) by ring.
  rewrite E. reflexivity.
Qed.



(* ================================================================== *)
(** * Sorting *)
(* ================================================================== *)

Lemma insert_by_perm {A : Type} (lt : A -> A -> bool) (x : A) (l : list A) :
  Permutation (insert_by lt x l) (x :: l).
Proof.
  induction l as [|y l IH]; simpl; [reflexivity|].
  destruct (lt y x); [|reflexivity].
  rewrite IH. apply perm_swap.
Qed.

Lemma sort_by_perm {A : Type} (lt : A -> A -> bool) (l : list A) :
  Permutation (sort_by lt l) l.
Proof.
  induction l as [|x l IH]; simpl; [reflexivity|].
  rewrite insert_by_perm. constructor. exact IH.
Qed.

Lemma sort_by_length {A : Type} (lt : A -> A -> bool) (l : list A) :
  length (sort_by lt l) = length l.
Proof. apply Permutation_length, sort_by_perm. Qed.

(** A list that is already in order is left as it is. *)
Lemma sort_by_sorted {A : Type} (lt : A -> A -> bool) (l : list A) :
  Sorted (fun a b => lt b a = false) l -> sort_by lt l = l.
Proof.
  induction 1 as [|x l Hs IH Hhd]; [reflexivity|].
  simpl. fold (sort_by lt l). rewrite IH.
  destruct Hhd as [|y l' Hxy]; [reflexivity|].
  simpl. rewrite Hxy. reflexivity.
Qed.



(** C5, counterexample.  For the series (2, 1), (1, 3) [calculate_area]
    returns -2, not the area 2 of the series sorted by frequency; for a block
    with the rows (2, 10), (1, 0), (4, 0) the area cell written by
    [create_combined_data] is 5, not the area 15 of the sorted series. *)
Lemma c5_area_ignores_frequency_order :
  ~ (Db.calculate_area [(2, 1); (1, 3)]%Q == Spec.sorted_trapezoid [(2, 1); (1, 3)]%Q)%Q /\
  exists acce disp area,
    Csv.create_combined_data Inputs.unordered_block = Some (acce, disp) /\
    cell_at acce "ACCE_T1_Area" "Node_222" = Some (Num area) /\
    ~ (area == Spec.sorted_trapezoid [(2, 10); (1, 0); (4, 0)]%Q)%Q.
Proof.
  split; [vm_compute; discriminate|].
  eexists _, _, _. split; [vm_compute; reflexivity|].
  split; [vm_compute; reflexivity|].
  vm_compute. discriminate.
Qed.

Lemma calculate_area_trapz (series : list (Q * Q)) :
  Db.calculate_area series = trapz (map snd series) (map fst series).
Proof.
  unfold Db.calculate_area.
  destruct series as [|a [|b series]]; reflexivity.
Qed.

Lemma ascending_sort_by (series : list (Q * Q)) :
  Sorted (fun a b => (fst a <= fst b)%Q) series ->
  sort_by (fun a b => Qltb (fst a) (fst b)) series = series.
Proof.
  intros H. apply sort_by_sorted.
  induction H as [|x l Hs IH Hhd]; constructor; [exact IH|].
  destruct Hhd as [|y l' Hxy]; constructor. apply Qltb_ge. exact Hxy.
Qed.

(** C5, as amended.  For a series whose samples are in ascending order of
    frequency, the area of [calculate_area] is the trapezoidal rule on the
    series sorted by frequency, and so is the area entry of
    [create_combined_data] for a channel whose values are those of the series
    and whose frequencies are the frequency axis.  Neither function reorders
    the samples. *)
Theorem c5_area_of_ascending_series :
  forall series : list (Q * Q),
    Sorted (fun a b => (fst a <= fst b)%Q) series ->
    (Db.calculate_area series == Spec.sorted_trapezoid series)%Q /\
    (forall (df : gmap string (list Q)) (dof key : string) (absent : cell),
        df !! key = Some (map snd series) ->
        Csv.Frequency df = map fst series ->
        exists area,
          hd_error (Csv.channel_entries df dof key absent) = Some (dof ++ "_Area", Num area) /\
          (area == Spec.sorted_trapezoid series)%Q).
Proof.
  intros series Hs.
  assert (E : Spec.sorted_trapezoid series = trapz (map snd series) (map fst series)).
  { unfold Spec.sorted_trapezoid. rewrite (ascending_sort_by _ Hs). reflexivity. }
  split.
  - rewrite calculate_area_trapz, E. reflexivity.
  - intros df dof key absent Hkey Hf.
    unfold Csv.channel_entries. rewrite Hkey, Hf.
    eexists. split; [reflexivity|]. rewrite E. reflexivity.
Qed.

(** C5, witness: the triangle (0, 0), (1, 2), (2, 0). *)
Lemma c5_witness :
  (Db.calculate_area [(0, 0); (1, 2); (2, 0)]%Q
   == Spec.sorted_trapezoid [(0, 0); (1, 2); (2, 0)]%Q)%Q.
Proof.
  apply (c5_area_of_ascending_series [(0, 0); (1, 2); (2, 0)]%Q).
  repeat constructor; discriminate.
Defined.

(* ================================================================== *)
(** * The frequency axis *)
(* ================================================================== *)


Lemma Frequency_set_frequencies (fs : list Q) (st : Csv.pstate) :
  Csv.Frequency (Csv.data_dict (Csv.set_frequencies fs st)) = fs.
Proof.
  unfold Csv.Frequency, Csv.set_frequencies. simpl.
  rewrite lookup_insert_eq. reflexivity.
Qed.



Lemma frequency_axis_sorted_scan (st1 : Csv.pstate) (lines : list string) :
  Csv.frequency_axis st1 lines
  = sort_by Qltb (Csv.Frequency (Csv.data_dict (Csv.extract_frequency st1 lines))).
Proof.
  unfold Csv.frequency_axis, Csv.sort_frequencies, Csv.Frequency.
  destruct (Csv.data_dict (Csv.extract_frequency st1 lines) !! "Frequency") as [fs|] eqn:E.
  - rewrite lookup_insert_eq. reflexivity.
  - rewrite E. reflexivity.
Qed.





(** The block parser never stores a series under the key ['Frequency']. *)
Lemma open_block_no_frequency (kind : string) (st st' : Csv.pstate) (line : string) :
  kind = "ACCE" \/ kind = "DISP" ->
  Csv.open_block kind st line = Some st' ->
  Csv.data_dict st !! "Frequency" = None ->
  Csv.data_dict st' !! "Frequency" = None.
Proof.
  intros Hk. unfold Csv.open_block.
  destruct (5 <=? length (PyStr.split line))%nat.
  2:{ intros H. injection H as <-. simpl. auto. }
  destruct (PyStr.py_int _) as [t|]; [|discriminate].
  intros H Hf. injection H as <-. simpl.
  match goal with
  | |- context [match ?d !! ?k with Some _ => false | None => true end] =>
      destruct (d !! k)
  end; [exact Hf|].
  rewrite lookup_insert_ne; [exact Hf|].
  destruct Hk as [-> | ->]; discriminate.
Qed.

Lemma process_line_no_frequency (st st' : Csv.pstate) (line : string) :
  Csv.process_line st line = Some st' ->
  Csv.data_dict st !! "Frequency" = None ->
  Csv.data_dict st' !! "Frequency" = None.
Proof.
  unfold Csv.process_line.
  destruct (PyStr.startswith line "$ACCE").
  { apply open_block_no_frequency. left. reflexivity. }
  destruct (PyStr.startswith line "$DISP").
  { apply open_block_no_frequency. right. reflexivity. }
  destruct (PyStr.nonblank line).
  2:{ intros H. injection H as <-. simpl. auto. }
  destruct (Csv.current_header st) as [h|].
  2:{ intros H. injection H as <-. auto. }
  unfold Csv.data_row.
  destruct (4 <=? length (PyStr.split line))%nat.
  2:{ intros H. injection H as <-. auto. }
  destruct (PyStr.py_float _) as [v|].
  2:{ intros H. injection H as <-. auto. }
  destruct (Csv.data_dict st !! h) as [series|] eqn:E; [|discriminate].
  intros H Hf. injection H as <-. simpl.
  rewrite lookup_insert_ne; [exact Hf|]. intros ->. congruence.
Qed.

Lemma process_data_blocks_no_frequency (lines : list string) :
  forall st st' : Csv.pstate,
    Csv.process_data_blocks st lines = Some st' ->
    Csv.data_dict st !! "Frequency" = None ->
    Csv.data_dict st' !! "Frequency" = None.
Proof.
  induction lines as [|line lines IH]; intros st st' H Hf; simpl in H.
  - injection H as <-. exact Hf.
  - destruct (Csv.process_line st line) as [st1|] eqn:E; [|discriminate].
    eapply IH; [exact H|]. eapply process_line_no_frequency; eassumption.
Qed.



(* ================================================================== *)
(** * The block parsers *)
(* ================================================================== *)

Lemma startswith_dollar (line : string) :
  PyStr.startswith line "$" = true -> exists rest, line = String "$" rest.
Proof.
  unfold PyStr.startswith. destruct line as [|a rest]; [discriminate|].
  cbn [String.prefix].
  destruct (ascii_dec "$"%char a) as [E|]; [|discriminate].
  intros _. exists rest. rewrite E. reflexivity.
Qed.

Lemma lstrip_snoc_nonspace (m : list ascii) (c : ascii) :
  PyStr.isspace c = false -> PyStr.lstrip (m ++ [c]) <> [].
Proof.
  intros Hc. induction m as [|a m IH]; simpl.
  - rewrite Hc. discriminate.
  - destruct (PyStr.isspace a); [exact IH|discriminate].
Qed.

(** A line that starts with [$] is not blank. *)
Lemma dollar_line_nonblank (line : string) :
  PyStr.startswith line "$" = true -> PyStr.nonblank line = true.
Proof.
  intros H. destruct (startswith_dollar _ H) as [rest ->].
  unfold PyStr.nonblank, PyStr.strip, PyStr.strip_chars.
  change (list_ascii_of_string (String "$" rest))
    with ("$"%char :: list_ascii_of_string rest).
  change (PyStr.lstrip ("$"%char :: list_ascii_of_string rest))
    with ("$"%char :: list_ascii_of_string rest).
  cbn [rev].
  destruct (PyStr.lstrip (rev (list_ascii_of_string rest) ++ ["$"%char])) as [|a l] eqn:E.
  - exfalso. revert E. apply lstrip_snoc_nonspace. reflexivity.
  - destruct (rev (a :: l)) as [|b l'] eqn:E'.
    + apply (f_equal (@length ascii)) in E'. rewrite length_rev in E'. discriminate.
    + reflexivity.
Qed.

(** ** [process_data_blocks] *)

Lemma process_line_not_header (st : Csv.pstate) (line : string) :
  PyStr.startswith line "$ACCE" = false ->
  PyStr.startswith line "$DISP" = false ->
  Csv.process_line st line
  = if PyStr.nonblank line
    then match Csv.current_header st with
         | Some header => Csv.data_row st header line
         | None => Some st
         end
    else Some (Csv.close_block st).
Proof.
  intros Ha Hd. unfold Csv.process_line. rewrite Ha, Hd. reflexivity.
Qed.

Lemma data_row_header (st st' : Csv.pstate) (header line : string) :
  Csv.data_row st header line = Some st' ->
  Csv.current_header st' = Csv.current_header st.
Proof.
  unfold Csv.data_row.
  destruct (4 <=? length (PyStr.split line))%nat; [|intros H; injection H as <-; reflexivity].
  destruct (PyStr.py_float _); [|intros H; injection H as <-; reflexivity].
  destruct (Csv.data_dict st !! header); [|discriminate].
  intros H. injection H as <-. reflexivity.
Qed.

(** After a line that is no channel header, an open block is closed if and
    only if the line is blank. *)
Lemma csv_block_closes_on_blank_only (st st' : Csv.pstate) (line header : string) :
  Csv.current_header st = Some header ->
  PyStr.startswith line "$ACCE" = false ->
  PyStr.startswith line "$DISP" = false ->
  Csv.process_line st line = Some st' ->
  Csv.current_header st' = if PyStr.nonblank line then Some header else None.
Proof.
  intros Hh Ha Hd. rewrite (process_line_not_header _ _ Ha Hd), Hh.
  destruct (PyStr.nonblank line).
  - intros H. rewrite (data_row_header _ _ _ _ H). exact Hh.
  - intros H. injection H as <-. reflexivity.
Qed.

Lemma csv_row_appends (st : Csv.pstate) (line header : string) (v : Q) (series : list Q) :
  Csv.current_header st = Some header ->
  Csv.data_dict st !! header = Some series ->
  Rows.csv_row line v ->
  exists st',
    Csv.process_line st line = Some st' /\
    Csv.current_header st' = Some header /\
    Csv.data_dict st' !! header = Some (series ++ [v])%list.
Proof.
  intros Hh Hs (Ha & Hd & Hnb & Hlen & Hv).
  rewrite (process_line_not_header _ _ Ha Hd), Hnb, Hh.
  unfold Csv.data_row, Csv.nth_str. rewrite Hlen, Hv, Hs.
  eexists. split; [reflexivity|]. simpl. split; [exact Hh|].
  apply lookup_insert_eq.
Qed.

Lemma csv_rows_append (rows : list string) :
  forall (vs : list Q) (st : Csv.pstate) (header : string) (series : list Q),
    Csv.current_header st = Some header ->
    Csv.data_dict st !! header = Some series ->
    Forall2 Rows.csv_row rows vs ->
    exists st',
      Csv.process_data_blocks st rows = Some st' /\
      Csv.current_header st' = Some header /\
      Csv.data_dict st' !! header = Some (series ++ vs)%list.
Proof.
  induction rows as [|row rows IH]; intros vs st header series Hh Hs Hrows.
  - inversion Hrows; subst. exists st. rewrite app_nil_r. auto.
  - inversion Hrows as [|? v ? vs' Hrow Hrest]; subst.
    destruct (csv_row_appends _ _ _ _ _ Hh Hs Hrow) as (st1 & E1 & Hh1 & Hs1).
    destruct (IH _ _ _ _ Hh1 Hs1 Hrest) as (st2 & E2 & Hh2 & Hs2).
    exists st2. simpl. rewrite E1. split; [exact E2|]. split; [exact Hh2|].
    rewrite Hs2, <- app_assoc. reflexivity.
Qed.

Lemma process_data_blocks_app (l1 l2 : list string) (st : Csv.pstate) :
  Csv.process_data_blocks st (l1 ++ l2)
  = match Csv.process_data_blocks st l1 with
    | Some st1 => Csv.process_data_blocks st1 l2
    | None => None
    end.
Proof.
  revert st. induction l1 as [|l l1 IH]; intros st; simpl; [reflexivity|].
  destruct (Csv.process_line st l); [apply IH|reflexivity].
Qed.

(** A header whose key is in the dictionary leaves the stored series alone. *)
Lemma open_block_keeps_series (kind : string) (st st' : Csv.pstate) (line header : string)
  (series : list Q) :
  Csv.open_block kind st line = Some st' ->
  Csv.current_header st' = Some header ->
  Csv.data_dict st !! header = Some series ->
  Csv.data_dict st' !! header = Some series.
Proof.
  unfold Csv.open_block.
  destruct (5 <=? length (PyStr.split line))%nat.
  2:{ intros H. injection H as <-. simpl. auto. }
  destruct (PyStr.py_int _) as [t|]; [|discriminate].
  intros H. injection H as <-. simpl. intros Hh Hs. injection Hh as <-.
  rewrite Hs. exact Hs.
Qed.

(** ** [parse_pch_file] *)

Lemma not_dollar_not_header (line : string) :
  PyStr.startswith line "$" = false ->
  PyStr.startswith line "$ACCE" = false /\ PyStr.startswith line "$DISP" = false.
Proof.
  unfold PyStr.startswith. destruct line as [|a rest]; [auto|].
  cbn [String.prefix]. destruct (ascii_dec "$"%char a); [|auto].
  destruct rest; discriminate.
Qed.

Lemma db_dollar_line (st : Db.dstate) (line : string) :
  PyStr.startswith line "$ACCE" = false ->
  PyStr.startswith line "$DISP" = false ->
  PyStr.startswith line "$" = true ->
  Db.parse_line st line = Some (Db.close_block (Db.save_block st)).
Proof.
  intros Ha Hd H. unfold Db.parse_line. rewrite Ha, Hd, H. reflexivity.
Qed.

Lemma db_plain_line (st : Db.dstate) (line : string) :
  PyStr.startswith line "$" = false ->
  Db.parse_line st line
  = Some (match Db.current_type st with
          | Some _ => if PyStr.nonblank line then Db.data_line st line else st
          | None => st
          end).
Proof.
  intros H. destruct (not_dollar_not_header _ H) as [Ha Hd].
  unfold Db.parse_line. rewrite Ha, Hd, H.
  destruct (Db.current_type st); [destruct (PyStr.nonblank line)|]; reflexivity.
Qed.

Lemma data_line_current (st : Db.dstate) (line : string) :
  Db.current_type (Db.data_line st line) = Db.current_type st /\
  Db.current_node (Db.data_line st line) = Db.current_node st /\
  Db.current_dof (Db.data_line st line) = Db.current_dof st /\
  Db.current_data (Db.data_line st line) = Db.current_data st.
Proof.
  unfold Db.data_line.
  destruct (3 <=? length (PyStr.split line))%nat; [|auto].
  destruct (PyStr.py_float _); [|auto].
  destruct (PyStr.py_float _); auto.
Qed.

Lemma db_row_appends (st : Db.dstate) (line : string) (p : Q * Q) (ty : Db.data_type) :
  Db.current_type st = Some ty ->
  Rows.db_row line p ->
  exists st',
    Db.parse_line st line = Some st' /\
    Db.current_type st' = Db.current_type st /\
    Db.current_node st' = Db.current_node st /\
    Db.current_dof st' = Db.current_dof st /\
    Db.current_data st' = Db.current_data st /\
    Db.deref st' (Db.current_data st')
    = (Db.deref st (Db.current_data st) ++ [p])%list.
Proof.
  intros Hty (_ & _ & Hdollar & Hnb & Hlen & Hf & Hv).
  rewrite (db_plain_line _ _ Hdollar), Hty, Hnb.
  eexists. split; [reflexivity|].
  unfold Db.data_line. rewrite Hlen, Hf, Hv. simpl.
  repeat split; try reflexivity; try exact Hty.
  unfold Db.deref. simpl. rewrite lookup_insert_eq. simpl.
  destruct p; reflexivity.
Qed.

Lemma db_rows_append (rows : list string) :
  forall (pairs : list (Q * Q)) (st : Db.dstate) (ty : Db.data_type),
    Db.current_type st = Some ty ->
    Forall2 Rows.db_row rows pairs ->
    exists st',
      Db.parse_lines st rows = Some st' /\
      Db.current_type st' = Db.current_type st /\
      Db.current_node st' = Db.current_node st /\
      Db.current_dof st' = Db.current_dof st /\
      Db.current_data st' = Db.current_data st /\
      Db.deref st' (Db.current_data st')
      = (Db.deref st (Db.current_data st) ++ pairs)%list.
Proof.
  induction rows as [|row rows IH]; intros pairs st ty Hty Hrows.
  - inversion Hrows; subst. exists st. rewrite app_nil_r. repeat split; reflexivity.
  - inversion Hrows as [|? p ? pairs' Hrow Hrest]; subst.
    destruct (db_row_appends _ _ _ _ Hty Hrow) as (st1 & E1 & T1 & N1 & D1 & C1 & L1).
    assert (Hty1 : Db.current_type st1 = Some ty) by congruence.
    destruct (IH _ _ _ Hty1 Hrest) as (st2 & E2 & T2 & N2 & D2 & C2 & L2).
    exists st2. simpl. rewrite E1. split; [exact E2|].
    repeat split; try congruence.
    rewrite L2, L1, <- app_assoc. reflexivity.
Qed.

(** [save_block] on a block with a node id other than 0 and with at least one
    row stores the current list under the key of the block. *)
Lemma save_block_stores (st : Db.dstate) (ty : Db.data_type) (node : Z) (dof : string) :
  Db.current_type st = Some ty ->
  Db.current_node st = Some node ->
  Db.current_dof st = Some dof ->
  node <> 0%Z -> dof <> "" ->
  Db.deref st (Db.current_data st) <> [] ->
  Rows.db_entry (Db.save_block st) ty (node, dof)
  = Some (Db.deref st (Db.current_data st)).
Proof.
  intros Hty Hn Hd Hn0 Hd0 Hrows.
  unfold Db.save_block. rewrite Hty, Hn, Hd.
  assert (E1 : (node =? 0)%Z = false) by (apply Z.eqb_neq; exact Hn0).
  assert (E2 : String.eqb dof "" = false) by (apply String.eqb_neq; exact Hd0).
  assert (E3 : (length (Db.deref st (Db.current_data st)) =? 0)%nat = false).
  { apply Nat.eqb_neq. destruct (Db.deref st (Db.current_data st)); [congruence|discriminate]. }
  rewrite E1, E2, E3. simpl.
  destruct ty; unfold Rows.db_entry; simpl; rewrite lookup_insert_eq; reflexivity.
Qed.

Lemma db_open_block_fresh (ty : Db.data_type) (st st1 : Db.dstate) (line : string) :
  (5 <=? length (PyStr.split line))%nat = true ->
  Db.open_block ty st line = Some st1 ->
  Db.current_type st1 = Some ty /\ Db.deref st1 (Db.current_data st1) = [].
Proof.
  intros Hlen. unfold Db.open_block. rewrite Hlen.
  destruct (PyStr.py_int _); [|discriminate].
  destruct (PyStr.py_int _); [|discriminate].
  intros H. injection H as <-. split; [reflexivity|].
  unfold Db.deref. simpl. rewrite lookup_insert_eq. reflexivity.
Qed.

Lemma parse_pch_file_entry (lines : list string) (st : Db.dstate) (d : Db.pch_data)
  (key : Z * string) :
  Db.parse_lines Db.initial lines = Some st ->
  Db.parse_pch_file lines = Some d ->
  Db.data_acceleration d !! key = Rows.db_entry (Db.save_block st) Db.acceleration key /\
  Db.data_displacement d !! key = Rows.db_entry (Db.save_block st) Db.displacement key.
Proof.
  intros Hst. unfold Db.parse_pch_file. rewrite Hst. intros H. injection H as <-.
  simpl. rewrite !lookup_fmap. split; reflexivity.
Qed.

(** C2, counterexample.  In [process_data_blocks] a [$SUBCASE] line inside a
    block does not close it: the block is still open at the end and the row
    after the line is stored in its series.  In [parse_pch_file] a blank line
    inside a block does not close it: the row after the blank line is stored
    in the same series. *)
Lemma c2_blocks_stay_open :
  option_map (fun st => (Csv.current_header st, Csv.data_dict st !! "ACCE-222-T1"))
             (Csv.process_data_blocks Csv.initial Inputs.dollar_line_inside)
    = Some (Some "ACCE-222-T1", Some [1 # 2; 3 # 2]%Q) /\
  option_map (fun d => Db.data_acceleration d !! (222%Z, "T1"))
             (Db.parse_pch_file Inputs.blank_line_inside)
    = Some (Some [(1, 1 # 2); (2, 3 # 2)]%Q).
Proof. split; vm_compute; reflexivity. Qed.

(** C2, as amended.  [process_data_blocks]: after a line that is no channel
    header an open block is closed if and only if the line is blank, so a
    [$] line that is no channel header leaves it open, as does a short line;
    a row is stored in the series when it is read, so a row at the end of the
    input is in the result with no closing line after it.  [parse_pch_file]:
    a [$] line that is no channel header stores the open block and closes it;
    a blank line changes nothing and no other line that does not start with
    [$] closes the block; at the end of the input the open block, when its
    node id is not 0 and it has a row, is stored under its key. *)
Theorem c2_block_boundaries :
  (forall (st st' : Csv.pstate) (line header : string),
      Csv.current_header st = Some header ->
      PyStr.startswith line "$ACCE" = false ->
      PyStr.startswith line "$DISP" = false ->
      Csv.process_line st line = Some st' ->
      Csv.current_header st' = (if PyStr.nonblank line then Some header else None) /\
      (PyStr.startswith line "$" = true -> Csv.current_header st' = Some header)) /\
  (forall (st st1 : Csv.pstate) (lines : list string) (row header : string) (v : Q)
          (series : list Q),
      Csv.process_data_blocks st lines = Some st1 ->
      Csv.current_header st1 = Some header ->
      Csv.data_dict st1 !! header = Some series ->
      Rows.csv_row row v ->
      exists st2,
        Csv.process_data_blocks st (lines ++ [row]) = Some st2 /\
        Csv.data_dict st2 !! header = Some (series ++ [v])%list) /\
  (forall (st : Db.dstate) (line : string),
      PyStr.startswith line "$ACCE" = false ->
      PyStr.startswith line "$DISP" = false ->
      PyStr.startswith line "$" = true ->
      Db.parse_line st line = Some (Db.close_block (Db.save_block st)) /\
      Db.current_type (Db.close_block (Db.save_block st)) = None) /\
  (forall (st : Db.dstate) (line : string),
      PyStr.startswith line "$" = false ->
      (PyStr.nonblank line = false -> Db.parse_line st line = Some st) /\
      exists st', Db.parse_line st line = Some st' /\
                  Db.current_type st' = Db.current_type st) /\
  (forall (lines : list string) (st : Db.dstate) (d : Db.pch_data)
          (ty : Db.data_type) (node : Z) (dof : string),
      Db.parse_lines Db.initial lines = Some st ->
      Db.parse_pch_file lines = Some d ->
      Db.current_type st = Some ty ->
      Db.current_node st = Some node ->
      Db.current_dof st = Some dof ->
      node <> 0%Z -> dof <> "" ->
      Db.deref st (Db.current_data st) <> [] ->
      (match ty with
       | Db.acceleration => Db.data_acceleration d
       | Db.displacement => Db.data_displacement d
       end) !! (node, dof) = Some (Db.deref st (Db.current_data st))).
Proof.
  split; [|split; [|split; [|split]]].
  - intros st st' line header Hh Ha Hd H.
    pose proof (csv_block_closes_on_blank_only _ _ _ _ Hh Ha Hd H) as E.
    split; [exact E|]. intros Hdollar.
    rewrite (dollar_line_nonblank _ Hdollar) in E. exact E.
  - intros st st1 lines row header v series H1 Hh Hs Hrow.
    destruct (csv_row_appends _ _ _ _ _ Hh Hs Hrow) as (st2 & E & _ & Hs2).
    exists st2. rewrite process_data_blocks_app, H1. simpl. rewrite E.
    split; [reflexivity|exact Hs2].
  - intros st line Ha Hd H. split; [apply db_dollar_line; assumption|reflexivity].
  - intros st line H. rewrite (db_plain_line _ _ H). split.
    + intros Hnb. rewrite Hnb. destruct (Db.current_type st); reflexivity.
    + eexists. split; [reflexivity|].
      destruct (Db.current_type st) eqn:E; [|exact E].
      destruct (PyStr.nonblank line); [|exact E].
      rewrite (proj1 (data_line_current st line)). exact E.
  - intros lines st d ty node dof Hst Hd Hty Hn Hdof Hn0 Hd0 Hrows.
    destruct (parse_pch_file_entry _ _ _ (node, dof) Hst Hd) as [Ea Ed].
    pose proof (save_block_stores _ _ _ _ Hty Hn Hdof Hn0 Hd0 Hrows) as E.
    destruct ty; [rewrite Ea|rewrite Ed]; exact E.
Qed.

(** C2, witness: a [$SUBCASE] line read inside the block of ACCE-222-T1. *)
Lemma c2_witness :
  exists st',
    Csv.process_line Inputs.open_state "$SUBCASE ID =           1" = Some st' /\
    Csv.current_header st' = Some "ACCE-222-T1".
Proof.
  destruct (Csv.process_line Inputs.open_state "$SUBCASE ID =           1")
    as [st'|] eqn:E.
  - exists st'. split; [reflexivity|].
    exact (proj2 (proj1 c2_block_boundaries Inputs.open_state st'
                        "$SUBCASE ID =           1" "ACCE-222-T1"
                        eq_refl eq_refl eq_refl E) eq_refl).
  - exfalso. vm_compute in E. discriminate E.
Defined.

(** C4, counterexample.  [parse_pch_file] on two blocks of the channel
    (222, T1), with the rows (1, 0.5), (2, 1.5) and then (3, 0.2), returns the
    series (3, 0.2) alone: the later block replaced the earlier samples. *)
Lemma c4_database_parser_replaces :
  option_map (fun d => Db.data_acceleration d !! (222%Z, "T1"))
             (Db.parse_pch_file Inputs.repeated_channel)
    = Some (Some [(3, 1 # 5)]%Q).
Proof. vm_compute. reflexivity. Qed.

(** C4, as amended.  [process_data_blocks]: when the key of a channel header
    is in the dictionary already, the rows after the header are appended to
    the series stored for the key.  [parse_pch_file]: a channel header starts
    an empty list, and the rows after it, when there is one at least and the
    node id is not 0, become the whole series stored for the key, whatever
    was stored for it before. *)
Theorem c4_repeated_channel_header :
  (forall (st st1 : Csv.pstate) (hdr header : string) (rows : list string)
          (vs series : list Q),
      PyStr.startswith hdr "$ACCE" = true \/ PyStr.startswith hdr "$DISP" = true ->
      Csv.process_line st hdr = Some st1 ->
      Csv.current_header st1 = Some header ->
      Csv.data_dict st !! header = Some series ->
      Forall2 Rows.csv_row rows vs ->
      exists st2,
        Csv.process_data_blocks st (hdr :: rows) = Some st2 /\
        Csv.data_dict st2 !! header = Some (series ++ vs)%list) /\
  (forall (ty : Db.data_type) (st st1 : Db.dstate) (hdr : string) (rows : list string)
          (pairs : list (Q * Q)) (node : Z) (dof : string),
      (5 <=? length (PyStr.split hdr))%nat = true ->
      Db.open_block ty (Db.save_block st) hdr = Some st1 ->
      Db.current_node st1 = Some node ->
      Db.current_dof st1 = Some dof ->
      node <> 0%Z -> dof <> "" -> pairs <> [] ->
      Forall2 Rows.db_row rows pairs ->
      exists st2,
        Db.parse_lines st1 rows = Some st2 /\
        Rows.db_entry (Db.save_block st2) ty (node, dof) = Some pairs).
Proof.
  split.
  - intros st st1 hdr header rows vs series Hhdr H1 Hh Hs Hrows.
    assert (Hs1 : Csv.data_dict st1 !! header = Some series).
    { unfold Csv.process_line in H1.
      destruct (PyStr.startswith hdr "$ACCE").
      - eapply open_block_keeps_series; eassumption.
      - destruct (PyStr.startswith hdr "$DISP").
        + eapply open_block_keeps_series; eassumption.
        + destruct Hhdr; discriminate. }
    destruct (csv_rows_append _ _ _ _ _ Hh Hs1 Hrows) as (st2 & E2 & _ & Hs2).
    exists st2. simpl. rewrite H1. split; [exact E2|exact Hs2].
  - intros ty st st1 hdr rows pairs node dof Hlen H1 Hn Hd Hn0 Hd0 Hp Hrows.
    destruct (db_open_block_fresh _ _ _ _ Hlen H1) as [Hty Hempty].
    destruct (db_rows_append _ _ _ _ Hty Hrows) as (st2 & E2 & T2 & N2 & D2 & C2 & L2).
    exists st2. split; [exact E2|].
    rewrite Hempty in L2. simpl in L2.
    rewrite <- L2. apply save_block_stores; try congruence.
Qed.

(** C4, witness: a second block of ACCE-222-T1 after a first one with the
    values 0.5 and 1.5. *)
Lemma c4_witness :
  exists st2,
    Csv.process_data_blocks Inputs.seen_state
      ["$ACCE      0      222        3        0" ++ Inputs.nl;
       "         3  3.0  0.2  4" ++ Inputs.nl] = Some st2 /\
    Csv.data_dict st2 !! "ACCE-222-T1" = Some [1 # 2; 3 # 2; 1 # 5]%Q.
Proof.
  destruct (Csv.process_line Inputs.seen_state
              ("$ACCE      0      222        3        0" ++ Inputs.nl))
    as [st1|] eqn:E.
  - refine (proj1 c4_repeated_channel_header Inputs.seen_state st1
                  ("$ACCE      0      222        3        0" ++ Inputs.nl) "ACCE-222-T1"
                  ["         3  3.0  0.2  4" ++ Inputs.nl] [1 # 5]%Q [1 # 2; 3 # 2]%Q
                  (or_introl eq_refl) E _ eq_refl _).
    + vm_compute in E. injection E as <-. reflexivity.
    + constructor; [|constructor]. repeat split; vm_compute; reflexivity.
  - exfalso. vm_compute in E. discriminate E.
Defined.

(* ================================================================== *)
(** * The table assembler *)
(* ================================================================== *)

Lemma find_app_first {A : Type} (p : A -> bool) (l1 l2 : list A) :
  find p (l1 ++ l2) = match find p l1 with
                      | Some x => Some x
                      | None => find p l2
                      end.
Proof.
  induction l1 as [|a l1 IH]; simpl; [reflexivity|].
  destruct (p a); [reflexivity|exact IH].
Qed.

Lemma find_none_by_names {B : Type} (l : list (string * B)) (name : string) :
  existsb (String.eqb name) (map fst l) = false ->
  find (fun e => String.eqb (fst e) name) l = None.
Proof.
  induction l as [|e l IH]; simpl; [reflexivity|].
  intros H. apply orb_false_elim in H. destruct H as [H1 H2].
  rewrite String.eqb_sym, H1. apply IH. exact H2.
Qed.

Lemma channel_entries_names (df : gmap string (list Q)) (dof key : string) (absent : cell) :
  map fst (Csv.channel_entries df dof key absent) = map fst (Csv.absent_entries dof NaN).
Proof.
  unfold Csv.channel_entries. destruct (df !! key); reflexivity.
Qed.

(** Looking a name up skips the entries of another degree of freedom. *)
Lemma entries_skip (df : gmap string (list Q)) (dof key name : string) (absent : cell)
  (rest : list (string * cell)) :
  existsb (String.eqb name) (map fst (Csv.absent_entries dof NaN)) = false ->
  find (fun e => String.eqb (fst e) name) (Csv.channel_entries df dof key absent ++ rest)
  = find (fun e => String.eqb (fst e) name) rest.
Proof.
  intros H. rewrite find_app_first, find_none_by_names; [reflexivity|].
  rewrite channel_entries_names. exact H.
Qed.

Lemma entries_absent (df : gmap string (list Q)) (dof key name : string) (absent : cell)
  (rest : list (string * cell)) :
  df !! key = None ->
  find (fun e => String.eqb (fst e) name) (Csv.channel_entries df dof key absent ++ rest)
  = find (fun e => String.eqb (fst e) name) (Csv.absent_entries dof absent ++ rest).
Proof.
  intros H. unfold Csv.channel_entries. rewrite H. reflexivity.
Qed.

Lemma row_index_map {B : Type} (f : string -> B) (names : list string) (meas : string) :
  In meas names ->
  exists i, row_index names meas = Some i /\ nth_error (map f names) i = Some (f meas).
Proof.
  induction names as [|n names IH]; intros Hin; [destruct Hin|].
  simpl. destruct (String.eqb n meas) eqn:E.
  - apply String.eqb_eq in E. subst n. exists 0%nat. split; reflexivity.
  - destruct Hin as [->|Hin]; [rewrite String.eqb_refl in E; discriminate|].
    destruct (IH Hin) as (i & Hi & Hnth). exists (S i). rewrite Hi. split; [reflexivity|exact Hnth].
Qed.

Lemma find_node {B : Type} (g : string -> B) (pre : string) (nodes : list string)
  (node : string) :
  (forall n, String.eqb (pre ++ n) (pre ++ node) = String.eqb n node) ->
  In node nodes ->
  find (fun c => String.eqb (fst c) (pre ++ node)) (map (fun n => (pre ++ n, g n)) nodes)
  = Some (pre ++ node, g node).
Proof.
  intros Hpre. induction nodes as [|n nodes IH]; intros Hin; [destruct Hin|].
  simpl. rewrite Hpre. destruct (String.eqb n node) eqn:E.
  - apply String.eqb_eq in E. subst n. reflexivity.
  - destruct Hin as [->|Hin]; [rewrite String.eqb_refl in E; discriminate|].
    apply IH. exact Hin.
Qed.

(** The cell of a measurement row in the column of a node. *)
Lemma cell_at_transposed (measurements : list string) (g : string -> list (string * cell))
  (mapping : list (string * string)) (nodes : list string) (node meas : string) :
  In node nodes -> In meas measurements ->
  cell_at (Csv.transposed measurements (map (fun n => (n, g n)) nodes) mapping nodes)
          meas ("Node_" ++ node)
  = Some (match option_map fst (find (fun m => String.eqb (snd m) meas) mapping) with
          | Some name =>
              match find (fun e => String.eqb (fst e) name) (g node) with
              | Some e => snd e
              | None => NaN
              end
          | None => NaN
          end).
Proof.
  intros Hnode Hmeas. unfold cell_at, Csv.transposed, column. cbn [Measurement columns].
  set (rows := map (fun n => (n, g n)) nodes).
  destruct (row_index_map (Csv.node_value rows mapping node) _ _ Hmeas) as (i & Hi & Hnth).
  rewrite Hi.
  rewrite (find_node (fun n => map (Csv.node_value rows mapping n) measurements)
                     "Node_" nodes node); [|intros n; reflexivity|exact Hnode].
  cbn [option_map snd]. rewrite Hnth. f_equal.
  assert (Hrow : find (fun r => String.eqb (fst r) node) rows = Some (node, g node))
    by exact (find_node g "" nodes node (fun n => eq_refl) Hnode).
  unfold Csv.node_value. rewrite Hrow. reflexivity.
Qed.

Lemma existsb_In_string (x : string) (l : list string) :
  existsb (String.eqb x) l = true -> In x l.
Proof.
  intros H. apply existsb_exists in H. destruct H as (y & Hy & E).
  apply String.eqb_eq in E. subst y. exact Hy.
Qed.

(** Reduce the lookup of one measurement in the node data: the standard name
    is computed, the entries of the degrees of freedom before the one looked
    for are skipped, and the absent channel is replaced by its default. *)
Ltac lookup_absent H :=
  rewrite cell_at_transposed by (assumption || (apply existsb_In_string; reflexivity));
  match goal with
  | |- context [option_map fst (find ?p (Csv.name_mapping ?k ?m))] =>
      let t := eval vm_compute in (option_map fst (find p (Csv.name_mapping k m))) in
      change (option_map fst (find p (Csv.name_mapping k m))) with t
  end;
  cbv beta iota;
  unfold Csv.acce_node_data, Csv.disp_node_data, Csv.dof_types; cbn [flat_map];
  repeat (rewrite entries_skip by reflexivity);
  rewrite (entries_absent _ _ _ _ _ _ H);
  reflexivity.

(** C9.  The two tables of [create_combined_data] are assembled from the data
    frame and the sorted node ids.  For a node of the table and a degree of
    freedom of the schema whose channel is not in the data frame: the seven acceleration cells (area,
    three frequencies, three PSD values) are 0 for R1, R2 and R3 and missing
    (NaN) for T1, T2 and T3; the seven displacement cells are missing for
    every degree of freedom.  A missing cell is written as an empty field and
    is not the number 0. *)
Theorem c9_missing_channel_policy :
  (forall (lines : list string) (t : table * table),
      Csv.create_combined_data lines = Some t ->
      exists (st1 : Csv.pstate) (nodes : list string),
        Csv.process_data_blocks Csv.initial lines = Some st1 /\
        Csv.sorted_nodes (Csv.node_ids (Csv.extract_frequency st1 lines)) = Some nodes /\
        t = Csv.assemble
              (Csv.sort_frequencies (Csv.data_dict (Csv.extract_frequency st1 lines)))
              nodes) /\
  (forall (df : gmap string (list Q)) (nodes : list string) (node dof : string),
      In node nodes -> In dof Csv.dof_types ->
      (df !! ("ACCE-" ++ node ++ "-" ++ dof) = None ->
       forall metric,
         In metric ["Area"; "Frequency_1"; "PSD_1"; "Frequency_2"; "PSD_2";
                    "Frequency_3"; "PSD_3"] ->
         cell_at (fst (Csv.assemble df nodes)) ("ACCE_" ++ dof ++ "_" ++ metric)
                 ("Node_" ++ node)
         = Some (if existsb (String.eqb dof) ["R1"; "R2"; "R3"] then Num 0 else NaN)) /\
      (df !! ("DISP-" ++ node ++ "-" ++ dof) = None ->
       forall metric,
         In metric ["Area"; "Frequency_1"; "DISP_1"; "Frequency_2"; "DISP_2";
                    "Frequency_3"; "DISP_3"] ->
         cell_at (snd (Csv.assemble df nodes)) ("DISP_" ++ dof ++ "_" ++ metric)
                 ("Node_" ++ node)
         = Some NaN)) /\
  (forall float_format, Csv.to_csv_field float_format NaN = "") /\
  NaN <> Num 0.
Proof.
  split; [|split; [|split; [reflexivity|discriminate]]].
  - intros lines t. unfold Csv.create_combined_data.
    destruct (Csv.process_data_blocks Csv.initial lines) as [st1|]; [|discriminate].
    destruct (Csv.DataFrame _) as [df|] eqn:Edf; [|discriminate].
    assert (Hdf : df = Csv.sort_frequencies
                         (Csv.data_dict (Csv.extract_frequency st1 lines))).
    { unfold Csv.DataFrame in Edf.
      destruct (map_to_list _) as [|[k values] rest]; [congruence|].
      destruct (forallb _ rest); congruence. }
    destruct (Csv.df_empty df); [discriminate|].
    destruct (Csv.sorted_nodes _) as [nodes|] eqn:En; [|discriminate].
    intros H. injection H as <-. exists st1, nodes. rewrite Hdf. auto.
  - intros df nodes node dof Hnode Hdof. split.
    + intros H metric Hmetric. unfold Csv.assemble. cbn [fst].
      cbn in Hdof, Hmetric.
      repeat (destruct Hdof as [<-|Hdof]); try (exfalso; exact Hdof);
        repeat (destruct Hmetric as [<-|Hmetric]); try (exfalso; exact Hmetric);
        lookup_absent H.
    + intros H metric Hmetric. unfold Csv.assemble. cbn [snd].
      cbn in Hdof, Hmetric.
      repeat (destruct Hdof as [<-|Hdof]); try (exfalso; exact Hdof);
        repeat (destruct Hmetric as [<-|Hmetric]); try (exfalso; exact Hmetric);
        lookup_absent H.
Qed.

(* ================================================================== *)
(** * Peak detection on a flat series *)
(* ================================================================== *)

Lemma nth_map_seq {A : Type} (f : nat -> A) (n k : nat) (d : A) :
  (k < n)%nat -> nth k (map f (seq 0 n)) d = f k.
Proof.
  intros H. rewrite (nth_indep _ d (f 0%nat)) by (rewrite length_map, length_seq; exact H).
  rewrite map_nth, seq_nth by exact H. reflexivity.
Qed.

Lemma nth_repeat_lt (c d : Q) (n j : nat) :
  (j < n)%nat -> nth j (repeat c n) d = c.
Proof.
  intros H. rewrite (nth_indep _ d c) by (rewrite repeat_length; exact H).
  apply nth_repeat.
Qed.

(** A window of a constant series adds up to its length times the term. *)
Lemma window_sum (c y : Q) (n : nat) :
  forall cnt lo : nat,
    (lo + cnt <= n)%nat ->
    (Qsum (map (fun j => nth j (repeat c n) 0 * y) (seq lo cnt))
     == inject_Z (Z.of_nat cnt) * (c * y))%Q.
Proof.
  induction cnt as [|cnt IH]; intros lo H.
  - simpl. ring.
  - cbn [seq map Qsum fold_right]. fold (Qsum (map (fun j => nth j (repeat c n) 0 * y)%Q
                                                    (seq (S lo) cnt))).
    rewrite IH by lia. rewrite nth_repeat_lt by lia.
    rewrite Nat2Z.inj_succ. unfold Z.succ. rewrite inject_Z_plus. ring.
Qed.

Lemma no_strict_peak (a b c : Z) (x : Q) :
  (inject_Z a * x < inject_Z b * x)%Q ->
  (inject_Z c * x < inject_Z b * x)%Q ->
  (a < b /\ c < b)%Z \/ (b < a /\ b < c)%Z.
Proof.
  destruct x as [p q]. unfold Qlt, Qmult, inject_Z. simpl.
  intros H1 H2.
  rewrite Pos.mul_1_l in H1, H2.
  apply Z.mul_lt_mono_pos_r in H1; [|apply Pos2Z.is_pos].
  apply Z.mul_lt_mono_pos_r in H2; [|apply Pos2Z.is_pos].
  destruct (Z.lt_trichotomy p 0) as [Hp|[Hp|Hp]].
  - right. split; nia.
  - subst p. rewrite !Z.mul_0_r in H1. lia.
  - left. split; nia.
Qed.

(** The number of samples under the window at index [k]. *)
Lemma window_count_no_peak (n w off i : nat) :
  (w < n)%nat -> (off <= w - 1)%nat -> (1 <= i)%nat -> (i + 1 < n)%nat ->
  let cnt k := (Nat.min (k + off) (n - 1) + 1 - (k + off - (w - 1)))%nat in
  ~ ((cnt (i - 1) < cnt i /\ cnt (i + 1) < cnt i)
     \/ (cnt i < cnt (i - 1) /\ cnt i < cnt (i + 1)))%nat.
Proof.
  intros Hw Hoff Hi Hn cnt. unfold cnt. lia.
Qed.

Lemma convolve_flat_nth (c : Q) (n w k : nat) :
  (k < n)%nat ->
  (nth k (Csv.convolve_same (repeat c n) w) 0
   == inject_Z (Z.of_nat (Nat.min (k + (w - 1) / 2) (n - 1) + 1
                          - (k + (w - 1) / 2 - (w - 1))))
      * (c * (1 # Pos.of_nat w)))%Q.
Proof.
  intros Hk. unfold Csv.convolve_same. rewrite repeat_length.
  rewrite nth_map_seq by exact Hk.
  apply window_sum.
  assert (Hoff : ((w - 1) / 2 <= w - 1)%nat) by (apply Nat.Div0.div_le_upper_bound; lia).
  lia.
Qed.

Lemma convolve_flat_length (c : Q) (n w : nat) :
  length (Csv.convolve_same (repeat c n) w) = n.
Proof.
  unfold Csv.convolve_same. rewrite length_map, length_seq, repeat_length. reflexivity.
Qed.

Lemma map_seq_const {A : Type} (f : nat -> A) (b : A) (n : nat) :
  (forall i, (i < n)%nat -> f i = b) -> map f (seq 0 n) = repeat b n.
Proof.
  intros H.
  assert (G : forall a m, (a + m <= n)%nat -> map f (seq a m) = repeat b m).
  { intros a m. revert a. induction m as [|m IH]; intros a Ham; [reflexivity|].
    simpl. rewrite H by lia. rewrite IH by lia. reflexivity. }
  apply G. lia.
Qed.

(** A constant series has no strict local maximum, smoothed or not. *)
Lemma flat_mask_false (c : Q) (n : nat) :
  Csv.local_maxima_mask (repeat c n) (Csv.smooth_psd (repeat c n)) = repeat false n.
Proof.
  unfold Csv.local_maxima_mask. rewrite repeat_length.
  apply map_seq_const. intros i Hi.
  destruct (1 <=? i)%nat eqn:E1; [|reflexivity].
  apply Nat.leb_le in E1.
  unfold Csv.smooth_psd. rewrite repeat_length.
  set (w := Csv.window_size n).
  destruct ((1 <? w) && (w <? n))%nat eqn:Ew.
  - rewrite convolve_flat_length.
    destruct (i + 1 <? n)%nat eqn:E2; [|reflexivity].
    apply Nat.ltb_lt in E2.
    apply andb_true_iff in Ew. destruct Ew as [_ Ew]. apply Nat.ltb_lt in Ew.
    cbn [andb].
    destruct (Qltb (nth (i - 1) (Csv.convolve_same (repeat c n) w) 0%Q)
                   (nth i (Csv.convolve_same (repeat c n) w) 0%Q)) eqn:A; [|reflexivity].
    destruct (Qltb (nth (i + 1) (Csv.convolve_same (repeat c n) w) 0%Q)
                   (nth i (Csv.convolve_same (repeat c n) w) 0%Q)) eqn:B; [|reflexivity].
    exfalso. apply Qltb_lt in A, B.
    rewrite !convolve_flat_nth in A, B by lia.
    pose proof (no_strict_peak _ _ _ _ A B) as P.
    assert (Hoff : ((w - 1) / 2 <= w - 1)%nat) by (apply Nat.Div0.div_le_upper_bound; lia).
    apply (window_count_no_peak n w ((w - 1) / 2) i Ew Hoff E1 E2).
    cbv zeta. lia.
  - rewrite repeat_length.
    destruct (i + 1 <? n)%nat eqn:E2; [|reflexivity].
    apply Nat.ltb_lt in E2. cbn [andb].
    rewrite !nth_repeat_lt by lia. rewrite Qltb_irrefl. reflexivity.
Qed.

Lemma map_fst_combine_seq {B : Type} (v : list B) :
  forall a, map fst (combine (seq a (length v)) v) = seq a (length v).
Proof.
  induction v as [|x v IH]; intros a; simpl; [reflexivity|].
  rewrite IH. reflexivity.
Qed.

(** [argsort] returns a permutation of the indices. *)
Lemma argsort_perm (v : list Q) : Permutation (argsort v) (seq 0 (length v)).
Proof.
  unfold argsort. rewrite <- (map_fst_combine_seq v 0%nat) at 2.
  apply Permutation_map. apply sort_by_perm.
Qed.

Lemma NoDup_skipn {A : Type} (k : nat) (l : list A) :
  List.NoDup l -> List.NoDup (skipn k l).
Proof.
  intros H. rewrite <- (firstn_skipn k l) in H.
  apply NoDup_app_remove_l in H. exact H.
Qed.

Lemma In_skipn {A : Type} (k : nat) (l : list A) (x : A) :
  In x (skipn k l) -> In x l.
Proof.
  intros H. rewrite <- (firstn_skipn k l). apply in_or_app. right. exact H.
Qed.

(** The three indices the fall-back marks: distinct and in range. *)
Lemma top_indices_spec (v : list Q) :
  (3 <= length v)%nat ->
  length (Csv.last_three (argsort v)) = 3%nat /\
  List.NoDup (Csv.last_three (argsort v)) /\
  (forall i, In i (Csv.last_three (argsort v)) -> (i < length v)%nat).
Proof.
  intros H. pose proof (argsort_perm v) as P.
  assert (L : length (argsort v) = length v).
  { rewrite (Permutation_length P), length_seq. reflexivity. }
  unfold Csv.last_three. split; [rewrite length_skipn; lia|]. split.
  - apply NoDup_skipn. eapply Permutation_NoDup; [symmetry; exact P|apply seq_NoDup].
  - intros i Hi. apply In_skipn in Hi.
    apply (Permutation_in _ P) in Hi. apply in_seq in Hi. lia.
Qed.

Lemma mark_length (indices : list nat) :
  forall mask, length (Csv.mark mask indices) = length mask.
Proof.
  unfold Csv.mark. induction indices as [|i indices IH]; intros mask; simpl; [reflexivity|].
  rewrite IH. apply length_insert.
Qed.

Lemma mark_nth (indices : list nat) :
  forall (mask : list bool) (k : nat),
    (k < length mask)%nat ->
    nth k (Csv.mark mask indices) false
    = nth k mask false || existsb (Nat.eqb k) indices.
Proof.
  unfold Csv.mark. induction indices as [|i indices IH]; intros mask k Hk; simpl.
  - rewrite orb_false_r. reflexivity.
  - rewrite IH by (rewrite length_insert; exact Hk).
    rewrite !nth_lookup.
    destruct (Nat.eqb_spec k i) as [->|Hne].
    + rewrite list_lookup_insert_eq by exact Hk. simpl.
      rewrite orb_true_r. reflexivity.
    + rewrite list_lookup_insert_ne by congruence. simpl. reflexivity.
Qed.

Lemma nth_repeat_lt_bool (n k : nat) : nth k (repeat false n) false = false.
Proof. apply nth_repeat. Qed.

(** [np.where] on an all-false mask with distinct in-range indices marked
    yields as many positions as were marked. *)
Lemma where_mark_length (n : nat) (indices : list nat) :
  List.NoDup indices ->
  (forall i, In i indices -> (i < n)%nat) ->
  Permutation (Csv.np_where (Csv.mark (repeat false n) indices)) indices.
Proof.
  intros Hnd Hr. unfold Csv.np_where. rewrite mark_length, repeat_length.
  apply Permutation.NoDup_Permutation.
  - apply List.NoDup_filter. apply seq_NoDup.
  - exact Hnd.
  - intros k. rewrite filter_In, in_seq. split.
    + intros [Hk Hm]. rewrite mark_nth in Hm by (rewrite repeat_length; lia).
      rewrite nth_repeat_lt_bool in Hm. simpl in Hm.
      apply existsb_exists in Hm. destruct Hm as (j & Hj & E).
      apply Nat.eqb_eq in E. subst j. exact Hj.
    + intros Hk. pose proof (Hr k Hk) as Hlt. split; [lia|].
      rewrite mark_nth by (rewrite repeat_length; lia).
      apply orb_true_iff. right. apply existsb_exists. exists k.
      split; [exact Hk|apply Nat.eqb_refl].
Qed.

Lemma existsb_repeat_false (n : nat) : existsb (fun b : bool => b) (repeat false n) = false.
Proof. induction n as [|n IH]; simpl; [reflexivity|exact IH]. Qed.

Lemma flat_maxima_mask (c : Q) (n : nat) :
  Csv.maxima_mask (repeat c n)
  = Csv.mark (repeat false n) (Csv.last_three (argsort (repeat c n))).
Proof.
  unfold Csv.maxima_mask. rewrite flat_mask_false, existsb_repeat_false. reflexivity.
Qed.

Lemma flat_candidates (frequencies : list Q) (c : Q) (n : nat) :
  (3 <= n)%nat ->
  Csv.candidates frequencies (repeat c n)
  = map (fun i => (nth i frequencies 0%Q, nth i (repeat c n) 0%Q))
        (Csv.np_where (Csv.maxima_mask (repeat c n))) /\
  length (Csv.np_where (Csv.maxima_mask (repeat c n))) = 3%nat /\
  (forall i, In i (Csv.np_where (Csv.maxima_mask (repeat c n))) -> (i < n)%nat).
Proof.
  intros Hn.
  destruct (top_indices_spec (repeat c n)) as (L & Hnd & Hr);
    [rewrite repeat_length; exact Hn|].
  rewrite repeat_length in Hr.
  pose proof (where_mark_length n _ Hnd Hr) as P.
  rewrite <- flat_maxima_mask in P.
  assert (L3 : length (Csv.np_where (Csv.maxima_mask (repeat c n))) = 3%nat).
  { rewrite (Permutation_length P). exact L. }
  split; [|split; [exact L3|]].
  - unfold Csv.candidates. rewrite length_map, L3. reflexivity.
  - intros i Hi. apply Hr. eapply Permutation_in; [exact P|exact Hi].
Qed.

Lemma flat_series_no_peak (frequencies : list Q) (c : Q) :
  Db.find_peaks (combine frequencies (repeat c (length frequencies))) 3 = [].
Proof.
  unfold Db.find_peaks.
  destruct (combine frequencies (repeat c (length frequencies))) as [|p l] eqn:E;
    [reflexivity|].
  rewrite <- E. clear E p l.
  assert (H : Db.local_maxima (combine frequencies (repeat c (length frequencies))) = []).
  { unfold Db.local_maxima.
    set (series := combine frequencies (repeat c (length frequencies))).
    assert (Hlen : length series = length frequencies).
    { unfold series. rewrite length_combine, repeat_length. lia. }
    assert (Hsnd : forall i, (i < length frequencies)%nat ->
                             snd (nth i series (0%Q, 0%Q)) = c).
    { intros i Hi. unfold series. rewrite combine_nth by (rewrite repeat_length; reflexivity).
      simpl. apply nth_repeat_lt. exact Hi. }
    rewrite Hlen.
    assert (G : forall m a, (a + m < length frequencies)%nat ->
                flat_map (fun i =>
                  if Qltb (snd (nth (i - 1) series (0%Q, 0%Q))) (snd (nth i series (0%Q, 0%Q)))
                     && Qltb (snd (nth (i + 1) series (0%Q, 0%Q)))
                             (snd (nth i series (0%Q, 0%Q)))
                  then [nth i series (0%Q, 0%Q)] else []) (seq a m) = []).
    { induction m as [|m IH]; intros a' Ha; [reflexivity|].
      cbn [seq flat_map]. rewrite IH by lia.
      rewrite (Hsnd a') by lia. rewrite (Hsnd (a' + 1)%nat) by lia.
      rewrite Qltb_irrefl, andb_false_r. reflexivity. }
    destruct (length frequencies - 2)%nat as [|k] eqn:E2; [reflexivity|].
    apply G. lia. }
  rewrite H. reflexivity.
Qed.

(** C6, counterexample.  [find_peaks] returns no point for the constant
    series (1, 1), (2, 1), (3, 1). *)
Lemma c6_find_peaks_returns_nothing :
  Db.find_peaks [(1, 1); (2, 1); (3, 1)]%Q 3 = [].
Proof. reflexivity. Qed.

(** C6, as amended.  For a constant series of length 3 or more,
    [find_top_three_local_maxima] finds no strict local maximum, smoothed or
    not, marks the last three indices of [argsort] instead and returns
    exactly 3 points, each a frequency of the series with the constant value.
    [find_peaks] has no such fall-back and returns no point for a constant
    series. *)
Theorem c6_flat_series_peaks :
  forall (frequencies : list Q) (c : Q) (n : nat),
    (3 <= n)%nat -> length frequencies = n ->
    let psd_values := repeat c n in
    existsb (fun b : bool => b)
            (Csv.local_maxima_mask psd_values (Csv.smooth_psd psd_values)) = false /\
    Csv.maxima_mask psd_values
      = Csv.mark (Csv.local_maxima_mask psd_values (Csv.smooth_psd psd_values))
                 (Csv.last_three (argsort psd_values)) /\
    length (Csv.find_top_three_local_maxima frequencies psd_values) = 3%nat /\
    (forall p, In p (Csv.find_top_three_local_maxima frequencies psd_values) ->
               snd p = c /\ In (fst p) frequencies) /\
    Db.find_peaks (combine frequencies psd_values) 3 = [].
Proof.
  intros frequencies c n Hn Hlen psd_values. unfold psd_values.
  destruct (flat_candidates frequencies c n Hn) as (Hc & L3 & Hr).
  split; [rewrite flat_mask_false; apply existsb_repeat_false|].
  split; [rewrite flat_mask_false; apply flat_maxima_mask|].
  assert (Hcl : length (Csv.candidates frequencies (repeat c n)) = 3%nat).
  { rewrite Hc, length_map. exact L3. }
  split; [|split].
  - unfold Csv.find_top_three_local_maxima.
    rewrite sort_by_length, firstn_all2; rewrite sort_by_length; lia.
  - intros p Hp. unfold Csv.find_top_three_local_maxima in Hp.
    apply (Permutation_in _ (sort_by_perm _ _)) in Hp.
    rewrite firstn_all2 in Hp by (rewrite sort_by_length; lia).
    apply (Permutation_in _ (sort_by_perm _ _)) in Hp.
    rewrite Hc in Hp. apply in_map_iff in Hp. destruct Hp as (i & <- & Hi).
    pose proof (Hr i Hi) as Hlt. simpl. split.
    + apply nth_repeat_lt. exact Hlt.
    + apply nth_In. lia.
  - subst n. apply flat_series_no_peak.
Qed.

(** C6, witness: the constant series 1, 1, 1 at the frequencies 1, 2, 3. *)
Lemma c6_witness :
  length (Csv.find_top_three_local_maxima [1; 2; 3]%Q (repeat 1%Q 3)) = 3%nat.
Proof.
  apply (c6_flat_series_peaks [1; 2; 3]%Q 1%Q 3%nat); [lia|reflexivity].
Defined.

(* ================================================================== *)
(** * Number literals *)
(* ================================================================== *)


Lemma sign_chars (c : ascii) :
  is_sign c = true ->
  is_digit c = false /\ Ascii.eqb c "_" = false /\ Ascii.eqb c "." = false
  /\ is_exp c = false.
Proof.
  unfold is_sign. intros H. apply orb_true_iff in H.
  destruct H as [H|H]; apply Ascii.eqb_eq in H; subst c; repeat split; reflexivity.
Qed.


Lemma digit_not_sign (c : ascii) : is_digit c = true -> is_sign c = false.
Proof.
  intros H. destruct (is_sign c) eqn:E; [|reflexivity].
  destruct (sign_chars c E) as [E' _]. congruence.
Qed.

Lemma fail_absorbing (l : list ascii) :
  forall st, f_phase st = F_fail -> f_phase (fold_left float_step l st) = F_fail.
Proof.
  induction l as [|c l IH]; intros st H; simpl; [exact H|].
  apply IH. unfold float_step. rewrite H. exact H.
Qed.

Lemma step_after_digit (st : fstate) (a : ascii) :
  is_digit a = true ->
  let p := f_phase (float_step st a) in
  p = F_int \/ p = F_frac \/ p = F_exp \/ p = F_fail.
Proof.
  intros H. pose proof (digit_not_sign a H) as Hs.
  unfold float_step. destruct (f_phase st) eqn:E; rewrite ?Hs, ?H; simpl; auto.
Qed.

Lemma step_after_point (st : fstate) :
  let p := f_phase (float_step st ".") in
  p = F_dot \/ p = F_dot0 \/ p = F_fail.
Proof.
  unfold float_step. destruct (f_phase st) eqn:E; simpl; auto.
Qed.

Lemma step_sign_fails (st : fstate) (b : ascii) :
  is_sign b = true ->
  f_phase st = F_int \/ f_phase st = F_frac \/ f_phase st = F_exp
  \/ f_phase st = F_dot \/ f_phase st = F_dot0 \/ f_phase st = F_fail ->
  f_phase (float_step st b) = F_fail.
Proof.
  intros H Hp. destruct (sign_chars b H) as (Hd & Hu & Hpt & He).
  unfold float_step.
  destruct Hp as [E|[E|[E|[E|[E|E]]]]]; rewrite E; rewrite ?Hd, ?Hu, ?Hpt, ?He;
    simpl; auto.
Qed.

(** A token with a sign right after a digit or a point is no float literal. *)
Lemma bare_sign_rejected (l : list ascii) :
  forall st, bare_sign l = true ->
             f_accepting (f_phase (fold_left float_step l st)) = false.
Proof.
  induction l as [|a tl IH]; intros st H; [discriminate|].
  destruct tl as [|b tl']; [discriminate|].
  cbn [bare_sign] in H. apply orb_true_iff in H. destruct H as [H|H].
  - apply andb_true_iff in H. destruct H as [Ha Hb].
    cbn [fold_left].
    rewrite fail_absorbing; [reflexivity|].
    apply step_sign_fails; [exact Hb|].
    apply orb_true_iff in Ha. destruct Ha as [Ha|Ha].
    + destruct (step_after_digit st a Ha) as [E|[E|[E|E]]]; auto 10.
    + apply Ascii.eqb_eq in Ha. subst a.
      destruct (step_after_point st) as [E|[E|E]]; auto 10.
  - cbn [fold_left]. apply (IH (float_step st a)). exact H.
Qed.





(** ** The three rewrites of [nastran_float] *)

Lemma bare_sign_cons (a : ascii) (tl : list ascii) :
  bare_sign tl = true -> bare_sign (a :: tl) = true.
Proof.
  intros H. destruct tl as [|b tl']; [discriminate|].
  cbn [bare_sign] in *. rewrite H. apply orb_true_r.
Qed.

Lemma bare_sign_app (l1 l2 : list ascii) :
  bare_sign l2 = true -> bare_sign (l1 ++ l2) = true.
Proof.
  intros H. induction l1 as [|a l1 IH]; [exact H|].
  simpl app. apply bare_sign_cons. exact IH.
Qed.

Lemma bare_sign_digits (ds : list ascii) (s : ascii) (r : list ascii) :
  ds <> [] -> forallb is_digit ds = true -> is_sign s = true ->
  bare_sign (ds ++ s :: r) = true.
Proof.
  intros Hne Hd Hs. induction ds as [|x ds IH]; [congruence|].
  simpl in Hd. apply andb_true_iff in Hd. destruct Hd as [Hx Hd].
  destruct ds as [|y ds'].
  - simpl. rewrite Hx, Hs. reflexivity.
  - change ((x :: y :: ds') ++ s :: r)%list with (x :: ((y :: ds') ++ s :: r))%list.
    apply bare_sign_cons. apply IH; [discriminate|exact Hd].
Qed.

Lemma count_exp_app (l1 l2 : list ascii) :
  count_exp (l1 ++ l2) = (count_exp l1 + count_exp l2)%nat.
Proof.
  induction l1 as [|a l1 IH]; simpl; [reflexivity|]. rewrite IH. lia.
Qed.

Lemma rewrites_count (sub : list ascii -> list ascii) (l : list ascii) :
  rewrites sub l -> (count_exp l <= count_exp (sub l))%nat.
Proof. intros [E|[_ H]]; [rewrite E|]; lia. Qed.

Lemma sub_dot_rewrites (n : nat) :
  forall l, (length l <= n)%nat -> rewrites Db.sub_dot l.
Proof.
  induction n as [|n IH]; intros l Hl.
  - destruct l; [left; reflexivity|simpl in Hl; lia].
  - destruct l as [|a tl]; [left; reflexivity|].
    simpl in Hl.
    assert (Htl : rewrites Db.sub_dot tl) by (apply IH; lia).
    assert (Hskip : Db.sub_dot (a :: tl) = a :: Db.sub_dot tl -> rewrites Db.sub_dot (a :: tl)).
    { intros E. unfold rewrites. rewrite E. destruct Htl as [E'|[Hb Hc]].
      - left. rewrite E'. reflexivity.
      - right. split; [apply bare_sign_cons; exact Hb|]. cbn [count_exp]. apply Nat.add_lt_mono_l. exact Hc. }
    destruct tl as [|b [|c [|d rest]]]; try (apply Hskip; reflexivity).
    assert (Edot : Db.sub_dot (a :: b :: c :: d :: rest)
                   = if is_digit a && Ascii.eqb b "." && is_sign c && is_digit d
                     then a :: b :: "E"%char :: c :: d :: Db.sub_dot rest
                     else a :: Db.sub_dot (b :: c :: d :: rest)) by reflexivity.
    destruct (is_digit a && Ascii.eqb b "." && is_sign c && is_digit d) eqn:C;
      [|apply Hskip; exact Edot].
    apply andb_true_iff in C. destruct C as [C Hd].
    apply andb_true_iff in C. destruct C as [C Hc].
    apply andb_true_iff in C. destruct C as [Ha Hb].
    assert (Hrest : rewrites Db.sub_dot rest) by (apply IH; simpl in Hl; lia).
    apply rewrites_count in Hrest.
    right. split.
    + apply bare_sign_cons. cbn [bare_sign]. rewrite Hb, Hc, orb_true_r. reflexivity.
    + rewrite Edot. cbn [count_exp]. change (is_exp "E") with true. cbv iota.
      destruct (is_exp a), (is_exp b), (is_exp c), (is_exp d); lia.
Qed.

Lemma sub_int_rewrites (n : nat) :
  forall l, (length l <= n)%nat -> rewrites Db.sub_int l.
Proof.
  induction n as [|n IH]; intros l Hl.
  - destruct l; [left; reflexivity|simpl in Hl; lia].
  - destruct l as [|a tl]; [left; reflexivity|].
    simpl in Hl.
    assert (Htl : rewrites Db.sub_int tl) by (apply IH; lia).
    assert (Hskip : Db.sub_int (a :: tl) = a :: Db.sub_int tl -> rewrites Db.sub_int (a :: tl)).
    { intros E. unfold rewrites. rewrite E. destruct Htl as [E'|[Hb Hc]].
      - left. rewrite E'. reflexivity.
      - right. split; [apply bare_sign_cons; exact Hb|]. cbn [count_exp]. apply Nat.add_lt_mono_l. exact Hc. }
    destruct tl as [|c [|d rest]]; try (apply Hskip; reflexivity).
    assert (Eint : Db.sub_int (a :: c :: d :: rest)
                   = if is_digit a && is_sign c && is_digit d
                     then a :: "E"%char :: c :: d :: Db.sub_int rest
                     else a :: Db.sub_int (c :: d :: rest)) by reflexivity.
    destruct (is_digit a && is_sign c && is_digit d) eqn:C;
      [|apply Hskip; exact Eint].
    apply andb_true_iff in C. destruct C as [C Hd].
    apply andb_true_iff in C. destruct C as [Ha Hc].
    assert (Hrest : rewrites Db.sub_int rest) by (apply IH; simpl in Hl; lia).
    apply rewrites_count in Hrest.
    right. split.
    + cbn [bare_sign]. rewrite Ha, Hc. reflexivity.
    + rewrite Eint. cbn [count_exp]. change (is_exp "E") with true. cbv iota.
      destruct (is_exp a), (is_exp c), (is_exp d); lia.
Qed.

Lemma span_digits_spec (l : list ascii) :
  forall ds r, Db.span_digits l = (ds, r) ->
               l = (ds ++ r)%list /\ forallb is_digit ds = true.
Proof.
  induction l as [|c l IH]; intros ds r H; simpl in H.
  - injection H as <- <-. split; reflexivity.
  - destruct (is_digit c) eqn:E.
    + destruct (Db.span_digits l) as [ds' r'] eqn:S. injection H as <- <-.
      destruct (IH ds' r' eq_refl) as [-> Hd]. split; [reflexivity|].
      simpl. rewrite E. exact Hd.
    + injection H as <- <-. split; reflexivity.
Qed.

Lemma match_frac_spec (l grp rest : list ascii) (s d : ascii) :
  Db.match_frac l = Some (grp, s, d, rest) ->
  l = (grp ++ s :: d :: rest)%list /\ bare_sign l = true /\ count_exp l = (count_exp grp + count_exp (s :: d :: rest))%nat.
Proof.
  unfold Db.match_frac. destruct l as [|a [|b l2]]; try discriminate.
  destruct (is_digit a && Ascii.eqb b ".") eqn:C; [|discriminate].
  destruct (Db.span_digits l2) as [ds r] eqn:S.
  destruct ds as [|d0 ds]; [discriminate|].
  destruct r as [|s' [|d' rest']]; try discriminate.
  destruct (is_sign s' && is_digit d') eqn:C2; [|discriminate].
  intros H. injection H as <- <- <- <-.
  destruct (span_digits_spec _ _ _ S) as [-> Hd].
  apply andb_true_iff in C2. destruct C2 as [Hs _].
  split; [reflexivity|]. split.
  - apply (bare_sign_app [a; b]).
    apply bare_sign_digits; [discriminate|exact Hd|exact Hs].
  - change (a :: b :: (d0 :: ds) ++ s' :: d' :: rest')%list
      with ((a :: b :: d0 :: ds) ++ s' :: d' :: rest')%list.
    apply count_exp_app.
Qed.

Lemma sub_frac_fuel_rewrites (fuel : nat) :
  forall l, (length l <= fuel)%nat -> rewrites (Db.sub_frac_fuel fuel) l.
Proof.
  induction fuel as [|fuel IH]; intros l Hl.
  - left. reflexivity.
  - unfold rewrites. cbn [Db.sub_frac_fuel].
    destruct (Db.match_frac l) as [[[[grp s] d] rest]|] eqn:M.
    + destruct (match_frac_spec _ _ _ _ _ M) as (El & Hb & Hc).
      assert (Hrest : rewrites (Db.sub_frac_fuel fuel) rest).
      { apply IH. subst l. rewrite length_app in Hl. simpl in Hl. lia. }
      apply rewrites_count in Hrest.
      right. split; [exact Hb|].
      rewrite Hc, count_exp_app. cbn [count_exp]. change (is_exp "E") with true. cbv iota.
      destruct (is_exp s), (is_exp d); lia.
    + destruct l as [|a tl]; [left; reflexivity|].
      simpl in Hl.
      destruct (IH tl ltac:(lia)) as [E'|[Hb Hc]].
      * left. rewrite E'. reflexivity.
      * right. split; [apply bare_sign_cons; exact Hb|].
        cbn [count_exp]. apply Nat.add_lt_mono_l. exact Hc.
Qed.

Lemma sub_frac_rewrites (l : list ascii) : rewrites Db.sub_frac l.
Proof. exact (sub_frac_fuel_rewrites (length l) l (Nat.le_refl _)). Qed.

Lemma nastran_rewrites (l : list ascii) :
  rewrites (fun l => Db.sub_int (Db.sub_frac (Db.sub_dot l))) l.
Proof.
  pose proof (sub_dot_rewrites _ l (Nat.le_refl _)) as H1.
  pose proof (sub_frac_rewrites (Db.sub_dot l)) as H2.
  pose proof (sub_int_rewrites _ (Db.sub_frac (Db.sub_dot l)) (Nat.le_refl _)) as H3.
  pose proof (rewrites_count _ _ H2) as C2.
  pose proof (rewrites_count _ _ H3) as C3.
  unfold rewrites in *.
  destruct H1 as [E1|[B1 C1]].
  - rewrite E1 in H2, H3, C2, C3 |- *. destruct H2 as [E2|[B2 C2']].
    + rewrite E2 in H3 |- *. exact H3.
    + right. split; [exact B2|lia].
  - right. split; [exact B1|lia].
Qed.

(** ** [strip] *)

Lemma lstrip_split (l : list ascii) :
  exists sp, l = (sp ++ lstrip l)%list /\ forallb isspace sp = true.
Proof.
  induction l as [|c l IH]; [exists []; split; reflexivity|].
  simpl. destruct (isspace c) eqn:E.
  - destruct IH as (sp & Hl & Hsp). exists (c :: sp). split.
    + simpl. rewrite <- Hl. reflexivity.
    + simpl. rewrite E. exact Hsp.
  - exists []. split; reflexivity.
Qed.

Lemma lstrip_head (l : list ascii) :
  match lstrip l with
  | [] => True
  | c :: _ => isspace c = false
  end.
Proof.
  induction l as [|c l IH]; simpl; [exact I|].
  destruct (isspace c) eqn:E; [exact IH|exact E].
Qed.

Lemma lstrip_fixed (l : list ascii) :
  match l with [] => True | c :: _ => isspace c = false end -> lstrip l = l.
Proof.
  destruct l as [|c l]; [reflexivity|]. simpl. intros ->. reflexivity.
Qed.

Lemma strip_chars_idempotent (l : list ascii) :
  strip_chars (strip_chars l) = strip_chars l.
Proof.
  unfold strip_chars.
  set (m := lstrip l). set (r := lstrip (rev m)).
  assert (Hr : lstrip r = r) by (apply lstrip_fixed; apply lstrip_head).
  assert (Hrr : lstrip (rev r) = rev r).
  { apply lstrip_fixed.
    destruct (lstrip_split (rev m)) as (sp & Hm & _). fold r in Hm.
    apply (f_equal (@rev ascii)) in Hm. rewrite rev_involutive, rev_app_distr in Hm.
    pose proof (lstrip_head l) as Hh. fold m in Hh.
    destruct (rev r) as [|c t]; [exact I|].
    rewrite Hm in Hh. exact Hh. }
  rewrite Hrr, rev_involutive, Hr. reflexivity.
Qed.





Lemma nastran_float_chars (s : string) :
  Db.nastran_float s
  = float_chars (strip_chars (Db.sub_int (Db.sub_frac (Db.sub_dot
                   (strip_chars (list_ascii_of_string s)))))).
Proof.
  unfold Db.nastran_float, Db.nastran_rewrite, py_float.
  rewrite list_ascii_of_string_of_list_ascii. reflexivity.
Qed.





(** C9, witness: a frame with the channel ACCE-222-T1 only. *)
Lemma c9_witness :
  cell_at (fst (Csv.assemble Inputs.one_channel_frame ["222"])) "ACCE_R1_Area" "Node_222"
    = Some (Num 0) /\
  cell_at (fst (Csv.assemble Inputs.one_channel_frame ["222"])) "ACCE_T2_Area" "Node_222"
    = Some NaN.
Proof.
  split.
  - exact (proj1 (proj1 (proj2 c9_missing_channel_policy)
                    Inputs.one_channel_frame ["222"] "222" "R1"
                    (or_introl eq_refl)
                    (or_intror (or_intror (or_intror (or_introl eq_refl)))))
                 eq_refl "Area" (or_introl eq_refl)).
  - exact (proj1 (proj1 (proj2 c9_missing_channel_policy)
                    Inputs.one_channel_frame ["222"] "222" "T2"
                    (or_introl eq_refl)
                    (or_intror (or_introl eq_refl)))
                 eq_refl "Area" (or_introl eq_refl)).
Defined.

(* ================================================================== *)
(** * End to end *)
(* ================================================================== *)

(** C1, counterexample.  On the one-block input for node 222, DOF code 3 and
    the rows (1.0, 0.5), (2.0, 1.5), (3.0, 0.2), the cell [ACCE_T1_Area] of
    column [Node_222] is not 1.95. *)
Lemma c1_area_is_not_1_95 :
  exists acce disp a,
    Csv.create_combined_data Inputs.one_block = Some (acce, disp) /\
    cell_at acce "ACCE_T1_Area" "Node_222" = Some (Num a) /\
    ~ (a == 195 # 100)%Q.
Proof.
  eexists _, _, _. split; [vm_compute; reflexivity|].
  split; [vm_compute; reflexivity|].
  vm_compute. discriminate.
Qed.

(** C1, as amended.  On that input the cell [ACCE_T1_Area] of column
    [Node_222] is 1.85, the trapezoidal sum 1 * (0.5 + 1.5) / 2 + 1 * (1.5 +
    0.2) / 2.  The series has one strict local maximum, at index 1, so the
    fall-back to the three largest values is not taken: the candidate list is
    that maximum followed by the two remaining points in descending order of
    value, and the cells [ACCE_T1_Frequency_1..3] and [ACCE_T1_PSD_1..3] hold
    the three points in ascending order of frequency. *)
Theorem c1_end_to_end :
  exists acce disp area,
    Csv.create_combined_data Inputs.one_block = Some (acce, disp) /\
    cell_at acce "ACCE_T1_Area" "Node_222" = Some (Num area) /\
    (area == 185 # 100)%Q /\
    Csv.local_maxima_mask [1 # 2; 3 # 2; 1 # 5]%Q (Csv.smooth_psd [1 # 2; 3 # 2; 1 # 5]%Q)
      = [false; true; false] /\
    Csv.candidates [1; 2; 3]%Q [1 # 2; 3 # 2; 1 # 5]%Q
      = [(2, 3 # 2); (1, 1 # 2); (3, 1 # 5)]%Q /\
    cell_at acce "ACCE_T1_Frequency_1" "Node_222" = Some (Num 1) /\
    cell_at acce "ACCE_T1_PSD_1" "Node_222" = Some (Num (1 # 2)) /\
    cell_at acce "ACCE_T1_Frequency_2" "Node_222" = Some (Num 2) /\
    cell_at acce "ACCE_T1_PSD_2" "Node_222" = Some (Num (3 # 2)) /\
    cell_at acce "ACCE_T1_Frequency_3" "Node_222" = Some (Num 3) /\
    cell_at acce "ACCE_T1_PSD_3" "Node_222" = Some (Num (1 # 5)).
Proof.
  eexists _, _, _. split; [vm_compute; reflexivity|].
  split; [vm_compute; reflexivity|].
  repeat split; vm_compute; reflexivity.
Qed.

Import Inv.

(* ================================================================== *)
(** * The delta check *)
(* ================================================================== *)

Lemma exceeds_max_cell (tolerance : Q) (a b : cell) :
  exceeds tolerance (Verify.max_cell a b) = exceeds tolerance a || exceeds tolerance b.
Proof.
  destruct a as [x|], b as [y|]; simpl; try reflexivity.
  - destruct (Qltb x y) eqn:E; simpl.
    + destruct (Qltb tolerance x) eqn:Ex; [|reflexivity]. simpl.
      apply Qltb_lt in E, Ex. apply Qltb_lt. eapply Qlt_trans; eassumption.
    + destruct (Qltb tolerance y) eqn:Ey; [|rewrite orb_false_r; reflexivity].
      rewrite orb_true_r. apply Qltb_ge in E. apply Qltb_lt in Ey. apply Qltb_lt.
      eapply Qlt_le_trans; eassumption.
  - rewrite orb_false_r. reflexivity.
Qed.

Lemma exceeds_fold_max (tolerance : Q) (values : list cell) (acc : cell) :
  exceeds tolerance (fold_left Verify.max_cell values acc)
  = exceeds tolerance acc || existsb (exceeds tolerance) values.
Proof.
  revert acc. induction values as [|c values IH]; intros acc; simpl.
  - rewrite orb_false_r. reflexivity.
  - rewrite IH, exceeds_max_cell, orb_assoc. reflexivity.
Qed.

Lemma column_fails_existsb (tolerance : Q) (values : list cell) :
  Verify.column_fails tolerance values
  = existsb (fun c => exceeds tolerance (Verify.abs_cell c)) values.
Proof.
  unfold Verify.column_fails, Verify.series_max.
  change (match fold_left Verify.max_cell (map Verify.abs_cell values) NaN with
          | Num max_delta => Qltb tolerance max_delta
          | NaN => false
          end)
    with (exceeds tolerance (fold_left Verify.max_cell (map Verify.abs_cell values) NaN)).
  rewrite exceeds_fold_max. simpl.
  induction values as [|c values IH]; simpl; [reflexivity|]. rewrite IH. reflexivity.
Qed.

Lemma column_passes (tolerance : Q) (values : list cell) :
  Verify.column_fails tolerance values = false <->
  forall q, In (Num q) values -> (Qabs q <= tolerance)%Q.
Proof.
  rewrite column_fails_existsb. split.
  - intros H q Hin. apply Qltb_ge.
    destruct (Qltb tolerance (Qabs q)) eqn:E; [|reflexivity].
    assert (Hex : existsb (fun c => exceeds tolerance (Verify.abs_cell c)) values = true).
    { apply existsb_exists. exists (Num q). split; [exact Hin|exact E]. }
    congruence.
  - intros H. destruct (existsb _ values) eqn:E; [|reflexivity].
    apply existsb_exists in E. destruct E as [[q|] [Hin E]]; simpl in E; [|discriminate].
    apply Qltb_lt in E. exfalso. exact (Qlt_not_le _ _ E (H q Hin)).
Qed.

Lemma verify_zero_passes (delta : table) (tolerance : Q) :
  Verify.verify_zero delta tolerance = true <->
  forall (name : string) (values : list cell) (q : Q),
    In (name, values) (columns delta) -> In (Num q) values -> (Qabs q <= tolerance)%Q.
Proof.
  unfold Verify.verify_zero. rewrite negb_true_iff. split.
  - intros H name values q Hcol Hin.
    apply (proj1 (column_passes tolerance values)); [|exact Hin].
    destruct (Verify.column_fails tolerance values) eqn:E; [|reflexivity].
    assert (Hex : existsb (fun col => Verify.column_fails tolerance (snd col)) (columns delta)
                  = true).
    { apply existsb_exists. exists (name, values). split; [exact Hcol|exact E]. }
    congruence.
  - intros H. destruct (existsb _ (columns delta)) eqn:E; [|reflexivity].
    apply existsb_exists in E. destruct E as [[name values] [Hcol E]]. simpl in E.
    assert (Hp : Verify.column_fails tolerance values = false).
    { apply column_passes. intros q Hin. exact (H name values q Hcol Hin). }
    congruence.
Qed.

(** X1.  [verify_zero] succeeds exactly when every number of every value
    column is at most the tolerance in absolute value.  A missing cell is
    skipped by [max], so a column of missing cells, like an empty column,
    never fails the check. *)
Theorem verify_zero_accepts (delta : table) (tolerance : Q) :
  Verify.verify_zero delta tolerance = true <->
  forall (name : string) (values : list cell) (q : Q),
    In (name, values) (columns delta) -> In (Num q) values -> (Qabs q <= tolerance)%Q.
Proof. exact (verify_zero_passes delta tolerance). Qed.

(** ** The delta of a frame against itself *)

Lemma column_NoDup (t : list (string * list cell)) (col : string * list cell) :
  List.NoDup (map fst t) -> In col t ->
  option_map snd (find (fun c => String.eqb (fst c) (fst col)) t) = Some (snd col).
Proof.
  induction t as [|c t IH]; intros Hnd Hin; [destruct Hin|].
  inversion Hnd as [|? ? Hnotin Hnd']; subst. simpl.
  destruct Hin as [->|Hin].
  - rewrite String.eqb_refl. reflexivity.
  - destruct (String.eqb (fst c) (fst col)) eqn:E.
    + apply String.eqb_eq in E. exfalso. apply Hnotin. rewrite E.
      apply in_map. exact Hin.
    + apply IH; assumption.
Qed.

Lemma subtract_fill_self (values : list cell) (c : cell) :
  In c (map deadband (Csv.subtract_fill values values)) -> c = Num 0 \/ c = NaN.
Proof.
  induction values as [|v values IH]; simpl; [intros []|].
  intros [<-|Hin]; [|exact (IH Hin)].
  destruct v as [x|]; [left; apply (deadband_self x)|right; reflexivity].
Qed.

Lemma subtract_self (values : list cell) (c : cell) :
  In c (map deadband (Delta.subtract values values)) -> c = Num 0 \/ c = NaN.
Proof.
  induction values as [|v values IH]; simpl; [intros []|].
  intros [<-|Hin]; [|exact (IH Hin)].
  destruct v as [x|]; [left; apply (deadband_self x)|right; reflexivity].
Qed.

Lemma assign_names (cols : list (string * list cell)) (name : string) (values : list cell) :
  In name (map fst cols) -> map fst (Delta.assign cols name values) = map fst cols.
Proof.
  induction cols as [|c cols IH]; intros Hin; [destruct Hin|].
  simpl. destruct (String.eqb (fst c) name) eqn:E.
  - apply String.eqb_eq in E. simpl. rewrite E. reflexivity.
  - simpl. f_equal. apply IH. destruct Hin as [Hin|Hin]; [|exact Hin].
    rewrite Hin, String.eqb_refl in E. discriminate.
Qed.

Lemma column_Some_In (t : table) (name : string) (values : list cell) :
  column t name = Some values -> In name (map fst (columns t)).
Proof.
  unfold column. destruct (find _ (columns t)) as [[n v]|] eqn:E; [|discriminate].
  intros _. apply find_some in E. destruct E as [Hin E]. simpl in E.
  apply String.eqb_eq in E. subst n. exact (in_map fst _ _ Hin).
Qed.

Lemma column_None_notin (t : table) (name : string) :
  column t name = None <-> ~ In name (map fst (columns t)).
Proof.
  unfold column. split.
  - intros H Hin. apply in_map_iff in Hin. destruct Hin as [c [Hc Hin]].
    destruct (find _ (columns t)) eqn:E; [discriminate|].
    apply (find_none _ _ E) in Hin. rewrite Hc, String.eqb_refl in Hin. discriminate.
  - intros H. destruct (find _ (columns t)) as [[n v]|] eqn:E; [|reflexivity].
    exfalso. apply H. apply find_some in E. destruct E as [Hin E]. simpl in E.
    apply String.eqb_eq in E. subst n. exact (in_map fst _ _ Hin).
Qed.

Lemma In_assign (cols : list (string * list cell)) (name : string) (values : list cell)
  (c : string * list cell) :
  List.NoDup (map fst cols) ->
  In c (Delta.assign cols name values) ->
  c = (name, values) \/ (In c cols /\ fst c <> name).
Proof.
  induction cols as [|c0 cols IH]; intros Hnd Hin.
  - simpl in Hin. destruct Hin as [<-|[]]. left. reflexivity.
  - inversion Hnd as [|? ? Hnotin Hnd']; subst. simpl in Hin.
    destruct (String.eqb (fst c0) name) eqn:E.
    + apply String.eqb_eq in E. destruct Hin as [<-|Hin]; [left; reflexivity|].
      right. split; [right; exact Hin|]. intros Hc. apply Hnotin.
      rewrite E, <- Hc. exact (in_map fst _ _ Hin).
    + destruct Hin as [<-|Hin].
      * right. split; [left; reflexivity|]. intros Hc. rewrite Hc, String.eqb_refl in E.
        discriminate.
      * destruct (IH Hnd' Hin) as [->|[Hc Hne]]; [left; reflexivity|].
        right. split; [right; exact Hc|exact Hne].
Qed.

(** The columns of the frame [delta_loop] returns: the names of the frame it
    started from, each column either untouched or assigned from a current
    column. *)
Lemma delta_loop_columns (baseline : table) (cols : list (string * list cell)) :
  forall (delta d : list (string * list cell)),
    List.NoDup (map fst delta) ->
    (forall c, In c cols -> In (fst c) (map fst delta)) ->
    Delta.delta_loop baseline cols delta = Some d ->
    map fst d = map fst delta /\
    forall c, In c d ->
      (In c delta /\ ~ In (fst c) (map fst cols)) \/
      exists col b, In col cols /\ fst col = fst c /\ column baseline (fst c) = Some b /\
                    snd c = map deadband (Delta.subtract b (snd col)).
Proof.
  induction cols as [|c0 cols IH]; intros delta d Hnd Hsub Hloop.
  - simpl in Hloop. injection Hloop as <-. split; [reflexivity|].
    intros c Hin. left. split; [exact Hin|intros []].
  - simpl in Hloop.
    destruct (column baseline (fst c0)) as [b|] eqn:Eb; [|discriminate].
    assert (Hn : map fst (Delta.assign delta (fst c0) (map deadband (Delta.subtract b (snd c0))))
                 = map fst delta).
    { apply assign_names. apply Hsub. left. reflexivity. }
    destruct (IH (Delta.assign delta (fst c0) (map deadband (Delta.subtract b (snd c0)))) d)
      as [Hnames Hcols]; [rewrite Hn; exact Hnd| |exact Hloop|].
    { intros c Hin. rewrite Hn. apply Hsub. right. exact Hin. }
    split; [rewrite Hnames; exact Hn|].
    intros c Hin. destruct (Hcols c Hin) as [[Hc Hnot]|[col [b' [Hcol [Hf [Hb Hs]]]]]].
    + destruct (In_assign _ _ _ _ Hnd Hc) as [->|[Hc' Hne]].
      * right. exists c0, b. simpl. repeat split; [left; reflexivity|exact Eb].
      * left. split; [exact Hc'|]. simpl. intros [H|H]; [exact (Hne (eq_sym H))|exact (Hnot H)].
    + right. exists col, b'. repeat split; [right; exact Hcol|exact Hf|exact Hb|exact Hs].
Qed.

Lemma delta_loop_total (baseline : table) (cols : list (string * list cell)) :
  forall delta : list (string * list cell),
    (forall c, In c cols -> In (fst c) (map fst (columns baseline))) ->
    exists d, Delta.delta_loop baseline cols delta = Some d.
Proof.
  induction cols as [|c0 cols IH]; intros delta Hsub; simpl.
  - exists delta. reflexivity.
  - destruct (column baseline (fst c0)) as [b|] eqn:Eb.
    + apply IH. intros c Hin. apply Hsub. right. exact Hin.
    + exfalso. apply column_None_notin in Eb. apply Eb. apply Hsub. left. reflexivity.
Qed.

(** X2.  The delta of a frame against itself passes [verify_zero] at every
    tolerance that is not negative, for both delta scripts: each cell is 0 or
    missing.  The column names must be distinct, as they are in a frame read
    from a file. *)
Theorem self_delta_verifies (t : table) (tolerance : Q) :
  List.NoDup (map fst (columns t)) ->
  (0 <= tolerance)%Q ->
  Verify.verify_zero (Csv.delta_table t t) tolerance = true /\
  exists d, Delta.compute_delta t t = Some d /\ Verify.verify_zero d tolerance = true.
Proof.
  intros Hnd Htol.
  assert (Hzero : forall c q, (c = Num 0 \/ c = NaN) -> c = Num q -> (Qabs q <= tolerance)%Q).
  { intros c q [->| ->] E; [|discriminate]. injection E as <-. exact Htol. }
  split.
  - apply verify_zero_passes. intros name values q Hcol Hin.
    simpl in Hcol. apply in_map_iff in Hcol. destruct Hcol as [col [Hd Hcol]].
    unfold Csv.delta_column, column in Hd.
    rewrite (column_NoDup _ _ Hnd Hcol) in Hd. injection Hd as _ <-.
    exact (Hzero _ q (subtract_fill_self _ _ Hin) eq_refl).
  - destruct (delta_loop_total t (columns t) (columns t)) as [d Hd].
    { intros c Hin. exact (in_map fst _ _ Hin). }
    unfold Delta.compute_delta. rewrite Hd. simpl. eexists. split; [reflexivity|].
    apply verify_zero_passes. simpl. intros name values q Hcol Hin.
    destruct (delta_loop_columns t (columns t) (columns t) d Hnd) as [_ Hcols];
      [intros c Hc; exact (in_map fst _ _ Hc)|exact Hd|].
    destruct (Hcols _ Hcol) as [[Hc Hnot]|[col [b [Hc [Hf [Hb Hs]]]]]].
    + exfalso. apply Hnot. exact (in_map fst _ _ Hc).
    + simpl in Hf, Hb, Hs. unfold column in Hb. rewrite <- Hf in Hb.
      rewrite (column_NoDup _ _ Hnd Hc) in Hb. injection Hb as <-. subst values.
      exact (Hzero _ q (subtract_self _ _ Hin) eq_refl).
Qed.

Lemma self_delta_verifies_witness :
  Verify.verify_zero (Csv.delta_table Inputs.current_frame Inputs.current_frame) (1 # 1000000)
    = true /\
  exists d, Delta.compute_delta Inputs.current_frame Inputs.current_frame = Some d /\
            Verify.verify_zero d (1 # 1000000) = true.
Proof.
  apply (self_delta_verifies Inputs.current_frame (1 # 1000000)).
  - simpl. constructor; [intros []|constructor].
  - discriminate.
Defined.

Lemma delta_loop_fails_iff (baseline : table) (cols : list (string * list cell)) :
  forall delta : list (string * list cell),
    Delta.delta_loop baseline cols delta = None <->
    exists col, In col cols /\ column baseline (fst col) = None.
Proof.
  induction cols as [|c cols IH]; intros delta; simpl.
  - split; [discriminate|]. intros [col [[] _]].
  - destruct (column baseline (fst c)) as [b|] eqn:Eb.
    + rewrite IH. split.
      * intros [col [Hin H]]. exists col. split; [right; exact Hin|exact H].
      * intros [col [[<-|Hin] H]]; [congruence|]. exists col. split; assumption.
    + split; [|reflexivity]. intros _. exists c. split; [left; reflexivity|exact Eb].
Qed.

(** X3.  [compute_delta] fails (the [KeyError] of [baseline[col]]) exactly
    when the current frame has a value column that the baseline frame lacks;
    a column that only the baseline has is no error. *)
Theorem compute_delta_fails_iff (current baseline : table) :
  Delta.compute_delta current baseline = None <->
  exists col, In col (columns current) /\ column baseline (fst col) = None.
Proof.
  unfold Delta.compute_delta.
  rewrite <- (delta_loop_fails_iff baseline (columns current) (columns baseline)).
  destruct (Delta.delta_loop baseline (columns current) (columns baseline));
    split; intros H; try discriminate; reflexivity.
Qed.

(** X4.  When [compute_delta] succeeds on a baseline with distinct column
    names, the delta frame has the measurement column and the column names of
    the baseline, in the baseline's order, and a baseline column that the
    current frame lacks is copied into the delta unchanged. *)
Theorem compute_delta_keeps_baseline_layout (current baseline d : table) :
  List.NoDup (map fst (columns baseline)) ->
  Delta.compute_delta current baseline = Some d ->
  Measurement d = Measurement baseline /\
  map fst (columns d) = map fst (columns baseline) /\
  forall name, ~ In name (map fst (columns current)) -> column d name = column baseline name.
Proof.
  unfold Delta.compute_delta. intros Hnd Hd.
  destruct (Delta.delta_loop baseline (columns current) (columns baseline)) as [cols|] eqn:El;
    [|discriminate].
  injection Hd as <-. simpl. split; [reflexivity|].
  assert (Hsub : forall c, In c (columns current) -> In (fst c) (map fst (columns baseline))).
  { intros c Hin. destruct (column baseline (fst c)) as [b|] eqn:Eb.
    - exact (column_Some_In _ _ _ Eb).
    - exfalso.
      assert (Hn : Delta.delta_loop baseline (columns current) (columns baseline) = None).
      { apply delta_loop_fails_iff. exists c. split; assumption. }
      rewrite El in Hn. discriminate. }
  destruct (delta_loop_columns baseline (columns current) (columns baseline) cols Hnd Hsub El)
    as [Hnames Hcols].
  split; [exact Hnames|].
  intros name Hnot. unfold column. simpl.
  clear Hsub Hnames Hcols Hnd.
  revert El. generalize (columns baseline) as delta.
  induction (columns current) as [|c ccols IH]; intros delta El; simpl in El.
  - injection El as <-. reflexivity.
  - destruct (column baseline (fst c)) as [b|]; [|discriminate].
    rewrite (IH (fun H => Hnot (or_intror H)) _ El), find_assign.
    destruct (String.eqb (fst c) name) eqn:E; [|reflexivity].
    apply String.eqb_eq in E. exfalso. apply Hnot. left. exact E.
Qed.

Lemma compute_delta_keeps_baseline_layout_witness :
  exists d, Delta.compute_delta Inputs.current_frame Inputs.baseline_frame = Some d /\
    Measurement d = Measurement Inputs.baseline_frame /\
    map fst (columns d) = map fst (columns Inputs.baseline_frame) /\
    forall name, ~ In name (map fst (columns Inputs.current_frame)) ->
                 column d name = column Inputs.baseline_frame name.
Proof.
  destruct (Delta.compute_delta Inputs.current_frame Inputs.baseline_frame) as [d|] eqn:E.
  - exists d. split; [reflexivity|].
    apply (compute_delta_keeps_baseline_layout Inputs.current_frame Inputs.baseline_frame d).
    + simpl. constructor; [intros []|constructor].
    + exact E.
  - exfalso. vm_compute in E. discriminate E.
Defined.

Lemma subtract_fill_length (baseline current : list cell) :
  length (Csv.subtract_fill baseline current) = length current.
Proof.
  revert baseline. induction current as [|c current IH]; intros baseline; [reflexivity|].
  destruct baseline; simpl; rewrite IH; reflexivity.
Qed.

(** X5.  The delta frame of [create_delta_files] has the layout of the
    current frame, whatever the baseline holds: the same measurement column,
    the same column names in the same order, and as many cells in each
    column.  A column of the current frame that the baseline frame lacks is
    written to the delta file with the values of the current frame: they are
    neither subtracted nor replaced by zeros, and the dead band is not
    applied to them. *)
Theorem delta_table_keeps_current_layout (current baseline : table) :
  Measurement (Csv.delta_table current baseline) = Measurement current /\
  map fst (columns (Csv.delta_table current baseline)) = map fst (columns current) /\
  map (fun c => length (snd c)) (columns (Csv.delta_table current baseline))
    = map (fun c => length (snd c)) (columns current) /\
  (forall col, In col (columns current) -> column baseline (fst col) = None ->
               In col (columns (Csv.delta_table current baseline))).
Proof.
  split; [reflexivity|]. simpl. rewrite !map_map. split; [|split].
  - apply map_ext. intros col. apply delta_column_fst.
  - apply map_ext. intros col. unfold Csv.delta_column.
    destruct (column baseline (fst col)); [|reflexivity].
    simpl. rewrite length_map, subtract_fill_length. reflexivity.
  - intros col Hin Hb. apply in_map_iff. exists col. split; [|exact Hin].
    unfold Csv.delta_column. rewrite Hb. reflexivity.
Qed.

Lemma delta_table_keeps_current_layout_witness :
  In ("Node_222", [Num (185 # 100); NaN])
     (columns (Csv.delta_table Inputs.current_frame
                 {| Measurement := Measurement Inputs.baseline_frame; columns := [] |})).
Proof.
  apply (delta_table_keeps_current_layout Inputs.current_frame
           {| Measurement := Measurement Inputs.baseline_frame; columns := [] |}).
  - left. reflexivity.
  - reflexivity.
Defined.

(* ================================================================== *)
(** * The CSV block parser: failures and counters *)
(* ================================================================== *)

Lemma open_block_header_known (kind : string) (st st' : Csv.pstate) (line : string) :
  header_known st -> Csv.open_block kind st line = Some st' -> header_known st'.
Proof.
  unfold Csv.open_block. intros Hk H.
  destruct (5 <=? length (split line))%nat.
  - destruct (py_int (Csv.nth_str 3 (split line))) as [t|]; [|discriminate].
    injection H as <-. intros h Hh. simpl in Hh. injection Hh as <-. simpl.
    match goal with
    | |- context [match ?d !! ?k with Some _ => false | None => true end] =>
        destruct (d !! k) eqn:E
    end.
    + rewrite E. discriminate.
    + rewrite lookup_insert_eq. discriminate.
  - injection H as <-. exact Hk.
Qed.

Lemma data_row_header_known (st st' : Csv.pstate) (header line : string) :
  header_known st -> Csv.data_row st header line = Some st' -> header_known st'.
Proof.
  unfold Csv.data_row. intros Hk H.
  destruct (4 <=? length (split line))%nat; [|injection H as <-; exact Hk].
  destruct (py_float (Csv.nth_str 2 (split line))) as [psd|]; [|injection H as <-; exact Hk].
  destruct (Csv.data_dict st !! header) as [series|] eqn:E; [|discriminate].
  injection H as <-. intros h Hh. simpl in Hh. simpl.
  destruct (decide (header = h)) as [->|Hne].
  - rewrite lookup_insert_eq. discriminate.
  - rewrite lookup_insert_ne by exact Hne. exact (Hk h Hh).
Qed.

Lemma process_line_header_known (st st' : Csv.pstate) (line : string) :
  header_known st -> Csv.process_line st line = Some st' -> header_known st'.
Proof.
  unfold Csv.process_line. intros Hk H.
  destruct (startswith line "$ACCE"); [exact (open_block_header_known _ _ _ _ Hk H)|].
  destruct (startswith line "$DISP"); [exact (open_block_header_known _ _ _ _ Hk H)|].
  destruct (nonblank line).
  - destruct (Csv.current_header st) as [header|] eqn:Eh.
    + exact (data_row_header_known _ _ _ _ Hk H).
    + injection H as <-. exact Hk.
  - injection H as <-. intros h Hh. discriminate.
Qed.

Lemma open_block_fails (kind : string) (st : Csv.pstate) (line : string) :
  Csv.open_block kind st line = None <->
  (5 <=? length (split line))%nat
  && match py_int (nth 3 (split line) "") with Some _ => false | None => true end = true.
Proof.
  unfold Csv.open_block, Csv.nth_str.
  destruct (5 <=? length (split line))%nat; simpl.
  - destruct (py_int (nth 3 (split line) "")); split; intros H; try discriminate; reflexivity.
  - split; discriminate.
Qed.

Lemma process_line_fails (st : Csv.pstate) (line : string) :
  header_known st ->
  Csv.process_line st line = None <-> Props.bad_header line = true.
Proof.
  intros Hk. unfold Csv.process_line, Props.bad_header.
  destruct (startswith line "$ACCE") eqn:Ea; simpl.
  - rewrite open_block_fails. reflexivity.
  - destruct (startswith line "$DISP") eqn:Ed; simpl.
    + rewrite open_block_fails. reflexivity.
    + split; [|discriminate]. intros H. exfalso.
      destruct (nonblank line); [|discriminate].
      destruct (Csv.current_header st) as [header|] eqn:Eh; [|discriminate].
      unfold Csv.data_row in H.
      destruct (4 <=? length (split line))%nat; [|discriminate].
      destruct (py_float (Csv.nth_str 2 (split line))); [|discriminate].
      destruct (Csv.data_dict st !! header) eqn:E; [discriminate|].
      exact (Hk header Eh E).
Qed.

Lemma process_data_blocks_fails (lines : list string) :
  forall st : Csv.pstate,
    header_known st ->
    Csv.process_data_blocks st lines = None <-> existsb Props.bad_header lines = true.
Proof.
  induction lines as [|line lines IH]; intros st Hk; simpl.
  - split; discriminate.
  - destruct (Csv.process_line st line) as [st'|] eqn:E.
    + rewrite (IH st' (process_line_header_known _ _ _ Hk E)).
      destruct (Props.bad_header line) eqn:Eb; [|reflexivity].
      apply (process_line_fails st line Hk) in Eb. congruence.
    + apply (process_line_fails st line Hk) in E. rewrite E. split; reflexivity.
Qed.

(** X6.  [process_data_blocks] raises exactly when some line starts with
    [$ACCE] or [$DISP], has at least five tokens, and its token 3 is not an
    integer literal (the [ValueError] of [int]).  No other line can make it
    fail: a data row is appended only while its header is a key of the
    dictionary, so the [KeyError] never occurs, and a row whose value is not a
    number is skipped.  [create_combined_data] then returns [False]. *)
Theorem process_data_blocks_fails_iff (lines : list string) :
  (Csv.process_data_blocks Csv.initial lines = None
   <-> existsb Props.bad_header lines = true) /\
  (existsb Props.bad_header lines = true -> Csv.create_combined_data lines = None).
Proof.
  assert (H : Csv.process_data_blocks Csv.initial lines = None
              <-> existsb Props.bad_header lines = true).
  { apply process_data_blocks_fails. intros h Hh. discriminate. }
  split; [exact H|].
  intros Hb. apply H in Hb. unfold Csv.create_combined_data. rewrite Hb. reflexivity.
Qed.

Lemma process_data_blocks_fails_iff_witness :
  Csv.create_combined_data ["$ACCE      0      222        T1        0" ++ Inputs.nl] = None.
Proof.
  apply (proj2 (process_data_blocks_fails_iff
                  ["$ACCE      0      222        T1        0" ++ Inputs.nl])).
  vm_compute. reflexivity.
Defined.

(** ** Counters *)

Lemma acce_not_disp (line : string) :
  startswith line "$ACCE" = true -> startswith line "$DISP" = false.
Proof.
  unfold startswith. destruct line as [|a [|b line]]; [discriminate| |].
  - cbn [String.prefix]. destruct (ascii_dec "$"%char a); discriminate.
  - cbn [String.prefix]. destruct (ascii_dec "$"%char a); [|discriminate].
    destruct (ascii_dec "A"%char b) as [E|]; [|discriminate].
    destruct (ascii_dec "D"%char b) as [E'|]; [|reflexivity].
    rewrite <- E in E'. discriminate E'.
Qed.

Lemma open_block_counts (kind : string) (st st' : Csv.pstate) (line : string) :
  Csv.open_block kind st line = Some st' ->
  Csv.acce_count st'
  = (if String.eqb kind "ACCE" then S (Csv.acce_count st) else Csv.acce_count st) /\
  Csv.disp_count st'
  = (if String.eqb kind "ACCE" then Csv.disp_count st else S (Csv.disp_count st)) /\
  (Csv.total_psd_columns st = size (Csv.data_dict st) ->
   Csv.total_psd_columns st' = size (Csv.data_dict st')).
Proof.
  unfold Csv.open_block. intros H.
  destruct (5 <=? length (split line))%nat.
  - destruct (py_int (Csv.nth_str 3 (split line))) as [t|]; [|discriminate].
    injection H as <-. simpl. repeat split.
    intros Hs.
    match goal with
    | |- context [match ?d !! ?k with Some _ => false | None => true end] =>
        destruct (d !! k) eqn:E
    end.
    + exact Hs.
    + rewrite map_size_insert_None by exact E. rewrite Hs. reflexivity.
  - injection H as <-. simpl. repeat split. intros Hs. exact Hs.
Qed.

Lemma data_row_counts (st st' : Csv.pstate) (header line : string) :
  Csv.data_row st header line = Some st' ->
  Csv.acce_count st' = Csv.acce_count st /\
  Csv.disp_count st' = Csv.disp_count st /\
  Csv.total_psd_columns st' = Csv.total_psd_columns st /\
  size (Csv.data_dict st') = size (Csv.data_dict st).
Proof.
  unfold Csv.data_row. intros H.
  destruct (4 <=? length (split line))%nat; [|injection H as <-; repeat split].
  destruct (py_float (Csv.nth_str 2 (split line))) as [psd|];
    [|injection H as <-; repeat split].
  destruct (Csv.data_dict st !! header) as [series|] eqn:E; [|discriminate].
  injection H as <-. simpl. repeat split.
  apply map_size_insert_Some. rewrite E. eauto.
Qed.

Lemma process_line_counts (st st' : Csv.pstate) (line : string) :
  Csv.process_line st line = Some st' ->
  Csv.acce_count st'
  = (Csv.acce_count st + (if startswith line "$ACCE" then 1 else 0))%nat /\
  Csv.disp_count st'
  = (Csv.disp_count st + (if startswith line "$DISP" then 1 else 0))%nat /\
  (Csv.total_psd_columns st = size (Csv.data_dict st) ->
   Csv.total_psd_columns st' = size (Csv.data_dict st')).
Proof.
  unfold Csv.process_line. intros H.
  destruct (startswith line "$ACCE") eqn:Ea.
  - rewrite (acce_not_disp _ Ea).
    destruct (open_block_counts _ _ _ _ H) as [H1 [H2 H3]]. simpl in H1, H2.
    rewrite H1, H2. repeat split; [lia|lia|exact H3].
  - destruct (startswith line "$DISP") eqn:Ed.
    + destruct (open_block_counts _ _ _ _ H) as [H1 [H2 H3]]. simpl in H1, H2.
      rewrite H1, H2. repeat split; [lia|lia|exact H3].
    + destruct (nonblank line).
      * destruct (Csv.current_header st) as [header|].
        -- destruct (data_row_counts _ _ _ _ H) as [H1 [H2 [H3 H4]]].
           rewrite H1, H2, H3, H4. repeat split; [lia|lia|intros Hs; exact Hs].
        -- injection H as <-. repeat split; [lia|lia|intros Hs; exact Hs].
      * injection H as <-. simpl. repeat split; [lia|lia|intros Hs; exact Hs].
Qed.

Lemma process_data_blocks_counts (lines : list string) :
  forall st st' : Csv.pstate,
    Csv.process_data_blocks st lines = Some st' ->
    Csv.acce_count st' = (Csv.acce_count st + count_lines "$ACCE" lines)%nat /\
    Csv.disp_count st' = (Csv.disp_count st + count_lines "$DISP" lines)%nat /\
    (Csv.total_psd_columns st = size (Csv.data_dict st) ->
     Csv.total_psd_columns st' = size (Csv.data_dict st')).
Proof.
  unfold count_lines.
  induction lines as [|line lines IH]; intros st st' H; simpl in H.
  - injection H as <-. simpl. repeat split; [lia|lia|intros Hs; exact Hs].
  - destruct (Csv.process_line st line) as [st1|] eqn:E; [|discriminate].
    destruct (process_line_counts _ _ _ E) as [H1 [H2 H3]].
    destruct (IH _ _ H) as [G1 [G2 G3]].
    rewrite G1, G2, H1, H2. simpl.
    destruct (startswith line "$ACCE"), (startswith line "$DISP"); simpl;
      (repeat split; [lia|lia|intros Hs; exact (G3 (H3 Hs))]).
Qed.

(** X7.  After [process_data_blocks] the three counters printed in the
    summary hold what their names say: [acce_count] and [disp_count] are the
    numbers of lines that start with [$ACCE] and with [$DISP] (short headers
    included), and [total_psd_columns] is the number of channels in the
    dictionary, a channel whose header appears again being counted once. *)
Theorem process_data_blocks_counters (lines : list string) (st : Csv.pstate) :
  Csv.process_data_blocks Csv.initial lines = Some st ->
  Csv.acce_count st = length (List.filter (fun line => startswith line "$ACCE") lines) /\
  Csv.disp_count st = length (List.filter (fun line => startswith line "$DISP") lines) /\
  Csv.total_psd_columns st = size (Csv.data_dict st).
Proof.
  intros H. destruct (process_data_blocks_counts _ _ _ H) as [H1 [H2 H3]].
  repeat split; [exact H1|exact H2|]. apply H3. reflexivity.
Qed.

Lemma process_data_blocks_counters_witness :
  exists st,
    Csv.process_data_blocks Csv.initial Inputs.repeated_channel = Some st /\
    Csv.acce_count st = 2%nat /\ Csv.disp_count st = 0%nat /\
    Csv.total_psd_columns st = size (Csv.data_dict st).
Proof.
  destruct (Csv.process_data_blocks Csv.initial Inputs.repeated_channel) as [st|] eqn:E.
  - exists st. split; [reflexivity|].
    exact (process_data_blocks_counters Inputs.repeated_channel st E).
  - exfalso. vm_compute in E. discriminate E.
Defined.

(** ** Headers with fewer than five tokens *)

Lemma short_header_line (st : Csv.pstate) (line : string) :
  Props.short_header line ->
  exists kind, Csv.process_line st line = Some (Csv.count_header kind st).
Proof.
  intros [Hs Hlen]. unfold Csv.process_line, Csv.open_block.
  destruct (startswith line "$ACCE") eqn:Ea.
  - exists "ACCE". rewrite Hlen. reflexivity.
  - destruct Hs as [Hs|Hs]; [discriminate|]. rewrite Hs.
    exists "DISP". rewrite Hlen. reflexivity.
Qed.

(** X8.  A line that starts with [$ACCE] or [$DISP] but has fewer than five
    tokens is counted and otherwise ignored: it opens no channel and does not
    close the open one, so the data rows that follow it are appended to the
    series of the channel that was open before it. *)
Theorem short_header_keeps_block_open (st : Csv.pstate) (line row header : string)
  (series : list Q) (v : Q) :
  Props.short_header line ->
  Csv.current_header st = Some header ->
  Csv.data_dict st !! header = Some series ->
  Rows.csv_row row v ->
  exists st',
    Csv.process_data_blocks st [line; row] = Some st' /\
    Csv.current_header st' = Some header /\
    Csv.data_dict st' !! header = Some (series ++ [v])%list /\
    Csv.node_ids st' = Csv.node_ids st /\
    Csv.total_psd_columns st' = Csv.total_psd_columns st.
Proof.
  intros Hshort Hh Hs Hrow.
  destruct (short_header_line st line Hshort) as [kind E].
  destruct Hrow as (Ha & Hd & Hnb & Hlen & Hv).
  cbn [Csv.process_data_blocks]. rewrite E.
  rewrite (process_line_not_header _ _ Ha Hd), Hnb.
  cbn [Csv.count_header Csv.current_header]. rewrite Hh.
  unfold Csv.data_row, Csv.nth_str. rewrite Hlen, Hv.
  cbn [Csv.count_header Csv.data_dict]. rewrite Hs.
  eexists. split; [reflexivity|]. simpl.
  split; [exact Hh|]. split; [apply lookup_insert_eq|]. split; reflexivity.
Qed.

Lemma short_header_keeps_block_open_witness :
  exists st',
    Csv.process_data_blocks Inputs.open_state
      ["$ACCE      0      333" ++ Inputs.nl; "         1  1.0  0.5  2" ++ Inputs.nl] = Some st' /\
    Csv.current_header st' = Some "ACCE-222-T1" /\
    Csv.data_dict st' !! "ACCE-222-T1" = Some [1 # 2]%Q /\
    Csv.node_ids st' = Csv.node_ids Inputs.open_state /\
    Csv.total_psd_columns st' = Csv.total_psd_columns Inputs.open_state.
Proof.
  apply (short_header_keeps_block_open Inputs.open_state
           ("$ACCE      0      333" ++ Inputs.nl) ("         1  1.0  0.5  2" ++ Inputs.nl)
           "ACCE-222-T1" [] (1 # 2)).
  - split; [left; reflexivity|reflexivity].
  - reflexivity.
  - reflexivity.
  - repeat split; reflexivity.
Defined.

(* ================================================================== *)
(** * The frequency scan and the data frame *)
(* ================================================================== *)

Lemma frequency_line_cases (st : Csv.pstate) (w : bool) (cb : option string) (line : string) :
  fst (fst (Csv.frequency_line (st, w, cb) line)) = st \/
  exists f, fst (fst (Csv.frequency_line (st, w, cb) line))
            = Csv.set_frequencies (Csv.Frequency (Csv.data_dict st) ++ [f])%list st.
Proof.
  unfold Csv.frequency_line.
  destruct (startswith line "$ACCE" || startswith line "$DISP"); [left; reflexivity|].
  destruct w; [|left; reflexivity].
  destruct (String.eqb (strip line) ""); [left; reflexivity|].
  destruct (4 <=? length (split line))%nat; [|left; reflexivity].
  destruct (py_float (Csv.nth_str 1 (split line))) as [f|]; [|left; reflexivity].
  destruct (existsb (Qeq_bool f) (Csv.Frequency (Csv.data_dict st))); [left; reflexivity|].
  right. exists f. reflexivity.
Qed.

Lemma scan_grows_refl (st : Csv.pstate) : scan_grows st st.
Proof. repeat split; auto. Qed.

Lemma scan_grows_trans (a b c : Csv.pstate) :
  scan_grows a b -> scan_grows b c -> scan_grows a c.
Proof.
  intros (A1 & A2 & A3 & A4) (B1 & B2 & B3 & B4). repeat split.
  - intros key Hk. rewrite (B1 key Hk). exact (A1 key Hk).
  - intros H. exact (B2 (A2 H)).
  - rewrite B3. exact A3.
  - lia.
Qed.

Lemma scan_grows_set (st : Csv.pstate) (f : Q) :
  scan_grows st (Csv.set_frequencies (Csv.Frequency (Csv.data_dict st) ++ [f])%list st).
Proof.
  repeat split.
  - intros key Hk. simpl. apply lookup_insert_ne. congruence.
  - intros _. simpl. rewrite lookup_insert_eq. discriminate.
  - rewrite Frequency_set_frequencies, length_app. simpl. lia.
Qed.

Lemma scan_grows_fold (lines : list string) :
  forall (st : Csv.pstate) (w : bool) (cb : option string),
    scan_grows st (fst (fst (fold_left Csv.frequency_line lines (st, w, cb)))).
Proof.
  induction lines as [|line lines IH]; intros st w cb.
  - apply scan_grows_refl.
  - cbn [fold_left].
    destruct (Csv.frequency_line (st, w, cb) line) as [[st1 w1] cb1] eqn:E.
    apply (scan_grows_trans _ st1); [|apply IH].
    destruct (frequency_line_cases st w cb line) as [H|[f H]]; rewrite E in H; simpl in H;
      rewrite H; [apply scan_grows_refl|apply scan_grows_set].
Qed.

Lemma extract_frequency_grows (st : Csv.pstate) (lines : list string) :
  let st' := Csv.extract_frequency st lines in
  (forall key, key <> "Frequency" -> Csv.data_dict st' !! key = Csv.data_dict st !! key) /\
  Csv.data_dict st' !! "Frequency" <> None /\
  Csv.node_ids st' = Csv.node_ids st /\
  (Csv.total_frequencies st' + length (Csv.Frequency (Csv.data_dict st))
   = Csv.total_frequencies st + length (Csv.Frequency (Csv.data_dict st')))%nat.
Proof.
  unfold Csv.extract_frequency.
  destruct (Csv.data_dict st !! "Frequency") as [fs|] eqn:E.
  - destruct (scan_grows_fold lines st false None) as (H1 & H2 & H3 & H4).
    repeat split; [exact H1| |exact H3|exact H4]. apply H2. rewrite E. discriminate.
  - set (st0 := Csv.set_dict _ st).
    destruct (scan_grows_fold lines st0 false None) as (H1 & H2 & H3 & H4).
    assert (E0 : Csv.Frequency (Csv.data_dict st) = []).
    { unfold Csv.Frequency. rewrite E. reflexivity. }
    assert (E1 : Csv.Frequency (Csv.data_dict st0) = []).
    { unfold Csv.Frequency, st0. simpl. rewrite lookup_insert_eq. reflexivity. }
    repeat split.
    + intros key Hk. rewrite (H1 key Hk). unfold st0. simpl.
      apply lookup_insert_ne. congruence.
    + apply H2. unfold st0. simpl. rewrite lookup_insert_eq. discriminate.
    + rewrite H3. reflexivity.
    + rewrite E0. rewrite E1 in H4. exact H4.
Qed.

Lemma process_line_total_frequencies (st st' : Csv.pstate) (line : string) :
  Csv.process_line st line = Some st' ->
  Csv.total_frequencies st' = Csv.total_frequencies st.
Proof.
  unfold Csv.process_line, Csv.open_block, Csv.data_row. intros H.
  repeat match type of H with
         | (if ?b then _ else _) = _ => destruct b
         | match ?o with Some _ => _ | None => _ end = _ => destruct o
         end;
    try discriminate; injection H as <-; reflexivity.
Qed.

Lemma process_data_blocks_total_frequencies (lines : list string) :
  forall st st' : Csv.pstate,
    Csv.process_data_blocks st lines = Some st' ->
    Csv.total_frequencies st' = Csv.total_frequencies st.
Proof.
  induction lines as [|line lines IH]; intros st st' H; simpl in H.
  - injection H as <-. reflexivity.
  - destruct (Csv.process_line st line) as [st1|] eqn:E; [|discriminate].
    rewrite (IH _ _ H). exact (process_line_total_frequencies _ _ _ E).
Qed.

(** X9.  After the two passes of [create_combined_data] the counter
    [total_frequencies] is the length of the frequency axis: the number of
    distinct frequencies of the data rows, not the number of rows. *)
Theorem total_frequencies_is_axis_length (lines : list string) (st1 : Csv.pstate) :
  Csv.process_data_blocks Csv.initial lines = Some st1 ->
  Csv.total_frequencies (Csv.extract_frequency st1 lines)
  = length (Csv.frequency_axis st1 lines).
Proof.
  intros H.
  destruct (extract_frequency_grows st1 lines) as (_ & _ & _ & H4).
  rewrite frequency_axis_sorted_scan, sort_by_length.
  rewrite (process_data_blocks_total_frequencies _ _ _ H) in H4.
  assert (E : Csv.Frequency (Csv.data_dict st1) = []).
  { unfold Csv.Frequency.
    rewrite (process_data_blocks_no_frequency _ _ _ H); reflexivity. }
  rewrite E in H4. simpl in H4. lia.
Qed.

Lemma total_frequencies_is_axis_length_witness :
  exists st1,
    Csv.process_data_blocks Csv.initial Inputs.two_channels = Some st1 /\
    Csv.total_frequencies (Csv.extract_frequency st1 Inputs.two_channels)
    = length (Csv.frequency_axis st1 Inputs.two_channels).
Proof.
  destruct (Csv.process_data_blocks Csv.initial Inputs.two_channels) as [st1|] eqn:E.
  - exists st1. split; [reflexivity|].
    exact (total_frequencies_is_axis_length Inputs.two_channels st1 E).
  - exfalso. vm_compute in E. discriminate E.
Defined.

(** ** Inputs without a channel header *)

Lemma no_header_blocks (lines : list string) :
  forall st : Csv.pstate,
    (forall line, In line lines ->
                  startswith line "$ACCE" = false /\ startswith line "$DISP" = false) ->
    Csv.current_header st = None ->
    exists st', Csv.process_data_blocks st lines = Some st' /\
                Csv.data_dict st' = Csv.data_dict st.
Proof.
  induction lines as [|line lines IH]; intros st Hno Hh.
  - exists st. split; reflexivity.
  - destruct (Hno line (or_introl eq_refl)) as [Ha Hd].
    cbn [Csv.process_data_blocks].
    rewrite (process_line_not_header _ _ Ha Hd), Hh.
    assert (Hrest : forall l, In l lines ->
                      startswith l "$ACCE" = false /\ startswith l "$DISP" = false).
    { intros l Hl. apply Hno. right. exact Hl. }
    destruct (nonblank line).
    + exact (IH st Hrest Hh).
    + destruct (IH (Csv.close_block st) Hrest eq_refl) as (st' & E & Hd').
      exists st'. split; [exact E|exact Hd'].
Qed.

Lemma no_header_scan (lines : list string) (st : Csv.pstate) :
  (forall line, In line lines ->
                startswith line "$ACCE" = false /\ startswith line "$DISP" = false) ->
  fold_left Csv.frequency_line lines (st, false, None) = (st, false, None).
Proof.
  induction lines as [|line lines IH]; intros Hno; [reflexivity|].
  destruct (Hno line (or_introl eq_refl)) as [Ha Hd].
  cbn [fold_left]. unfold Csv.frequency_line at 2. rewrite Ha, Hd. cbn [orb].
  apply IH. intros l Hl. apply Hno. right. exact Hl.
Qed.

(** X10.  An input in which no line starts with [$ACCE] or [$DISP] yields no
    table: the dictionary holds the empty ['Frequency'] column only, the data
    frame is empty, and [create_combined_data] returns [False] before
    anything is written. *)
Theorem no_header_no_table (lines : list string) :
  (forall line, In line lines ->
                startswith line "$ACCE" = false /\ startswith line "$DISP" = false) ->
  Csv.create_combined_data lines = None.
Proof.
  intros Hno.
  destruct (no_header_blocks lines Csv.initial Hno eq_refl) as (st1 & E & Hd).
  unfold Csv.create_combined_data. rewrite E.
  assert (Hd2 : Csv.data_dict (Csv.extract_frequency st1 lines)
                = <["Frequency" := []]> (∅ : gmap string (list Q))).
  { unfold Csv.extract_frequency. rewrite Hd. cbn [Csv.initial Csv.data_dict].
    rewrite lookup_empty, (no_header_scan _ _ Hno). reflexivity. }
  rewrite Hd2.
  assert (Hdf : Csv.DataFrame (Csv.sort_frequencies
                  (<["Frequency" := []]> (∅ : gmap string (list Q))))
                = Some (<["Frequency" := []]> ∅)) by (vm_compute; reflexivity).
  rewrite Hdf.
  assert (He : Csv.df_empty (<["Frequency" := []]> (∅ : gmap string (list Q))) = true)
    by (vm_compute; reflexivity).
  rewrite He. reflexivity.
Qed.

Lemma no_header_no_table_witness :
  Csv.create_combined_data ["$TITLE   =" ++ Inputs.nl; "         1  1.0  0.5  2" ++ Inputs.nl]
  = None.
Proof.
  apply (no_header_no_table
           ["$TITLE   =" ++ Inputs.nl; "         1  1.0  0.5  2" ++ Inputs.nl]).
  intros line [<-|[<-|[]]]; split; reflexivity.
Defined.

(** ** The data frame *)

Lemma DataFrame_lengths (d df : gmap string (list Q)) :
  Csv.DataFrame d = Some df ->
  df = d /\
  exists n, forall key values, d !! key = Some values -> length values = n.
Proof.
  unfold Csv.DataFrame. intros H.
  destruct (map_to_list d) as [|[k0 v0] rest] eqn:E.
  - injection H as <-. split; [reflexivity|]. exists 0%nat. intros key values Hk.
    apply elem_of_map_to_list in Hk. rewrite E in Hk. inversion Hk.
  - destruct (forallb _ rest) eqn:Ef; [|discriminate].
    injection H as <-. split; [reflexivity|]. exists (length v0). intros key values Hk.
    apply elem_of_map_to_list in Hk. rewrite E in Hk.
    apply elem_of_cons in Hk. destruct Hk as [Hk|Hk].
    + injection Hk as _ ->. reflexivity.
    + apply list_elem_of_In in Hk.
      apply (proj1 (forallb_forall _ _) Ef) in Hk. simpl in Hk.
      apply Nat.eqb_eq. exact Hk.
Qed.

Lemma df_not_empty (d : gmap string (list Q)) :
  Csv.df_empty d = false ->
  exists key values, d !! key = Some values /\ values <> [].
Proof.
  unfold Csv.df_empty. intros H.
  destruct (map_to_list d) as [|[k0 v0] rest] eqn:E; [discriminate|].
  exists k0, v0. split.
  - apply elem_of_map_to_list. rewrite E. apply elem_of_cons. left. reflexivity.
  - intros ->. discriminate.
Qed.

Lemma create_combined_data_inv (lines : list string) (t : table * table) :
  Csv.create_combined_data lines = Some t ->
  exists (st1 : Csv.pstate) (nodes : list string),
    Csv.process_data_blocks Csv.initial lines = Some st1 /\
    Csv.DataFrame (Csv.sort_frequencies (Csv.data_dict (Csv.extract_frequency st1 lines)))
    = Some (Csv.sort_frequencies (Csv.data_dict (Csv.extract_frequency st1 lines))) /\
    Csv.df_empty (Csv.sort_frequencies (Csv.data_dict (Csv.extract_frequency st1 lines)))
    = false /\
    Csv.sorted_nodes (Csv.node_ids st1) = Some nodes /\
    t = Csv.assemble
          (Csv.sort_frequencies (Csv.data_dict (Csv.extract_frequency st1 lines))) nodes.
Proof.
  unfold Csv.create_combined_data.
  destruct (Csv.process_data_blocks Csv.initial lines) as [st1|]; [|discriminate].
  destruct (Csv.DataFrame _) as [df|] eqn:Edf; [|discriminate].
  destruct (DataFrame_lengths _ _ Edf) as [Hdf _]. subst df.
  destruct (Csv.df_empty _) eqn:Ee; [discriminate|].
  destruct (extract_frequency_grows st1 lines) as (_ & _ & Hn & _). rewrite Hn.
  destruct (Csv.sorted_nodes _) as [nodes|] eqn:En; [|discriminate].
  intros H. injection H as <-. exists st1, nodes. auto.
Qed.

(** X11.  [create_combined_data] produces its tables only when the frequency
    axis is not empty and every channel holds exactly one value per frequency
    of the axis: otherwise [pd.DataFrame] raises on columns of unequal
    length, or the frame is empty.  A channel that holds fewer or more values
    than the axis has frequencies makes the whole run fail. *)
Theorem table_needs_full_channels (lines : list string) (t : table * table) :
  Csv.create_combined_data lines = Some t ->
  exists st1 : Csv.pstate,
    Csv.process_data_blocks Csv.initial lines = Some st1 /\
    Csv.frequency_axis st1 lines <> [] /\
    forall key values,
      Csv.data_dict st1 !! key = Some values ->
      length values = length (Csv.frequency_axis st1 lines).
Proof.
  intros H. destruct (create_combined_data_inv _ _ H) as (st1 & nodes & E & Hdf & He & _).
  exists st1. split; [exact E|].
  destruct (DataFrame_lengths _ _ Hdf) as [_ [n Hn]].
  destruct (extract_frequency_grows st1 lines) as (Hother & Hfreq & _).
  set (d2 := Csv.data_dict (Csv.extract_frequency st1 lines)) in *.
  destruct (d2 !! "Frequency") as [fs|] eqn:Efs; [|congruence].
  assert (Haxis : Csv.sort_frequencies d2 !! "Frequency" = Some (Csv.frequency_axis st1 lines)).
  { unfold Csv.frequency_axis, Csv.Frequency. fold d2.
    unfold Csv.sort_frequencies. rewrite Efs, lookup_insert_eq. reflexivity. }
  assert (Hlen : length (Csv.frequency_axis st1 lines) = n) by exact (Hn _ _ Haxis).
  split.
  - destruct (df_not_empty _ He) as (k & v & Hk & Hv).
    intros Hnil. apply Hv. apply length_zero_iff_nil.
    rewrite (Hn _ _ Hk), <- Hlen, Hnil. reflexivity.
  - intros key values Hk. rewrite Hlen. apply (Hn key).
    assert (Hne : key <> "Frequency").
    { intros ->. rewrite (process_data_blocks_no_frequency _ _ _ E) in Hk;
        [discriminate|reflexivity]. }
    unfold Csv.sort_frequencies. rewrite Efs.
    rewrite lookup_insert_ne by congruence.
    rewrite (Hother key Hne). exact Hk.
Qed.

Lemma table_needs_full_channels_witness :
  exists st1 : Csv.pstate,
    Csv.process_data_blocks Csv.initial Inputs.one_block = Some st1 /\
    Csv.frequency_axis st1 Inputs.one_block <> [] /\
    forall key values,
      Csv.data_dict st1 !! key = Some values ->
      length values = length (Csv.frequency_axis st1 Inputs.one_block).
Proof.
  destruct (Csv.create_combined_data Inputs.one_block) as [t|] eqn:E.
  - exact (table_needs_full_channels Inputs.one_block t E).
  - exfalso. vm_compute in E. discriminate E.
Defined.

(* ================================================================== *)
(** * Sorting by a key *)
(* ================================================================== *)

Section SortBy.
Context {A : Type} (lt : A -> A -> bool).
Hypothesis lt_asym : forall a b, lt a b = true -> lt b a = false.
Hypothesis le_trans : forall a b c, lt b a = false -> lt c b = false -> lt c a = false.

Lemma insert_by_ordered (x : A) (l : list A) :
  StronglySorted (fun a b => lt b a = false) l ->
  StronglySorted (fun a b => lt b a = false) (insert_by lt x l).
Proof.
  induction 1 as [|y l Hs IH Hall]; simpl.
  - constructor; constructor.
  - destruct (lt y x) eqn:E.
    + constructor; [exact IH|].
      apply (Permutation_Forall (Permutation_sym (insert_by_perm lt x l))).
      constructor; [exact (lt_asym _ _ E)|exact Hall].
    + constructor; [constructor; assumption|].
      constructor; [exact E|].
      eapply List.Forall_impl; [|exact Hall]. intros z Hz. simpl in Hz.
      exact (le_trans _ _ _ E Hz).
Qed.

Lemma sort_by_ordered (l : list A) :
  StronglySorted (fun a b => lt b a = false) (sort_by lt l).
Proof.
  induction l as [|x l IH]; simpl; [constructor|].
  apply insert_by_ordered. exact IH.
Qed.

End SortBy.

Lemma StronglySorted_map {A B : Type} (f : A -> B) (R : B -> B -> Prop) (l : list A) :
  StronglySorted (fun a b => R (f a) (f b)) l -> StronglySorted R (map f l).
Proof.
  induction 1 as [|x l Hs IH Hall]; simpl; constructor; [exact IH|].
  clear -Hall. induction Hall; simpl; constructor; assumption.
Qed.

(* ================================================================== *)
(** * The layout of the two tables *)
(* ================================================================== *)

Lemma key_lt_asym (a b : option Z) : Csv.key_lt a b = true -> Csv.key_lt b a = false.
Proof.
  destruct a as [m|], b as [n|]; simpl; try reflexivity; try discriminate.
  intros H. apply Z.ltb_lt in H. apply Z.ltb_ge. lia.
Qed.

Lemma key_le_trans (a b c : option Z) :
  Csv.key_lt b a = false -> Csv.key_lt c b = false -> Csv.key_lt c a = false.
Proof.
  destruct a as [m|], b as [n|], c as [k|]; simpl; try reflexivity; try discriminate.
  intros H1 H2. apply Z.ltb_ge in H1, H2. apply Z.ltb_ge. lia.
Qed.

Lemma keyed_spec (nodes : list string) :
  forall l, Csv.keyed nodes = Some l ->
            map snd l = nodes /\
            List.Forall (fun p => Csv.node_key (snd p) = Some (fst p)) l.
Proof.
  induction nodes as [|x nodes IH]; intros l H; simpl in H.
  - injection H as <-. split; [reflexivity|constructor].
  - destruct (Csv.node_key x) as [k|] eqn:Ek; [|discriminate].
    destruct (Csv.keyed nodes) as [r|]; [|discriminate].
    injection H as <-. destruct (IH r eq_refl) as [H1 H2].
    split; [simpl; rewrite H1; reflexivity|]. constructor; [exact Ek|exact H2].
Qed.

Lemma sorted_nodes_spec (ids : gset string) (nodes : list string) :
  Csv.sorted_nodes ids = Some nodes ->
  Permutation nodes (elements ids) /\
  exists keys, Forall2 (fun node key => Csv.node_key node = Some key) nodes keys /\
               StronglySorted (fun a b => Csv.key_lt b a = false) keys.
Proof.
  unfold Csv.sorted_nodes.
  destruct (Csv.keyed (elements ids)) as [l|] eqn:E; [|discriminate].
  intros H. injection H as <-.
  destruct (keyed_spec _ _ E) as [H1 H2].
  set (l' := sort_by (fun a b => Csv.key_lt (fst a) (fst b)) l).
  assert (Hp : Permutation l' l) by apply sort_by_perm.
  split; [rewrite <- H1; apply Permutation_map; exact Hp|].
  exists (map fst l'). split.
  - assert (H2' : List.Forall (fun p => Csv.node_key (snd p) = Some (fst p)) l')
      by exact (Permutation_Forall (Permutation_sym Hp) H2).
    clear -H2'. induction H2' as [|p r Hp Hr IH]; simpl; constructor; assumption.
  - apply StronglySorted_map with (R := fun a b => Csv.key_lt b a = false).
    apply (sort_by_ordered (fun a b => Csv.key_lt (fst a) (fst b))).
    + intros a b. apply key_lt_asym.
    + intros a b c. apply key_le_trans.
Qed.

(** X12.  The two tables that [create_combined_data] writes have the same
    layout: the 42 measurement names of the schema as rows, and one column
    [Node_<id>] per node id seen in a header, each with 42 cells.  The
    columns are in ascending order of the numeric node id, an id that is not
    a number coming after all numbers. *)
Theorem tables_layout (lines : list string) (acce disp : table) :
  Csv.create_combined_data lines = Some (acce, disp) ->
  exists (st1 : Csv.pstate) (nodes : list string) (keys : list (option Z)),
    Csv.process_data_blocks Csv.initial lines = Some st1 /\
    Permutation nodes (elements (Csv.node_ids st1)) /\
    Forall2 (fun node key => Csv.node_key node = Some key) nodes keys /\
    StronglySorted (fun a b => Csv.key_lt b a = false) keys /\
    Measurement acce = Csv.ACCE_MEASUREMENTS /\
    Measurement disp = Csv.DISP_MEASUREMENTS /\
    map fst (columns acce) = map (String.append "Node_") nodes /\
    map fst (columns disp) = map (String.append "Node_") nodes /\
    List.Forall (fun c => length (snd c) = 42%nat) (columns acce ++ columns disp).
Proof.
  intros H. destruct (create_combined_data_inv _ _ H) as (st1 & nodes & E & _ & _ & Hs & Ht).
  destruct (sorted_nodes_spec _ _ Hs) as [Hp [keys [Hk Hsorted]]].
  exists st1, nodes, keys.
  unfold Csv.assemble in Ht. injection Ht as -> ->.
  repeat split; try assumption.
  - simpl. rewrite map_map. reflexivity.
  - simpl. rewrite map_map. reflexivity.
  - apply List.Forall_app. split; apply List.Forall_forall; intros c Hc; simpl in Hc;
      apply in_map_iff in Hc; destruct Hc as [n [<- _]]; reflexivity.
Qed.

Lemma tables_layout_witness :
  exists (acce disp : table),
    Csv.create_combined_data Inputs.one_block = Some (acce, disp) /\
    Measurement acce = Csv.ACCE_MEASUREMENTS /\
    Measurement disp = Csv.DISP_MEASUREMENTS /\
    map fst (columns acce) = map fst (columns disp).
Proof.
  destruct (Csv.create_combined_data Inputs.one_block) as [[acce disp]|] eqn:E.
  - exists acce, disp. split; [reflexivity|].
    destruct (tables_layout Inputs.one_block acce disp E)
      as (st1 & nodes & keys & _ & _ & _ & _ & Ha & Hd & Hca & Hcd & _).
    split; [exact Ha|]. split; [exact Hd|]. rewrite Hca, Hcd. reflexivity.
  - exfalso. vm_compute in E. discriminate E.
Defined.

(** ** The cells of a channel that is in the data frame *)

Lemma entries_present (df : gmap string (list Q)) (dof key name : string) (absent : cell)
  (rest : list (string * cell)) (values : list Q) :
  df !! key = Some values ->
  find (fun e => String.eqb (fst e) name) (Csv.channel_entries df dof key absent ++ rest)
  = find (fun e => String.eqb (fst e) name)
         (Csv.present_entries dof (trapz values (Csv.Frequency df))
            (Csv.find_top_three_local_maxima (Csv.Frequency df) values) ++ rest).
Proof.
  intros H. unfold Csv.channel_entries. rewrite H. reflexivity.
Qed.

Ltac lookup_present H :=
  rewrite cell_at_transposed by (assumption || (apply existsb_In_string; reflexivity));
  match goal with
  | |- context [option_map fst (find ?p (Csv.name_mapping ?k ?m))] =>
      let t := eval vm_compute in (option_map fst (find p (Csv.name_mapping k m))) in
      change (option_map fst (find p (Csv.name_mapping k m))) with t
  end;
  cbv beta iota;
  unfold Csv.acce_node_data, Csv.disp_node_data, Csv.dof_types; cbn [flat_map];
  repeat (rewrite entries_skip by reflexivity);
  rewrite (entries_present _ _ _ _ _ _ _ H);
  reflexivity.

(** X13.  For a node of the table and a degree of freedom whose channel is
    in the data frame, the seven cells of the channel hold: the trapezoidal
    integral of the channel's values over the frequency axis, and, for rank
    1, 2 and 3, the frequency and the value of the peak of that rank returned
    by [find_top_three_local_maxima], or a missing cell when fewer peaks were
    returned.  This holds for the acceleration and for the displacement
    table. *)
Theorem present_channel_cells (df : gmap string (list Q)) (nodes : list string)
  (node dof : string) (values : list Q) (rank : nat) :
  In node nodes -> In dof Csv.dof_types -> In rank [1; 2; 3]%nat ->
  let peaks := Csv.find_top_three_local_maxima (Csv.Frequency df) values in
  let area := Num (trapz values (Csv.Frequency df)) in
  (df !! ("ACCE-" ++ node ++ "-" ++ dof) = Some values ->
   cell_at (fst (Csv.assemble df nodes)) ("ACCE_" ++ dof ++ "_Area") ("Node_" ++ node)
   = Some area /\
   cell_at (fst (Csv.assemble df nodes))
           ("ACCE_" ++ dof ++ "_Frequency_" ++ Csv.str_of_nat rank) ("Node_" ++ node)
   = Some (Csv.maxima_frequency peaks rank) /\
   cell_at (fst (Csv.assemble df nodes))
           ("ACCE_" ++ dof ++ "_PSD_" ++ Csv.str_of_nat rank) ("Node_" ++ node)
   = Some (Csv.maxima_psd peaks rank)) /\
  (df !! ("DISP-" ++ node ++ "-" ++ dof) = Some values ->
   cell_at (snd (Csv.assemble df nodes)) ("DISP_" ++ dof ++ "_Area") ("Node_" ++ node)
   = Some area /\
   cell_at (snd (Csv.assemble df nodes))
           ("DISP_" ++ dof ++ "_Frequency_" ++ Csv.str_of_nat rank) ("Node_" ++ node)
   = Some (Csv.maxima_frequency peaks rank) /\
   cell_at (snd (Csv.assemble df nodes))
           ("DISP_" ++ dof ++ "_DISP_" ++ Csv.str_of_nat rank) ("Node_" ++ node)
   = Some (Csv.maxima_psd peaks rank)).
Proof.
  intros Hnode Hdof Hrank peaks area. subst peaks area.
  cbn in Hdof, Hrank. split.
  - intros H. unfold Csv.assemble. cbn [fst].
    repeat (destruct Hdof as [<-|Hdof]); try (exfalso; exact Hdof);
      repeat (destruct Hrank as [<-|Hrank]); try (exfalso; exact Hrank);
      (split; [|split]); lookup_present H.
  - intros H. unfold Csv.assemble. cbn [snd].
    repeat (destruct Hdof as [<-|Hdof]); try (exfalso; exact Hdof);
      repeat (destruct Hrank as [<-|Hrank]); try (exfalso; exact Hrank);
      (split; [|split]); lookup_present H.
Qed.

Lemma present_channel_cells_witness :
  cell_at (fst (Csv.assemble Inputs.one_channel_frame ["222"])) "ACCE_T1_Area" "Node_222"
  = Some (Num (trapz [1 # 2; 3 # 2; 1 # 5]%Q (Csv.Frequency Inputs.one_channel_frame))).
Proof.
  apply (present_channel_cells Inputs.one_channel_frame ["222"] "222" "T1"
           [1 # 2; 3 # 2; 1 # 5]%Q 1).
  - left. reflexivity.
  - left. reflexivity.
  - left. reflexivity.
  - reflexivity.
Defined.

(* ================================================================== *)
(** * The three reported peaks *)
(* ================================================================== *)

Lemma In_firstn_full {A : Type} (k : nat) (l : list A) (x : A) :
  In x (firstn k l) -> In x l.
Proof.
  intros H. rewrite <- (firstn_skipn k l). apply in_or_app. left. exact H.
Qed.

Lemma insert_by_map {A B : Type} (f : A -> B) (lt : B -> B -> bool) (x : A) (l : list A) :
  insert_by lt (f x) (map f l) = map f (insert_by (fun a b => lt (f a) (f b)) x l).
Proof.
  induction l as [|y l IH]; simpl; [reflexivity|].
  destruct (lt (f y) (f x)); simpl; [rewrite IH|]; reflexivity.
Qed.

Lemma sort_by_map {A B : Type} (f : A -> B) (lt : B -> B -> bool) (l : list A) :
  sort_by lt (map f l) = map f (sort_by (fun a b => lt (f a) (f b)) l).
Proof.
  induction l as [|x l IH]; simpl; [reflexivity|].
  fold (sort_by lt (map f l)). rewrite IH. apply insert_by_map.
Qed.

Lemma fill_firstn (frequencies psd_values : list Q) (indices : list nat) :
  forall acc : list (Q * Q),
    Csv.fill frequencies psd_values acc indices
    = (acc ++ map (fun i => (nth i frequencies 0%Q, nth i psd_values 0%Q))
                  (firstn (3 - length acc) indices))%list.
Proof.
  induction indices as [|idx rest IH]; intros acc; cbn [Csv.fill].
  - rewrite firstn_nil, app_nil_r. reflexivity.
  - destruct (3 <=? length acc)%nat eqn:E.
    + apply Nat.leb_le in E. replace (3 - length acc)%nat with 0%nat by lia.
      rewrite app_nil_r. reflexivity.
    + apply Nat.leb_gt in E. rewrite IH, length_app. cbn [length].
      destruct (3 - length acc)%nat as [|k] eqn:Ek; [lia|].
      replace (3 - (length acc + 1))%nat with k by lia.
      cbn [firstn map]. rewrite <- app_assoc. reflexivity.
Qed.

Lemma maxima_mask_length (psd_values : list Q) :
  length (Csv.maxima_mask psd_values) = length psd_values.
Proof.
  unfold Csv.maxima_mask.
  destruct (existsb _ _); [|rewrite mark_length];
    unfold Csv.local_maxima_mask; rewrite length_map, length_seq; reflexivity.
Qed.

Lemma np_where_spec (mask : list bool) (i : nat) :
  In i (Csv.np_where mask) <-> (i < length mask)%nat /\ nth i mask false = true.
Proof.
  unfold Csv.np_where. rewrite filter_In, in_seq. split; intros [H1 H2]; split; auto; lia.
Qed.

Lemma np_where_NoDup (mask : list bool) : List.NoDup (Csv.np_where mask).
Proof. apply List.NoDup_filter, seq_NoDup. Qed.

Lemma nth_negb (mask : list bool) (i : nat) :
  (i < length mask)%nat -> nth i (map negb mask) false = negb (nth i mask false).
Proof.
  intros H. rewrite (nth_indep _ false (negb false)) by (rewrite length_map; exact H).
  apply map_nth.
Qed.

Lemma np_where_split (mask : list bool) :
  (length (Csv.np_where mask) + length (Csv.np_where (map negb mask)) = length mask)%nat.
Proof.
  unfold Csv.np_where. rewrite length_map.
  rewrite (filter_ext_in (fun i => nth i (map negb mask) false)
                         (fun i => negb (nth i mask false))).
  - rewrite List.filter_length, length_seq. reflexivity.
  - intros i Hi. apply in_seq in Hi. apply nth_negb. lia.
Qed.

Lemma candidates_indices (frequencies psd_values : list Q) :
  Csv.candidates frequencies psd_values
  = map (fun i => (nth i frequencies 0%Q, nth i psd_values 0%Q))
        (candidate_indices psd_values).
Proof.
  unfold Csv.candidates, candidate_indices. cbv zeta.
  rewrite length_map, map_app.
  destruct (length (Csv.np_where (Csv.maxima_mask psd_values)) <? 3)%nat eqn:E.
  - rewrite fill_firstn, length_map. reflexivity.
  - apply Nat.ltb_ge in E.
    replace (3 - length (Csv.np_where (Csv.maxima_mask psd_values)))%nat with 0%nat by lia.
    simpl. rewrite app_nil_r. reflexivity.
Qed.

Lemma map_nth_seq (l : list nat) :
  map (fun k => nth k l 0%nat) (seq 0 (length l)) = l.
Proof.
  apply nth_ext with (d := 0%nat) (d' := 0%nat).
  - rewrite length_map, length_seq. reflexivity.
  - intros n Hn. rewrite length_map, length_seq in Hn.
    rewrite nth_map_seq by exact Hn. reflexivity.
Qed.

Lemma sorted_indices_perm (psd_values : list Q) (l : list nat) :
  Permutation
    (rev (map (fun k => nth k l 0%nat)
              (argsort (map (fun i => nth i psd_values 0%Q) l))))
    l.
Proof.
  rewrite <- Permutation_rev.
  transitivity (map (fun k => nth k l 0%nat) (seq 0 (length l)));
    [|rewrite map_nth_seq; reflexivity].
  apply Permutation_map.
  pose proof (argsort_perm (map (fun i => nth i psd_values 0%Q) l)) as P.
  rewrite length_map in P. exact P.
Qed.

Lemma candidate_indices_spec (psd_values : list Q) :
  List.NoDup (candidate_indices psd_values) /\
  (forall i, In i (candidate_indices psd_values) -> (i < length psd_values)%nat) /\
  (Nat.min 3 (length psd_values) <= length (candidate_indices psd_values))%nat.
Proof.
  unfold candidate_indices. cbv zeta.
  set (mask := Csv.maxima_mask psd_values).
  set (W := Csv.np_where mask).
  set (W' := Csv.np_where (map negb mask)).
  set (R := rev _).
  assert (HR : Permutation R W') by apply sorted_indices_perm.
  assert (Hlen : length mask = length psd_values) by apply maxima_mask_length.
  assert (Hsplit : (length W + length W' = length psd_values)%nat).
  { rewrite <- Hlen. apply np_where_split. }
  assert (HRnd : List.NoDup R).
  { eapply Permutation_NoDup; [symmetry; exact HR|apply np_where_NoDup]. }
  split; [|split].
  - apply List.NoDup_app; [apply np_where_NoDup| |].
    + rewrite <- (firstn_skipn (3 - length W) R) in HRnd.
      apply NoDup_app_remove_r in HRnd. exact HRnd.
    + intros i Hi Hi'. apply np_where_spec in Hi. destruct Hi as [Hlt Hi].
      apply In_firstn_full in Hi'. apply (Permutation_in _ HR) in Hi'.
      apply np_where_spec in Hi'. destruct Hi' as [_ Hi'].
      rewrite nth_negb in Hi' by exact Hlt. rewrite Hi in Hi'. discriminate.
  - intros i Hi. apply in_app_or in Hi. destruct Hi as [Hi|Hi].
    + apply np_where_spec in Hi. lia.
    + apply In_firstn_full in Hi. apply (Permutation_in _ HR) in Hi.
      apply np_where_spec in Hi. rewrite length_map in Hi. lia.
  - rewrite length_app, length_firstn, (Permutation_length HR). lia.
Qed.

Lemma top_three_ascending (frequencies psd_values : list Q) :
  StronglySorted (fun a b => (fst a <= fst b)%Q)
                 (Csv.find_top_three_local_maxima frequencies psd_values).
Proof.
  unfold Csv.find_top_three_local_maxima. set (top := firstn 3 _).
  assert (Hs : StronglySorted (fun a b : Q * Q => Qltb (fst b) (fst a) = false)
                 (sort_by (fun a b => Qltb (fst a) (fst b)) top)).
  { apply sort_by_ordered.
    - intros a b H. apply Qltb_lt in H. apply Qltb_ge. apply Qlt_le_weak. exact H.
    - intros a b c H1 H2. apply Qltb_ge in H1, H2. apply Qltb_ge.
      eapply Qle_trans; eassumption. }
  induction Hs as [|x l Hs IH Hall]; constructor; [exact IH|].
  eapply List.Forall_impl; [|exact Hall]. intros y Hy. apply Qltb_ge. exact Hy.
Qed.

(** X14.  For a series of N samples [find_top_three_local_maxima] returns
    min(3, N) points.  Each is a sample of the series (the frequency and the
    value at one index), no index is reported twice, and the points are in
    ascending order of frequency. *)
Theorem top_three_are_samples (frequencies psd_values : list Q) :
  length frequencies = length psd_values ->
  exists indices : list nat,
    Csv.find_top_three_local_maxima frequencies psd_values
    = map (fun i => (nth i frequencies 0%Q, nth i psd_values 0%Q)) indices /\
    length indices = Nat.min 3 (length psd_values) /\
    List.NoDup indices /\
    (forall i, In i indices -> (i < length psd_values)%nat) /\
    StronglySorted (fun a b => (fst a <= fst b)%Q)
                   (Csv.find_top_three_local_maxima frequencies psd_values).
Proof.
  intros _.
  destruct (candidate_indices_spec psd_values) as (Hnd & Hr & Hmin).
  pose proof (top_three_ascending frequencies psd_values) as Hs. revert Hs.
  unfold Csv.find_top_three_local_maxima.
  rewrite candidates_indices, sort_by_map, firstn_map, sort_by_map.
  set (point := fun i : nat => (nth i frequencies 0%Q, nth i psd_values 0%Q)).
  set (by_value := sort_by _ (candidate_indices psd_values)).
  set (indices := sort_by _ (firstn 3 by_value)).
  intros Hs.
  assert (P1 : Permutation by_value (candidate_indices psd_values)) by apply sort_by_perm.
  assert (P2 : Permutation indices (firstn 3 by_value)) by apply sort_by_perm.
  assert (Hsub : forall i, In i indices -> In i (candidate_indices psd_values)).
  { intros i Hi. apply (Permutation_in _ P2) in Hi. apply In_firstn_full in Hi.
    exact (Permutation_in _ P1 Hi). }
  assert (Hle : (length (candidate_indices psd_values) <= length psd_values)%nat).
  { pose proof (NoDup_incl_length (l' := seq 0 (length psd_values)) Hnd) as H.
    rewrite length_seq in H. apply H.
    intros i Hi. apply in_seq. pose proof (Hr i Hi). lia. }
  exists indices. split; [reflexivity|]. split; [|split; [|split]].
  - rewrite (Permutation_length P2), length_firstn, (Permutation_length P1). lia.
  - eapply Permutation_NoDup; [symmetry; exact P2|].
    assert (Hnd1 : List.NoDup by_value).
    { eapply Permutation_NoDup; [symmetry; exact P1|exact Hnd]. }
    rewrite <- (firstn_skipn 3 by_value) in Hnd1.
    apply NoDup_app_remove_r in Hnd1. exact Hnd1.
  - intros i Hi. exact (Hr i (Hsub i Hi)).
  - exact Hs.
Qed.

Lemma top_three_are_samples_witness :
  exists indices : list nat,
    Csv.find_top_three_local_maxima [1; 2; 3; 4]%Q [5; 1; 7; 2]%Q
    = map (fun i => (nth i [1; 2; 3; 4]%Q 0%Q, nth i [5; 1; 7; 2]%Q 0%Q)) indices /\
    length indices = 3%nat.
Proof.
  destruct (top_three_are_samples [1; 2; 3; 4]%Q [5; 1; 7; 2]%Q eq_refl)
    as (indices & H1 & H2 & _).
  exists indices. split; [exact H1|exact H2].
Defined.

(* ================================================================== *)
(** * Number literals: [nastran_float] extends [float] *)
(* ================================================================== *)

(** X15.  Every literal that [float] accepts is left unchanged by the three
    rewrites of [nastran_float], apart from the surrounding white space, and
    [nastran_float] returns the value [float] returns for it, with or without
    an exponent marker.  The rewrites only ever fire on tokens that [float]
    rejects. *)
Theorem nastran_float_extends_float (s : string) (q : Q) :
  py_float s = Some q ->
  Db.nastran_rewrite s = strip s /\ Db.nastran_float s = Some q.
Proof.
  intros Hq.
  assert (E : Db.sub_int (Db.sub_frac (Db.sub_dot (strip_chars (list_ascii_of_string s))))
              = strip_chars (list_ascii_of_string s)).
  { set (l0 := strip_chars (list_ascii_of_string s)).
    destruct (nastran_rewrites l0) as [E|[Hb _]]; cbv beta in *; [exact E|].
    exfalso. unfold py_float, float_chars in Hq. fold l0 in Hq.
    rewrite (bare_sign_rejected l0 f_init Hb) in Hq. discriminate. }
  split.
  - unfold Db.nastran_rewrite, strip. rewrite E. reflexivity.
  - rewrite nastran_float_chars, E, strip_chars_idempotent. exact Hq.
Qed.

Lemma nastran_float_extends_float_witness :
  Db.nastran_rewrite " -2.5 " = strip " -2.5 " /\ Db.nastran_float " -2.5 " = Some (- (5 # 2))%Q.
Proof.
  apply (nastran_float_extends_float " -2.5 " (- (5 # 2))%Q).
  vm_compute. reflexivity.
Defined.

(* ================================================================== *)
(** * The database parser: failures and stored series *)
(* ================================================================== *)

Lemma db_open_block_fails (ty : Db.data_type) (st : Db.dstate) (line : string) :
  Db.open_block ty st line = None <->
  (5 <=? length (split line))%nat
  && match py_int (nth 2 (split line) ""), py_int (nth 3 (split line) "") with
     | Some _, Some _ => false
     | _, _ => true
     end = true.
Proof.
  unfold Db.open_block. destruct (5 <=? length (split line))%nat; simpl.
  - destruct (py_int (nth 2 (split line) "")), (py_int (nth 3 (split line) ""));
      split; intros H; try discriminate; reflexivity.
  - split; discriminate.
Qed.

Lemma db_parse_line_fails (st : Db.dstate) (line : string) :
  Db.parse_line st line = None <-> Props.bad_db_header line = true.
Proof.
  unfold Db.parse_line, Props.bad_db_header.
  destruct (startswith line "$ACCE"); simpl; [apply db_open_block_fails|].
  destruct (startswith line "$DISP"); simpl; [apply db_open_block_fails|].
  split; [|discriminate].
  destruct (startswith line "$"); [discriminate|].
  destruct (Db.current_type st); [destruct (nonblank line)|]; discriminate.
Qed.

Lemma db_parse_lines_fails (lines : list string) :
  forall st, Db.parse_lines st lines = None <-> existsb Props.bad_db_header lines = true.
Proof.
  induction lines as [|line lines IH]; intros st; simpl.
  - split; discriminate.
  - destruct (Db.parse_line st line) as [st'|] eqn:E.
    + rewrite (IH st'). destruct (Props.bad_db_header line) eqn:Eb; [|reflexivity].
      apply (db_parse_line_fails st line) in Eb. congruence.
    + apply db_parse_line_fails in E. rewrite E. split; reflexivity.
Qed.

(** X16.  [parse_pch_file] raises exactly when some line starts with [$ACCE]
    or [$DISP], has at least five tokens, and its node id (token 2) or its
    DOF code (token 3) is not an integer literal.  Unlike the CSV script,
    which keeps the node id as text, it fails on a node id that is not a
    number.  Data rows never make it fail. *)
Theorem parse_pch_file_fails_iff (lines : list string) :
  Db.parse_pch_file lines = None <-> existsb Props.bad_db_header lines = true.
Proof.
  unfold Db.parse_pch_file. rewrite <- (db_parse_lines_fails lines Db.initial).
  destruct (Db.parse_lines Db.initial lines); split; intros H; try discriminate; reflexivity.
Qed.

Lemma stored_insert (st : Db.dstate) (m : gmap (Z * string) nat) (node : Z) (dof : string) :
  stored st m ->
  (Db.current_data st < Db.next st)%nat ->
  Db.deref st (Db.current_data st) <> [] -> node <> 0%Z -> dof <> "" ->
  stored st (<[(node, dof) := Db.current_data st]> m).
Proof.
  intros Hm Hc Hd Hn Hdof key a Hk.
  destruct (decide ((node, dof) = key)) as [<-|Hne].
  - rewrite lookup_insert_eq in Hk. injection Hk as <-. simpl. auto.
  - rewrite lookup_insert_ne in Hk by exact Hne. exact (Hm key a Hk).
Qed.

Lemma save_block_inv (st : Db.dstate) : db_inv st -> db_inv (Db.save_block st).
Proof.
  intros (Hc & Ha & Hd). unfold Db.save_block.
  destruct (Db.current_type st) as [ty|]; [|exact (conj Hc (conj Ha Hd))].
  destruct (Db.current_node st) as [node|]; [|exact (conj Hc (conj Ha Hd))].
  destruct (Db.current_dof st) as [dof|]; [|exact (conj Hc (conj Ha Hd))].
  destruct (negb (node =? 0)%Z && negb (String.eqb dof "")
            && negb (length (Db.deref st (Db.current_data st)) =? 0)%nat) eqn:E;
    [|exact (conj Hc (conj Ha Hd))].
  apply andb_true_iff in E. destruct E as [E E3].
  apply andb_true_iff in E. destruct E as [E1 E2].
  apply negb_true_iff in E1, E2, E3.
  apply Z.eqb_neq in E1. apply String.eqb_neq in E2. apply Nat.eqb_neq in E3.
  assert (Hne : Db.deref st (Db.current_data st) <> []).
  { intros H. apply E3. rewrite H. reflexivity. }
  assert (Hs : forall m, stored st m ->
                 stored st (<[(node, dof) := Db.current_data st]> m)).
  { intros m Hm. apply stored_insert; assumption. }
  destruct ty; (split; [exact Hc|]); split; simpl.
  - intros key a Hk. exact (Hs _ Ha key a Hk).
  - exact Hd.
  - exact Ha.
  - intros key a Hk. exact (Hs _ Hd key a Hk).
Qed.

Lemma stored_alloc (st st' : Db.dstate) (m : gmap (Z * string) nat) :
  Db.store st' = <[Db.next st := []]> (Db.store st) ->
  Db.next st' = S (Db.next st) ->
  stored st m -> stored st' m.
Proof.
  intros Hs Hn Hm key a Hk. destruct (Hm key a Hk) as (H1 & H2 & H3 & H4).
  repeat split; [rewrite Hn; lia| |exact H3|exact H4].
  unfold Db.deref in *. rewrite Hs, lookup_insert_ne by lia. exact H2.
Qed.

Lemma open_block_inv (ty : Db.data_type) (st st' : Db.dstate) (line : string) :
  db_inv st -> Db.open_block ty st line = Some st' -> db_inv st'.
Proof.
  intros (Hc & Ha & Hd). unfold Db.open_block.
  destruct (5 <=? length (split line))%nat.
  - destruct (py_int (nth 2 (split line) "")) as [node|]; [|discriminate].
    destruct (py_int (nth 3 (split line) "")) as [dof_num|]; [|discriminate].
    intros H. injection H as <-. split; [simpl; lia|].
    split; (apply (stored_alloc st); [reflexivity|reflexivity|assumption]).
  - intros H. injection H as <-. exact (conj Hc (conj Ha Hd)).
Qed.

Lemma close_block_inv (st : Db.dstate) : db_inv st -> db_inv (Db.close_block st).
Proof.
  intros (Hc & Ha & Hd). split; [simpl; lia|].
  split; (apply (stored_alloc st); [reflexivity|reflexivity|assumption]).
Qed.

Lemma data_line_inv (st : Db.dstate) (line : string) :
  db_inv st -> db_inv (Db.data_line st line).
Proof.
  intros (Hc & Ha & Hd). unfold Db.data_line.
  destruct (3 <=? length (split line))%nat; [|exact (conj Hc (conj Ha Hd))].
  destruct (py_float (nth 1 (split line) "")) as [f|]; [|exact (conj Hc (conj Ha Hd))].
  destruct (py_float (nth 2 (split line) "")) as [v|]; [|exact (conj Hc (conj Ha Hd))].
  assert (Hs : forall m, stored st m ->
                 forall key a, m !! key = Some a ->
                   (a < Db.next st)%nat /\
                   default [] (<[Db.current_data st :=
                                   (Db.deref st (Db.current_data st) ++ [(f, v)])%list]>
                                 (Db.store st) !! a) <> [] /\
                   fst key <> 0%Z /\ snd key <> "").
  { intros m Hm key a Hk. destruct (Hm key a Hk) as (H1 & H2 & H3 & H4).
    repeat split; [exact H1| |exact H3|exact H4].
    destruct (decide (Db.current_data st = a)) as [<-|Hne].
    - rewrite lookup_insert_eq. simpl. intros H. apply app_eq_nil in H.
      destruct H as [_ H]. discriminate.
    - rewrite lookup_insert_ne by exact Hne. exact H2. }
  split; [exact Hc|]. split; intros key a Hk; [exact (Hs _ Ha key a Hk)|exact (Hs _ Hd key a Hk)].
Qed.

Lemma parse_line_inv (st st' : Db.dstate) (line : string) :
  db_inv st -> Db.parse_line st line = Some st' -> db_inv st'.
Proof.
  intros Hi. unfold Db.parse_line.
  destruct (startswith line "$ACCE"); [apply open_block_inv, save_block_inv, Hi|].
  destruct (startswith line "$DISP"); [apply open_block_inv, save_block_inv, Hi|].
  destruct (startswith line "$").
  - intros H. injection H as <-. apply close_block_inv, save_block_inv, Hi.
  - destruct (Db.current_type st); [destruct (nonblank line)|];
      intros H; injection H as <-; [apply data_line_inv| |]; exact Hi.
Qed.

Lemma parse_lines_inv (lines : list string) :
  forall st st', db_inv st -> Db.parse_lines st lines = Some st' -> db_inv st'.
Proof.
  induction lines as [|line lines IH]; intros st st' Hi H; simpl in H.
  - injection H as <-. exact Hi.
  - destruct (Db.parse_line st line) as [st1|] eqn:E; [|discriminate].
    exact (IH _ _ (parse_line_inv _ _ _ Hi E) H).
Qed.

Lemma initial_inv : db_inv Db.initial.
Proof.
  split; [simpl; lia|]. split; intros key a Hk; simpl in Hk; rewrite lookup_empty in Hk;
    discriminate.
Qed.

(** X17.  Every series in the dictionary that [parse_pch_file] returns holds
    at least one (frequency, value) pair, and its key has a node id other
    than 0: a block without a valid data row, like a block of node 0, is
    dropped by the truth test that guards the assignment. *)
Theorem parse_pch_file_stores_nonempty (lines : list string) (d : Db.pch_data)
  (node : Z) (dof : string) (series : list (Q * Q)) :
  Db.parse_pch_file lines = Some d ->
  Db.data_acceleration d !! (node, dof) = Some series
  \/ Db.data_displacement d !! (node, dof) = Some series ->
  series <> [] /\ node <> 0%Z /\ dof <> "".
Proof.
  unfold Db.parse_pch_file.
  destruct (Db.parse_lines Db.initial lines) as [st|] eqn:E; [|discriminate].
  intros H. injection H as <-. simpl.
  destruct (save_block_inv _ (parse_lines_inv _ _ _ initial_inv E)) as (_ & Ha & Hd).
  rewrite !lookup_fmap.
  intros [H|H].
  - destruct (Db.acce (Db.save_block st) !! (node, dof)) as [a|] eqn:Ek; [|discriminate].
    simpl in H. injection H as <-. destruct (Ha _ _ Ek) as (_ & H2 & H3 & H4). auto.
  - destruct (Db.disp (Db.save_block st) !! (node, dof)) as [a|] eqn:Ek; [|discriminate].
    simpl in H. injection H as <-. destruct (Hd _ _ Ek) as (_ & H2 & H3 & H4). auto.
Qed.

Lemma parse_pch_file_stores_nonempty_witness :
  exists d, Db.parse_pch_file Inputs.one_block = Some d /\
            [(1, 1 # 2); (2, 3 # 2); (3, 1 # 5)]%Q <> [] /\ 222%Z <> 0%Z /\ "T1" <> "".
Proof.
  destruct (Db.parse_pch_file Inputs.one_block) as [d|] eqn:E.
  - exists d. split; [reflexivity|].
    apply (parse_pch_file_stores_nonempty Inputs.one_block d 222 "T1"
             [(1, 1 # 2); (2, 3 # 2); (3, 1 # 5)]%Q E).
    left. revert E. unfold Db.parse_pch_file.
    destruct (Db.parse_lines Db.initial Inputs.one_block) as [st|] eqn:E1; [|discriminate].
    intros E. injection E as <-. simpl. rewrite lookup_fmap.
    revert E1. vm_compute. intros E1. injection E1 as <-. reflexivity.
  - exfalso. vm_compute in E. discriminate E.
Defined.

(* ================================================================== *)
(** * The peaks and the area of the database script *)
(* ================================================================== *)

Lemma find_peaks_unfold (series : list (Q * Q)) (n : nat) :
  Db.find_peaks series n
  = firstn n (sort_by (fun a b => Qltb (snd b) (snd a)) (Db.local_maxima series)).
Proof. destruct series; [destruct n|]; reflexivity. Qed.

Lemma local_maxima_spec (series : list (Q * Q)) (p : Q * Q) :
  In p (Db.local_maxima series) <->
  exists i, Props.strict_peak series i /\ nth i series (0%Q, 0%Q) = p.
Proof.
  unfold Db.local_maxima, Props.strict_peak. rewrite in_flat_map. split.
  - intros (i & Hi & Hp). apply in_seq in Hi.
    destruct (Qltb (snd (nth (i - 1) series (0%Q, 0%Q))) (snd (nth i series (0%Q, 0%Q))))
      eqn:E1; [|destruct Hp].
    destruct (Qltb (snd (nth (i + 1) series (0%Q, 0%Q))) (snd (nth i series (0%Q, 0%Q))))
      eqn:E2; [|destruct Hp].
    simpl in Hp. destruct Hp as [<-|[]]. exists i.
    apply Qltb_lt in E1, E2. repeat split; try assumption; lia.
  - intros (i & (H1 & H2 & H3 & H4) & Hp). exists i. split; [apply in_seq; lia|].
    apply Qltb_lt in H3, H4. rewrite H3, H4. left. exact Hp.
Qed.

Lemma StronglySorted_firstn {A : Type} (R : A -> A -> Prop) (n : nat) (l : list A) :
  StronglySorted R l -> StronglySorted R (firstn n l).
Proof.
  intros H. revert n. induction H as [|x l Hs IH Hall]; intros [|n]; simpl;
    constructor; [apply IH|].
  apply List.Forall_forall. intros y Hy. apply In_firstn_full in Hy.
  exact (proj1 (List.Forall_forall _ _) Hall y Hy).
Qed.

Lemma descending_by_value (l : list (Q * Q)) :
  StronglySorted (fun a b => (snd b <= snd a)%Q)
                 (sort_by (fun a b => Qltb (snd b) (snd a)) l).
Proof.
  assert (Hs : StronglySorted (fun a b : Q * Q => Qltb (snd a) (snd b) = false)
                 (sort_by (fun a b => Qltb (snd b) (snd a)) l)).
  { apply (sort_by_ordered (fun a b : Q * Q => Qltb (snd b) (snd a))).
    - intros a b H. apply Qltb_lt in H. apply Qltb_ge. apply Qlt_le_weak. exact H.
    - intros a b c H1 H2. apply Qltb_ge in H1, H2. apply Qltb_ge.
      eapply Qle_trans; eassumption. }
  induction Hs as [|x r Hs IH Hall]; constructor; [exact IH|].
  eapply List.Forall_impl; [|exact Hall]. intros y Hy. apply Qltb_ge. exact Hy.
Qed.

(** X18.  [find_peaks] returns at most [n_peaks] points, in descending order
    of value.  Each is a strict interior local maximum of the series as
    parsed (larger than both neighbours; the first and the last sample are
    never reported), and when the series has no more than [n_peaks] such
    maxima, all of them are returned. *)
Theorem find_peaks_are_strict_maxima (series : list (Q * Q)) (n_peaks : nat) :
  (length (Db.find_peaks series n_peaks) <= n_peaks)%nat /\
  StronglySorted (fun a b => (snd b <= snd a)%Q) (Db.find_peaks series n_peaks) /\
  (forall p, In p (Db.find_peaks series n_peaks) ->
             exists i, Props.strict_peak series i /\ nth i series (0%Q, 0%Q) = p) /\
  (forall i, (length (Db.local_maxima series) <= n_peaks)%nat ->
             Props.strict_peak series i ->
             In (nth i series (0%Q, 0%Q)) (Db.find_peaks series n_peaks)).
Proof.
  rewrite find_peaks_unfold. split; [|split; [|split]].
  - rewrite length_firstn. lia.
  - apply StronglySorted_firstn, descending_by_value.
  - intros p Hp. apply In_firstn_full in Hp.
    apply (Permutation_in _ (sort_by_perm _ _)) in Hp.
    apply local_maxima_spec. exact Hp.
  - intros i Hlen Hi. rewrite firstn_all2 by (rewrite sort_by_length; exact Hlen).
    apply (Permutation_in _ (Permutation_sym (sort_by_perm _ _))).
    apply local_maxima_spec. exists i. split; [exact Hi|reflexivity].
Qed.

Lemma find_peaks_length (series : list (Q * Q)) (n : nat) :
  length (Db.find_peaks series n) = Nat.min n (length (Db.local_maxima series)).
Proof. rewrite find_peaks_unfold, length_firstn, sort_by_length. reflexivity. Qed.

(** X19.  The row that [insert_peaks] stores for a channel always has three
    peak slots: the peaks found, in descending order of value, followed by
    empty slots.  Slot [k] (counted from 0) is filled exactly when the series
    has more than [k] strict interior local maxima, so an empty slot is never
    followed by a filled one, and a flat or monotone series gives three empty
    slots. *)
Theorem peaks_row_slots (freq_psd_list : list (Q * Q)) :
  let slots := snd (DbPeaks.peaks_row freq_psd_list) in
  let found := Db.find_peaks freq_psd_list 3 in
  length slots = 3%nat /\
  slots = (map (fun p => (Some (fst p), Some (snd p))) found
           ++ repeat (None, None) (3 - length found))%list /\
  length found = Nat.min 3 (length (Db.local_maxima freq_psd_list)) /\
  fst (DbPeaks.peaks_row freq_psd_list) = Db.calculate_area freq_psd_list.
Proof.
  cbv zeta. unfold DbPeaks.peaks_row, DbPeaks.pad. cbn [fst snd].
  pose proof (find_peaks_length freq_psd_list 3) as Hl.
  set (found := Db.find_peaks freq_psd_list 3) in *.
  assert (Hlen : length (map (fun p : Q * Q => (Some (fst p), Some (snd p))) found
                         ++ repeat (@None Q, @None Q) (3 - length found))%list = 3%nat).
  { rewrite length_app, length_map, repeat_length. lia. }
  rewrite firstn_all2 by (rewrite Hlen; lia).
  repeat split; [exact Hlen|exact Hl].
Qed.

(** ** The trapezoidal rule *)

Lemma trapz_from_nonneg (y x : list Q) :
  forall y0 x0 : Q,
    (0 <= y0)%Q -> List.Forall (fun v => (0 <= v)%Q) y ->
    StronglySorted Qle (x0 :: x) ->
    (0 <= trapz_from y0 x0 y x)%Q.
Proof.
  revert x. induction y as [|y1 y IH]; intros x y0 x0 Hy0 Hy Hx; simpl.
  - apply Qle_refl.
  - destruct x as [|x1 x]; [apply Qle_refl|].
    inversion Hy as [|? ? Hy1 Hy']; subst.
    inversion Hx as [|? ? Hx' Hall]; subst.
    inversion Hall as [|? ? Hx01 _]; subst.
    assert (H1 : (0 <= (x1 - x0) * (y1 + y0) / 2)%Q).
    { unfold Qdiv. apply Qmult_le_0_compat; [|discriminate].
      apply Qmult_le_0_compat.
      - unfold Qminus. rewrite <- (Qplus_opp_r x0).
        apply Qplus_le_compat; [exact Hx01|apply Qle_refl].
      - rewrite <- (Qplus_0_r 0). apply Qplus_le_compat; assumption. }
    pose proof (IH x y1 x1 Hy1 Hy' Hx') as H2.
    rewrite <- (Qplus_0_r 0). apply Qplus_le_compat; assumption.
Qed.

Lemma trapz_nonneg (y x : list Q) :
  List.Forall (fun v => (0 <= v)%Q) y -> StronglySorted Qle x -> (0 <= trapz y x)%Q.
Proof.
  intros Hy Hx. unfold trapz.
  destruct y as [|y0 y]; [apply Qle_refl|]. destruct x as [|x0 x]; [apply Qle_refl|].
  inversion Hy; subst. apply trapz_from_nonneg; assumption.
Qed.

Lemma pairs_area_cons (a b : Q * Q) (l : list (Q * Q)) :
  pairs_area (a :: b :: l)
  = ((fst b - fst a) * (snd b + snd a) / 2 + pairs_area (b :: l))%Q.
Proof. reflexivity. Qed.

Lemma last_cons {A : Type} (l : list A) :
  forall c a : A, List.last (c :: l) a = List.last l c.
Proof.
  induction l as [|p l IH]; intros c a; [reflexivity|].
  change (List.last (c :: p :: l) a) with (List.last (p :: l) a).
  rewrite (IH p a), (IH p c). reflexivity.
Qed.

Lemma pairs_area_snoc (l : list (Q * Q)) :
  forall a b : Q * Q,
    (pairs_area (a :: l ++ [b])
     == pairs_area (a :: l)
        + (fst b - fst (List.last l a)) * (snd b + snd (List.last l a)) / 2)%Q.
Proof.
  induction l as [|c l IH]; intros a b.
  - unfold pairs_area. simpl. ring.
  - change ((c :: l) ++ [b])%list with (c :: l ++ [b])%list.
    rewrite !pairs_area_cons, IH.
    rewrite (last_cons l c a). ring.
Qed.

Lemma pairs_area_rev (l : list (Q * Q)) : (pairs_area (rev l) == - pairs_area l)%Q.
Proof.
  induction l as [|a l IH]; [reflexivity|].
  destruct l as [|b l]; [reflexivity|].
  rewrite pairs_area_cons.
  change (rev (a :: b :: l)) with (rev (b :: l) ++ [a])%list.
  destruct (rev (b :: l)) as [|c r] eqn:E.
  { apply (f_equal (@length _)) in E. rewrite length_rev in E. discriminate. }
  change ((c :: r) ++ [a])%list with (c :: r ++ [a])%list.
  rewrite pairs_area_snoc, IH.
  assert (Hlast : List.last r c = b).
  { assert (H : List.last (rev (b :: l)) c = b).
    { simpl. apply last_last. }
    rewrite E, last_cons in H. exact H. }
  rewrite Hlast. field.
Qed.

(** X20.  [calculate_area] integrates the pairs in the order in which they
    were parsed.  On a series of non-negative values in ascending order of
    frequency the area is not negative, and reading the same series in the
    opposite order gives the opposite area: a block stored in descending
    order of frequency gets an area that is not positive. *)
Theorem calculate_area_orientation (series : list (Q * Q)) :
  (Db.calculate_area (rev series) == - Db.calculate_area series)%Q /\
  (List.Forall (fun p => (0 <= snd p)%Q) series ->
   StronglySorted (fun a b => (fst a <= fst b)%Q) series ->
   (0 <= Db.calculate_area series)%Q /\ (Db.calculate_area (rev series) <= 0)%Q).
Proof.
  assert (Hrev : (Db.calculate_area (rev series) == - Db.calculate_area series)%Q).
  { rewrite !calculate_area_trapz. apply pairs_area_rev. }
  split; [exact Hrev|].
  intros Hy Hx.
  assert (Hpos : (0 <= Db.calculate_area series)%Q).
  { rewrite calculate_area_trapz. apply trapz_nonneg.
    - clear -Hy. induction Hy; simpl; constructor; assumption.
    - apply StronglySorted_map. exact Hx. }
  split; [exact Hpos|].
  rewrite Hrev. apply (Qopp_le_compat 0). exact Hpos.
Qed.

Lemma calculate_area_orientation_witness :
  (0 <= Db.calculate_area [(1, 1 # 2); (2, 3 # 2); (3, 1 # 5)]%Q)%Q /\
  (Db.calculate_area (rev [(1, 1 # 2); (2, 3 # 2); (3, 1 # 5)]%Q) <= 0)%Q.
Proof.
  apply (proj2 (calculate_area_orientation [(1, 1 # 2); (2, 3 # 2); (3, 1 # 5)]%Q)).
  - repeat constructor; discriminate.
  - repeat constructor; discriminate.
Defined.

(* ================================================================== *)
(** * The batch import script *)
(* ================================================================== *)







(** ** [parse_bush_file] *)

Lemma bush_card_unique (line : string) (e e' : Z) (k k' : Q * Q * Q) :
  Props.bush_card line e k -> Props.bush_card line e' k' -> e = e' /\ k = k'.
Proof.
  intros (_ & _ & _ & H1 & H2 & H3 & H4) (_ & _ & _ & G1 & G2 & G3 & G4).
  destruct k as [[k4 k5] k6], k' as [[k4' k5'] k6']. simpl in *.
  split; congruence.
Qed.

Lemma bush_line_cases (parameters : gmap Z (Q * Q * Q)) (line : string) :
  (exists e k, Props.bush_card line e k /\
               Batch.bush_line parameters line = <[e := k]> parameters) \/
  ((forall e k, ~ Props.bush_card line e k) /\
   Batch.bush_line parameters line = parameters).
Proof.
  unfold Batch.bush_line, Props.bush_card.
  destruct (startswith line "$") eqn:E1.
  { right. split; [|reflexivity]. intros e k (H & _). discriminate. }
  destruct (startswith line "PBUSH") eqn:E2.
  2:{ right. split; [|reflexivity]. intros e k (_ & H & _). discriminate. }
  destruct (5 <=? length (split line))%nat eqn:E3.
  2:{ right. split; [|reflexivity]. intros e k (_ & _ & H & _). discriminate. }
  destruct (py_int (nth 1 (split line) "")) as [e|] eqn:E4.
  2:{ right. split; [|reflexivity]. intros e k (_ & _ & _ & H & _). discriminate. }
  destruct (Db.nastran_float (Batch.nth_last 3 (split line))) as [k4|] eqn:E5.
  2:{ right. split; [|reflexivity]. intros e' k (_ & _ & _ & _ & H & _). discriminate. }
  destruct (Db.nastran_float (Batch.nth_last 2 (split line))) as [k5|] eqn:E6.
  2:{ right. split; [|reflexivity]. intros e' k (_ & _ & _ & _ & _ & H & _). discriminate. }
  destruct (Db.nastran_float (Batch.nth_last 1 (split line))) as [k6|] eqn:E7.
  2:{ right. split; [|reflexivity]. intros e' k (_ & _ & _ & _ & _ & _ & H). discriminate. }
  left. exists e, (k4, k5, k6). repeat split; reflexivity.
Qed.

Lemma parse_bush_file_snoc (lines : list string) (line : string) :
  Batch.parse_bush_file (lines ++ [line])
  = Batch.bush_line (Batch.parse_bush_file lines) line.
Proof. unfold Batch.parse_bush_file. rewrite fold_left_app. reflexivity. Qed.

(** X22.  The dictionary that [parse_bush_file] returns holds, under an
    element id, the stiffnesses K4, K5, K6 of the last well-formed PBUSH card
    with that id, and it holds nothing else: comment lines, other cards, and
    PBUSH cards with a field that is not a number are skipped without an
    error, and a later card replaces an earlier one with the same id. *)
Theorem parse_bush_file_last_card (lines : list string) (elem_id : Z) (k : Q * Q * Q) :
  Batch.parse_bush_file lines !! elem_id = Some k <->
  exists (before after : list string) (line : string),
    lines = (before ++ line :: after)%list /\
    Props.bush_card line elem_id k /\
    forall l k', In l after -> ~ Props.bush_card l elem_id k'.
Proof.
  induction lines as [|x ls IH] using rev_ind.
  - split.
    + unfold Batch.parse_bush_file. simpl. rewrite lookup_empty. discriminate.
    + intros (before & after & line & H & _). destruct before; discriminate.
  - rewrite parse_bush_file_snoc.
    destruct (bush_line_cases (Batch.parse_bush_file ls) x)
      as [(e & kx & Hcard & ->)|[Hno ->]].
    + destruct (decide (e = elem_id)) as [->|Hne].
      * rewrite lookup_insert_eq. split.
        -- intros H. injection H as <-. exists ls, [], x.
           split; [reflexivity|]. split; [exact Hcard|]. intros l k' [].
        -- intros (before & after & line & Hl & Hc & Hafter).
           destruct after as [|y after _] using rev_ind.
           ++ apply app_inj_tail in Hl. destruct Hl as [_ <-].
              destruct (bush_card_unique _ _ _ _ _ Hcard Hc) as [_ ->]. reflexivity.
           ++ exfalso. rewrite app_comm_cons, app_assoc in Hl.
              apply app_inj_tail in Hl. destruct Hl as [_ <-].
              apply (Hafter x kx); [|exact Hcard]. apply in_or_app. right. left. reflexivity.
      * rewrite lookup_insert_ne by exact Hne. rewrite IH. split.
        -- intros (before & after & line & -> & Hc & Hafter).
           exists before, (after ++ [x])%list, line.
           split; [rewrite <- app_assoc; reflexivity|]. split; [exact Hc|].
           intros l k' Hin Hl. apply in_app_or in Hin. destruct Hin as [Hin|[<-|[]]].
           ++ exact (Hafter l k' Hin Hl).
           ++ destruct (bush_card_unique _ _ _ _ _ Hcard Hl) as [He _]. exact (Hne He).
        -- intros (before & after & line & Hl & Hc & Hafter).
           destruct after as [|y after _] using rev_ind.
           ++ apply app_inj_tail in Hl. destruct Hl as [_ <-].
              destruct (bush_card_unique _ _ _ _ _ Hcard Hc) as [He _]. contradiction.
           ++ rewrite app_comm_cons, app_assoc in Hl.
              apply app_inj_tail in Hl. destruct Hl as [-> <-].
              exists before, after, line. split; [reflexivity|]. split; [exact Hc|].
              intros l k' Hin. apply Hafter. apply in_or_app. left. exact Hin.
    + rewrite IH. split.
      * intros (before & after & line & -> & Hc & Hafter).
        exists before, (after ++ [x])%list, line.
        split; [rewrite <- app_assoc; reflexivity|]. split; [exact Hc|].
        intros l k' Hin Hl. apply in_app_or in Hin. destruct Hin as [Hin|[<-|[]]].
        -- exact (Hafter l k' Hin Hl).
        -- exact (Hno _ _ Hl).
      * intros (before & after & line & Hl & Hc & Hafter).
        destruct after as [|y after _] using rev_ind.
        -- apply app_inj_tail in Hl. destruct Hl as [_ <-]. exfalso. exact (Hno _ _ Hc).
        -- rewrite app_comm_cons, app_assoc in Hl.
           apply app_inj_tail in Hl. destruct Hl as [-> <-].
           exists before, after, line. split; [reflexivity|]. split; [exact Hc|].
           intros l k' Hin. apply Hafter. apply in_or_app. left. exact Hin.
Qed.

(* ================================================================== *)
(** * Names of the degrees of freedom *)
(* ================================================================== *)

Lemma to_int_not_nil (n : Z) :
  Z.to_int n <> Decimal.Pos Decimal.Nil /\ Z.to_int n <> Decimal.Neg Decimal.Nil.
Proof.
  destruct n as [|p|p]; simpl; split; try discriminate; intros H; injection H as H;
    exact (DecimalPos.Unsigned.to_uint_nonnil p H).
Qed.

Lemma str_of_int_inj (a b : Z) : str_of_int a = str_of_int b -> a = b.
Proof.
  unfold str_of_int. intros H. apply DecimalZ.to_int_inj.
  destruct (to_int_not_nil a) as [A1 A2]. destruct (to_int_not_nil b) as [B1 B2].
  pose proof (NilZero.isi _ A1 A2) as Ha. pose proof (NilZero.isi _ B1 B2) as Hb.
  rewrite H in Ha. rewrite Ha in Hb. injection Hb as Hb. exact Hb.
Qed.

Lemma append_inj (p s t : string) : (p ++ s = p ++ t)%string -> s = t.
Proof.
  induction p as [|c p IH]; simpl; intros H; [exact H|].
  injection H as H. exact (IH H).
Qed.

Ltac name_cases a :=
  destruct (a =? 3)%Z eqn:?; [|
  destruct (a =? 4)%Z eqn:?; [|
  destruct (a =? 5)%Z eqn:?; [|
  destruct (a =? 6)%Z eqn:?; [|
  destruct (a =? 7)%Z eqn:?; [|
  destruct (a =? 8)%Z eqn:?]]]]].

(** X23.  Two different DOF codes never get the same name: the codes 3 to 8
    map to T1, T2, T3, R1, R2, R3, and any other code keeps its decimal
    digits in its name ([UNKNOWN-<code>] in the CSV script, [DOF<code>] in
    the database script).  So two channels of one node with different codes
    are never merged into one series. *)
Theorem dof_names_distinct (a b : Z) :
  a <> b ->
  Csv.determine_translation_id a <> Csv.determine_translation_id b /\
  Db.dof_name a <> Db.dof_name b.
Proof.
  intros Hne. split; intros H; apply Hne.
  - unfold Csv.determine_translation_id in H.
    name_cases a; name_cases b;
      repeat match goal with
             | E : (_ =? _)%Z = true |- _ => apply Z.eqb_eq in E
             end;
      try congruence; try discriminate H.
    apply append_inj in H. exact (str_of_int_inj _ _ H).
  - unfold Db.dof_name in H.
    name_cases a; name_cases b;
      repeat match goal with
             | E : (_ =? _)%Z = true |- _ => apply Z.eqb_eq in E
             end;
      try congruence; try discriminate H.
    apply append_inj in H. exact (str_of_int_inj _ _ H).
Qed.

Lemma dof_names_distinct_witness :
  Csv.determine_translation_id 9 <> Csv.determine_translation_id 10 /\
  Db.dof_name 9 <> Db.dof_name 10.
Proof.
  apply (dof_names_distinct 9 10). discriminate.
Defined.

(* ================================================================== *)
(** * The dead band and the delta check *)
(* ================================================================== *)

Lemma exceeds_deadband (tolerance : Q) (c : cell) :
  (1 # 1000000 <= tolerance)%Q ->
  exceeds tolerance (Verify.abs_cell (deadband c)) = exceeds tolerance (Verify.abs_cell c).
Proof.
  intros Htol. destruct c as [q|]; [|reflexivity]. unfold deadband.
  destruct (Qltb (Qabs q) (1 # 1000000)) eqn:E; [|reflexivity].
  cbn [Verify.abs_cell exceeds].
  apply Qltb_lt in E.
  assert (H1 : Qltb tolerance (Qabs 0) = false).
  { apply Qltb_ge. eapply Qle_trans; [|exact Htol]. discriminate. }
  assert (H2 : Qltb tolerance (Qabs q) = false).
  { apply Qltb_ge. apply Qlt_le_weak. eapply Qlt_le_trans; eassumption. }
  rewrite H1, H2. reflexivity.
Qed.

(** X24.  At a tolerance of 1e-6 or more, the default included, the dead
    band that the delta scripts apply before writing does not change the
    verdict of [verify_zero]: the check passes on the written delta exactly
    when it passes on the raw differences. *)
Theorem deadband_keeps_verdict (delta : table) (tolerance : Q) :
  (1 # 1000000 <= tolerance)%Q ->
  Verify.verify_zero
    {| Measurement := Measurement delta;
       columns := map (fun col => (fst col, map deadband (snd col))) (columns delta) |}
    tolerance
  = Verify.verify_zero delta tolerance.
Proof.
  intros Htol. unfold Verify.verify_zero. cbn [columns]. f_equal.
  induction (columns delta) as [|col cols IH]; [reflexivity|].
  cbn [map existsb snd]. rewrite IH. f_equal.
  rewrite !column_fails_existsb.
  induction (snd col) as [|c values IHv]; [reflexivity|].
  cbn [map existsb]. rewrite IHv, (exceeds_deadband _ _ Htol). reflexivity.
Qed.

Lemma deadband_keeps_verdict_witness :
  Verify.verify_zero
    {| Measurement := Measurement Inputs.baseline_frame;
       columns := map (fun col => (fst col, map deadband (snd col)))
                      (columns Inputs.baseline_frame) |}
    (1 # 1000000)
  = Verify.verify_zero Inputs.baseline_frame (1 # 1000000).
Proof.
  apply (deadband_keeps_verdict Inputs.baseline_frame (1 # 1000000)).
  discriminate.
Defined.

(* ================================================================== *)
(** * Missing peak cells *)
(* ================================================================== *)



